(** * Bear notes MCP server

    A shallow embedding of [src/bear-mcp-server.js] (the tool handlers of the
    server) and of [src/create-index.js], and the properties of the
    retrieval engine that the specification states about them.

    Layout: the JavaScript values the handlers manipulate ([JS]), the date
    arithmetic behind [new Date(..).toISOString()] ([JSDate]), numbers
    that are not whole ([Double]), substrings ([Text]), the two SQL
    statements of the [find_note_by_partial_id] handler ([Sqlite]),
    awaited computations ([Async]), the interface of the imported module
    [./utils.js] ([Utils]), the handlers themselves and the life of the
    process ([Server]), the engine behind [./utils.js] as the
    specification describes it ([Spec]), the contract of find-by-partial
    in the words of the specification ([Contract]), a corpus and further
    cases for examples ([Corpus], [Cases]), and then the lemmas, the
    claims and further properties. *)

From Stdlib Require Import ZArith List String Ascii Bool Lia.
From Stdlib Require Import Permutation Sorted DecimalString QArith Qabs Qround.
From Stdlib Require Import Reals Lra.
Import ListNotations.

Set Implicit Arguments.

(** ** JavaScript values *)

Module JS.

Local Open Scope string_scope.
Local Open Scope Z_scope.

(** The scalar values that reach the handlers: JSON scalars in the
    arguments of a request and column values read from the database.
    A number is an integer in the safe range of a double (below 2^53 in
    magnitude), where the arithmetic of doubles is exact and [ToString]
    prints every digit (the exponent form starts at 10^21). *)
Inductive jsval : Type :=
| JUndefined
| JNull
| JBool (b : bool)
| JNum (z : Z)
| JStr (s : string).

(** [ToBoolean]: what [if (v)], [v && w], [v || w] and [v ? a : b] test. *)
Definition truthy (v : jsval) : bool :=
  match v with
  | JUndefined | JNull => false
  | JBool b => b
  | JNum z => negb (z =? 0)
  | JStr s => negb (String.eqb s "")
  end.

Definition Z_to_string (z : Z) : string := NilZero.string_of_int (Z.to_int z).
Definition nat_to_string (n : nat) : string := Z_to_string (Z.of_nat n).

(** [ToString], as applied by a template literal [`${v}`]. *)
Definition toString (v : jsval) : string :=
  match v with
  | JUndefined => "undefined"
  | JNull => "null"
  | JBool true => "true"
  | JBool false => "false"
  | JNum z => Z_to_string z
  | JStr s => s
  end.

(** A default in a destructuring pattern, [{ x = d }]: used only when the
    property is [undefined]. *)
Definition default (v d : jsval) : jsval :=
  match v with JUndefined => d | _ => v end.

(** [a && b] *)
Definition js_and (a b : jsval) : jsval := if truthy a then b else a.

(** [Array.prototype.join]: [null] and [undefined] elements print as the
    empty string. *)
Definition join_item (v : jsval) : string :=
  match v with JUndefined | JNull => "" | _ => toString v end.

Fixpoint join_strings (sep : string) (l : list string) : string :=
  match l with
  | [] => ""
  | [s] => s
  | s :: rest => s ++ sep ++ join_strings sep rest
  end.

Definition join (sep : string) (l : list jsval) : string :=
  join_strings sep (map join_item l).

(** A string of JavaScript is a sequence of UTF-16 code units; a text is
    held here as the bytes of its UTF-8 form, as the store and the
    transport hold it, and a surrogate that stands alone as the three
    bytes of its generalised UTF-8 form. The bytes of a character: one
    byte below 128, or a first byte from 192 on followed by bytes
    10xxxxxx; a character of four bytes (first byte from 240 on) is two
    code units, any other character is one. *)
Definition continuation (c : ascii) : bool :=
  (128 <=? nat_of_ascii c)%nat && (nat_of_ascii c <? 192)%nat.

Definition lead (c : ascii) : bool := (192 <=? nat_of_ascii c)%nat.

Definition lead4 (c : ascii) : bool := (240 <=? nat_of_ascii c)%nat.

(** [s.length]: the count of code units. *)
Fixpoint units (s : string) : nat :=
  match s with
  | EmptyString => O
  | String c rest =>
      ((if continuation c then 0 else if lead4 c then 2 else 1) + units rest)%nat
  end.

(** The first code unit of a character of four bytes, a high surrogate,
    standing alone: 0xD800 + ((code point - 0x10000) >> 10), in three
    bytes. Only the first three bytes of the character bear on it. *)
Definition high_surrogate (b0 b1 b2 : ascii) : string :=
  let top := ((nat_of_ascii b0 mod 8) * 256 + (nat_of_ascii b1 mod 64) * 4 +
              (nat_of_ascii b2 mod 64) / 16 - 64)%nat in
  String (ascii_of_nat 237)
    (String (ascii_of_nat (160 + (top / 64) mod 16))
       (String (ascii_of_nat (128 + top mod 64)) EmptyString)).

(** The next byte of a text and what follows it; a character cut short by
    the end of the text is read as if empty continuation bytes ended it. *)
Definition next_byte (s : string) : ascii :=
  match s with String b _ => b | EmptyString => ascii_of_nat 128 end.

Definition after_byte (s : string) : string :=
  match s with String _ rest => rest | EmptyString => EmptyString end.

(** [s.substring(0, n)]: the first [n] code units. The bytes that continue
    a character follow its first byte; when one unit is left and the next
    character has two, its high surrogate is taken alone. *)
Fixpoint substring0 (n : nat) (s : string) : string :=
  match s with
  | EmptyString => EmptyString
  | String c rest =>
      if continuation c then String c (substring0 n rest)
      else
        match n with
        | O => EmptyString
        | S k =>
            if lead4 c then
              match k with
              | O => high_surrogate c (next_byte rest) (next_byte (after_byte rest))
              | S k' => String c (substring0 k' rest)
              end
            else String c (substring0 k rest)
        end
  end.

Definition nl : string := String (ascii_of_nat 10) "".
Definition dq : string := String (ascii_of_nat 34) "".

(** Thrown values are [Error] objects: a name, a message and, for the
    protocol's [McpError], a code. *)
Record error : Type := mkError {
  error_name : string;
  message : string;
  code : option Z
}.

Definition Error (msg : string) : error := mkError "Error" msg None.
Definition TypeError (msg : string) : error := mkError "TypeError" msg None.
Definition RangeError (msg : string) : error := mkError "RangeError" msg None.

(** [ErrorCode.MethodNotFound] and [new McpError(code, message)] of the
    protocol SDK; the SDK prefixes the message with the code. *)
Definition MethodNotFound : Z := -32601.
Definition McpError (c : Z) (msg : string) : error :=
  mkError "McpError" ("MCP error " ++ Z_to_string c ++ ": " ++ msg) (Some c).

(** The result of evaluating something that may throw. *)
Inductive res (A : Type) : Type :=
| Ok (a : A)
| Throw (e : error).
Arguments Throw {A} e.

(** A finite double given by its exact value, for [toFixed]. *)
Definition number : Type := Q.

Fixpoint zeros (n : nat) : string :=
  match n with
  | O => ""
  | S k => "0" ++ zeros k
  end.

(** [s.padStart(n, "0")] *)
Definition pad_left (n : nat) (s : string) : string :=
  zeros (n - String.length s) ++ s.

(** [x.toFixed(3)] for a finite [x] below 10^21: the integer [n] nearest to
    [x * 1000] (the larger one on a tie), printed with three decimals, and
    the sign of [x] in front. *)
Definition toFixed3 (x : number) : string :=
  let neg := (Qnum x <? 0) in
  let a := Qabs x in
  let n := Qfloor (a * 1000 + (1 # 2))%Q in
  let m := pad_left 4 (Z_to_string n) in
  let k := String.length m in
  (if neg then "-" else "") ++
  String.substring 0 (k - 3) m ++ "." ++ String.substring (k - 3) 3 m.

End JS.

(** ** Dates: [new Date(ms).toISOString()] *)

Module JSDate.

Import JS.
Local Open Scope string_scope.
Local Open Scope Z_scope.

Definition msPerDay : Z := 86400000.
Definition msPerHour : Z := 3600000.
Definition msPerMinute : Z := 60000.
Definition msPerSecond : Z := 1000.

Definition Day (t : Z) : Z := t / msPerDay.
Definition TimeWithinDay (t : Z) : Z := t mod msPerDay.

Definition DaysInYear (y : Z) : Z :=
  if negb (y mod 4 =? 0) then 365
  else if negb (y mod 100 =? 0) then 366
  else if negb (y mod 400 =? 0) then 365
  else 366.

Definition DayFromYear (y : Z) : Z :=
  365 * (y - 1970) + (y - 1969) / 4 - (y - 1901) / 100 + (y - 1601) / 400.

Definition TimeFromYear (y : Z) : Z := msPerDay * DayFromYear y.

(** The largest year that starts on or before day [d], found by walking up
    from a year that starts no later than [d]. *)
Fixpoint year_search (fuel : nat) (y d : Z) : Z :=
  match fuel with
  | O => y
  | S f => if DayFromYear (y + 1) <=? d then year_search f (y + 1) d else y
  end.

Definition year_start (d : Z) : Z :=
  1970 + (if 0 <=? d then d / 366 else d / 365).

Definition YearFromTime (t : Z) : Z :=
  year_search 1024 (year_start (Day t)) (Day t).

Definition InLeapYear (t : Z) : Z :=
  if DaysInYear (YearFromTime t) =? 366 then 1 else 0.

Definition DayWithinYear (t : Z) : Z := Day t - DayFromYear (YearFromTime t).

(** Months are numbered from 0, as in ECMAScript. *)
Definition MonthFromTime (t : Z) : Z :=
  let d := DayWithinYear t in
  let l := InLeapYear t in
  if d <? 31 then 0
  else if d <? 59 + l then 1
  else if d <? 90 + l then 2
  else if d <? 120 + l then 3
  else if d <? 151 + l then 4
  else if d <? 181 + l then 5
  else if d <? 212 + l then 6
  else if d <? 243 + l then 7
  else if d <? 273 + l then 8
  else if d <? 304 + l then 9
  else if d <? 334 + l then 10
  else 11.

Definition DateFromTime (t : Z) : Z :=
  let d := DayWithinYear t in
  let l := InLeapYear t in
  match MonthFromTime t with
  | 0 => d + 1
  | 1 => d - 30
  | 2 => d - 58 - l
  | 3 => d - 89 - l
  | 4 => d - 119 - l
  | 5 => d - 150 - l
  | 6 => d - 180 - l
  | 7 => d - 211 - l
  | 8 => d - 242 - l
  | 9 => d - 272 - l
  | 10 => d - 303 - l
  | _ => d - 333 - l
  end.

Definition HourFromTime (t : Z) : Z := (t / msPerHour) mod 24.
Definition MinFromTime (t : Z) : Z := (t / msPerMinute) mod 60.
Definition SecFromTime (t : Z) : Z := (t / msPerSecond) mod 60.
Definition msFromTime (t : Z) : Z := t mod msPerSecond.

(** The way back, from the fields of a UTC date to its time value:
    [MakeTime], [MakeDay] and [MakeDate]. *)
Definition month_start (m leap : Z) : Z :=
  match m with
  | 0 => 0
  | 1 => 31
  | 2 => 59 + leap
  | 3 => 90 + leap
  | 4 => 120 + leap
  | 5 => 151 + leap
  | 6 => 181 + leap
  | 7 => 212 + leap
  | 8 => 243 + leap
  | 9 => 273 + leap
  | 10 => 304 + leap
  | _ => 334 + leap
  end.

Definition days_in_month (m leap : Z) : Z :=
  match m with
  | 1 => 28 + leap
  | 3 | 5 | 8 | 10 => 30
  | _ => 31
  end.

Definition MakeTime (hour min sec ms : Z) : Z :=
  hour * msPerHour + min * msPerMinute + sec * msPerSecond + ms.

Definition MakeDay (year month date : Z) : Z :=
  DayFromYear year + month_start month (DaysInYear year - 365) + date - 1.

Definition MakeDate (day time : Z) : Z := day * msPerDay + time.

(** [TimeClip]: the time value of [new Date(v)]; [None] is the invalid
    date (a time value of NaN). *)
Definition maxTime : Z := 8640000000000000.

Definition new_Date (v : Z) : option Z :=
  if Z.abs v <=? maxTime then Some v else None.

Definition digits (n : nat) (z : Z) : string := pad_left n (Z_to_string z).

Definition year_string (y : Z) : string :=
  if (0 <=? y) && (y <=? 9999) then digits 4 y
  else if y <? 0 then "-" ++ digits 6 (- y)
  else "+" ++ digits 6 y.

(** [Date.prototype.toISOString] on a valid time value. *)
Definition iso_string (t : Z) : string :=
  year_string (YearFromTime t) ++ "-" ++ digits 2 (MonthFromTime t + 1) ++ "-" ++
  digits 2 (DateFromTime t) ++ "T" ++ digits 2 (HourFromTime t) ++ ":" ++
  digits 2 (MinFromTime t) ++ ":" ++ digits 2 (SecFromTime t) ++ "." ++
  digits 3 (msFromTime t) ++ "Z".

(** Reading a date-time string of that format back, field by field: a
    field is a fixed count of decimal digits, a mark is one character;
    the year has six digits behind a sign, or four digits. [None] when the
    string is not of the format. *)
Definition read_digits (n : nat) (k : Z -> string -> option Z) (s : string) : option Z :=
  let f := String.substring 0 n s in
  if (String.length f =? n)%nat then
    match NilZero.uint_of_string f with
    | Some u => k (Z.of_uint u) (String.substring n (String.length s - n) s)
    | None => None
    end
  else None.

Definition expect (c : ascii) (k : string -> option Z) (s : string) : option Z :=
  match s with
  | String d rest => if Ascii.eqb c d then k rest else None
  | EmptyString => None
  end.

Definition parse_date_time (sign : Z) (year_digits : nat) : string -> option Z :=
  read_digits year_digits (fun year =>
  expect "-" (read_digits 2 (fun month =>
  expect "-" (read_digits 2 (fun date =>
  expect "T" (read_digits 2 (fun hour =>
  expect ":" (read_digits 2 (fun min =>
  expect ":" (read_digits 2 (fun sec =>
  expect "." (read_digits 3 (fun ms =>
  expect "Z" (fun rest =>
    if String.eqb rest ""
    then Some (MakeDate (MakeDay (sign * year) (month - 1) date)
                        (MakeTime hour min sec ms))
    else None)))))))))))))).

Definition parse_iso (s : string) : option Z :=
  match s with
  | String c rest =>
      if Ascii.eqb c "+" then parse_date_time 1 6 rest
      else if Ascii.eqb c "-" then parse_date_time (-1) 6 rest
      else parse_date_time 1 4 s
  | EmptyString => None
  end.

(** Whether a field of [n] digits prints [z] in exactly [n] characters
    that start with a digit and read back as [z]; and whether it does so
    for each of the [count] integers from [z] on. *)
Definition field_ok (n : nat) (z : Z) : bool :=
  (String.length (digits n z) =? n)%nat &&
  match NilZero.uint_of_string (digits n z) with
  | Some u => Z.of_uint u =? z
  | None => false
  end &&
  match digits n z with
  | String c _ => negb (Ascii.eqb c "+") && negb (Ascii.eqb c "-")
  | EmptyString => false
  end.

Fixpoint all_from (f : Z -> bool) (z : Z) (count : nat) : bool :=
  match count with
  | O => true
  | S k => f z && all_from f (z + 1) k
  end.

Definition toISOString (d : option Z) : res string :=
  match d with
  | Some t => Ok (iso_string t)
  | None => Throw (RangeError "Invalid time value")
  end.

End JSDate.

(** ** Numbers that are not whole: binary64 *)

Module Double.

Local Open Scope Z_scope.

(** A finite number of JavaScript, [mant * 2^expo]. A result is rounded to
    53 bits, to the nearest and on a tie to the even one; the bounds of
    the exponent are left out, no value at hand coming near them. *)
Record double : Type := mk {
  mant : Z;
  expo : Z
}.

Definition round (m e : Z) : double :=
  let k := Z.log2 (Z.abs m) + 1 - 53 in
  if k <=? 0 then mk m e
  else
    let q := m / 2 ^ k in
    let r := m mod 2 ^ k in
    let half := 2 ^ (k - 1) in
    if (half <? r) || ((r =? half) && Z.odd q)
    then mk (q + 1) (e + k)
    else mk q (e + k).

Definition of_Z (z : Z) : double := round z 0.

(** [a + b] and [a * b] *)
Definition add (a b : double) : double :=
  let e := Z.min (expo a) (expo b) in
  round (mant a * 2 ^ (expo a - e) + mant b * 2 ^ (expo b - e)) e.

Definition mul (a b : double) : double :=
  round (mant a * mant b) (expo a + expo b).

(** The whole part, towards zero: [ToIntegerOrInfinity]. *)
Definition trunc (a : double) : Z :=
  if 0 <=? expo a then mant a * 2 ^ expo a
  else Z.quot (mant a) (2 ^ (- expo a)).

(** The exact value. *)
Definition value (a : double) : Q :=
  (inject_Z (mant a) * Qpower (2 # 1) (expo a))%Q.

End Double.

(** ** Texts and substrings *)

Module Text.

(** The fold of LIKE: the case of the 26 letters of ASCII and of nothing
    else. *)
Definition is_upper (c : ascii) : bool :=
  (65 <=? nat_of_ascii c)%nat && (nat_of_ascii c <=? 90)%nat.

Definition lower (c : ascii) : ascii :=
  if is_upper c then ascii_of_nat (nat_of_ascii c + 32) else c.

Definition eq_nocase (c d : ascii) : bool := Ascii.eqb (lower c) (lower d).

(** [f] is a prefix of [s], characters compared by [eq]. *)
Fixpoint prefix_chars (eq : ascii -> ascii -> bool) (f s : list ascii) : bool :=
  match f, s with
  | [], _ => true
  | _ :: _, [] => false
  | c :: f', d :: s' => eq c d && prefix_chars eq f' s'
  end.

(** [s] contains [f] as a substring: [f] is a prefix of [s] or of a later
    suffix of [s]. *)
Fixpoint contains_chars (eq : ascii -> ascii -> bool) (f s : list ascii) : bool :=
  prefix_chars eq f s ||
  match s with
  | [] => false
  | _ :: s' => contains_chars eq f s'
  end.

Definition contains (fragment text : string) : bool :=
  contains_chars Ascii.eqb (list_ascii_of_string fragment) (list_ascii_of_string text).

(** Containment up to the case of ASCII letters. *)
Definition contains_nocase (fragment text : string) : bool :=
  contains_chars eq_nocase (list_ascii_of_string fragment) (list_ascii_of_string text).

End Text.

(** ** The note database and the two statements run on it *)

Module Sqlite.

Import JS Text.
Local Open Scope string_scope.
Local Open Scope Z_scope.

(** The relations of the note application that the statements read.
    [None] is SQL's NULL; a text is the sequence of the bytes of its
    UTF-8 form; a timestamp counts whole seconds from
    2001-01-01T00:00:00Z (the store can hold a fraction of a second as
    well: what the conversion of the server makes of such a value is
    [Server.creation_time_value]). *)
Module ZSFNOTE.
Record row : Type := mk {
  Z_PK : Z;
  ZUNIQUEIDENTIFIER : option string;
  ZTITLE : option string;
  ZTEXT : option string;
  ZSUBTITLE : option string;
  ZCREATIONDATE : option Z;
  ZMODIFICATIONDATE : option Z;
  ZTRASHED : option Z
}.
End ZSFNOTE.

Module ZSFNOTETAG.
Record row : Type := mk {
  Z_PK : Z;
  ZTITLE : option string
}.
End ZSFNOTETAG.

Module Z_5TAGS.
Record row : Type := mk {
  Z_5NOTES : option Z;
  Z_13TAGS : option Z
}.
End Z_5TAGS.

(** The statements run on the store, with their bound parameters: the two
    of the server, and the scan of the notes that the rebuild of the index
    in utils.js reads ([listAllIndexable()], section 4.1 of the
    specification). *)
Inductive statement : Type :=
| SelectNotes (pattern : string)
| SelectTags (id : option string)
| SelectIndexable.

(** The database handle: the three relations, and the failures of the
    environment (a locked or unreadable file, a missing table), given as
    the error a statement is rejected with. *)
Record Db : Type := mkDb {
  notes : list ZSFNOTE.row;
  tags : list ZSFNOTETAG.row;
  note_tags : list Z_5TAGS.row;
  fault : statement -> option error
}.

(** *** Expressions: three-valued logic and LIKE *)

Definition sql_and (a b : option bool) : option bool :=
  match a, b with
  | Some false, _ | _, Some false => Some false
  | Some true, Some true => Some true
  | _, _ => None
  end.

Definition sql_or (a b : option bool) : option bool :=
  match a, b with
  | Some true, _ | _, Some true => Some true
  | Some false, Some false => Some false
  | _, _ => None
  end.

Definition sql_eq_int (a : option Z) (b : option Z) : option bool :=
  match a, b with
  | Some x, Some y => Some (x =? y)
  | _, _ => None
  end.

(** [column = ?] on texts, in the binary collation. *)
Definition sql_eq_text (a : option string) (b : option string) : option bool :=
  match a, b with
  | Some x, Some y => Some (String.eqb x y)
  | _, _ => None
  end.

(** A WHERE or ON clause keeps a row only when it is true. *)
Definition holds (c : option bool) : bool :=
  match c with Some true => true | _ => false end.

Definition percent : ascii := "%"%char.
Definition underscore : ascii := "_"%char.

Definition wildcard (c : ascii) : bool :=
  Ascii.eqb c percent || Ascii.eqb c underscore.

(** A text free of the two wildcards of LIKE. *)
Definition wildcard_free (f : list ascii) : bool :=
  forallb (fun c => negb (wildcard c)) f.

(** The bytes that continue a character of several bytes. *)
Fixpoint drop_continuation (s : list ascii) : list ascii :=
  match s with
  | c :: s' => if continuation c then drop_continuation s' else s
  | [] => []
  end.

(** The default LIKE of SQLite, without an ESCAPE clause, on UTF-8 texts:
    [%] matches any run of characters, [_] any one character (its first
    byte and the bytes that continue it; no character starts at a byte
    that continues one), any other character itself up to the case of
    ASCII letters. *)
Fixpoint like_chars (p s : list ascii) {struct p} : bool :=
  match p with
  | [] => match s with [] => true | _ :: _ => false end
  | c :: p' =>
      if Ascii.eqb c percent then
        (fix skip (s : list ascii) : bool :=
           like_chars p' s ||
           match s with
           | [] => false
           | _ :: s' => skip s'
           end) s
      else if Ascii.eqb c underscore then
        match s with
        | [] => false
        | d :: s' =>
            if continuation d then false
            else if lead d then like_chars p' (drop_continuation s')
            else like_chars p' s'
        end
      else
        match s with
        | [] => false
        | d :: s' => Ascii.eqb (lower c) (lower d) && like_chars p' s'
        end
  end.

Definition like (pattern text : string) : bool :=
  like_chars (list_ascii_of_string pattern) (list_ascii_of_string text).

(** [text LIKE ?] *)
Definition sql_like (text : option string) (pattern : string) : option bool :=
  option_map (like pattern) text.

(** *** First statement: the notes matching a pattern

    SELECT ZUNIQUEIDENTIFIER as id, ZTITLE as title, ZTEXT as content,
           ZSUBTITLE as subtitle, ZCREATIONDATE as creation_date
    FROM ZSFNOTE
    WHERE ZTRASHED = 0 AND (ZUNIQUEIDENTIFIER LIKE ? OR ZTITLE LIKE ?)
    ORDER BY ZMODIFICATIONDATE DESC
    LIMIT 10 *)

Definition where_notes (pattern : string) (n : ZSFNOTE.row) : bool :=
  holds (sql_and (sql_eq_int (ZSFNOTE.ZTRASHED n) (Some 0))
                 (sql_or (sql_like (ZSFNOTE.ZUNIQUEIDENTIFIER n) pattern)
                         (sql_like (ZSFNOTE.ZTITLE n) pattern))).

(** The order of ORDER BY on a nullable column: NULL sorts below every
    value. *)
Definition date_ltb (a b : option Z) : bool :=
  match a, b with
  | None, Some _ => true
  | Some x, Some y => x <? y
  | _, _ => false
  end.

Definition date_leb (a b : option Z) : bool := negb (date_ltb b a).

(** ORDER BY ZMODIFICATIONDATE DESC: rows of equal date stay in the order
    of the scan of the table. *)
Fixpoint insert_desc (n : ZSFNOTE.row) (l : list ZSFNOTE.row) : list ZSFNOTE.row :=
  match l with
  | [] => [n]
  | h :: t =>
      if date_ltb (ZSFNOTE.ZMODIFICATIONDATE n) (ZSFNOTE.ZMODIFICATIONDATE h)
      then h :: insert_desc n t
      else n :: h :: t
  end.

Definition order_by_modification_desc (l : list ZSFNOTE.row) : list ZSFNOTE.row :=
  fold_right insert_desc [] l.

(** [a] may stand before [b] in that order. *)
Definition not_older (a b : ZSFNOTE.row) : Prop :=
  date_leb (ZSFNOTE.ZMODIFICATIONDATE b) (ZSFNOTE.ZMODIFICATIONDATE a) = true.

Definition select_notes (db : Db) (pattern : string) : list ZSFNOTE.row :=
  firstn 10 (order_by_modification_desc (filter (where_notes pattern) (notes db))).

(** *** Second statement: the tags of a note

    SELECT ZT.ZTITLE as tag_name
    FROM Z_5TAGS J
    JOIN ZSFNOTETAG ZT ON ZT.Z_PK = J.Z_13TAGS
    JOIN ZSFNOTE ZN ON ZN.Z_PK = J.Z_5NOTES
    WHERE ZN.ZUNIQUEIDENTIFIER = ? *)

Definition select_tags (db : Db) (id : option string) : list (option string) :=
  flat_map (fun J =>
    flat_map (fun ZT =>
      if holds (sql_eq_int (Some (ZSFNOTETAG.Z_PK ZT)) (Z_5TAGS.Z_13TAGS J)) then
        flat_map (fun ZN =>
          if holds (sql_eq_int (Some (ZSFNOTE.Z_PK ZN)) (Z_5TAGS.Z_5NOTES J))
             && holds (sql_eq_text (ZSFNOTE.ZUNIQUEIDENTIFIER ZN) id)
          then [ZSFNOTETAG.ZTITLE ZT] else [])
        (notes db)
      else [])
    (tags db))
  (note_tags db).

(** [db.allAsync(sql, params)], the promise form of [all] that [createDb]
    of utils.js puts on the handle: the rows the statement selects, unless
    the environment fails the statement. *)
Definition allAsync_notes (db : Db) (pattern : string) : res (list ZSFNOTE.row) :=
  match fault db (SelectNotes pattern) with
  | Some e => Throw e
  | None => Ok (select_notes db pattern)
  end.

Definition allAsync_tags (db : Db) (id : option string) : res (list (option string)) :=
  match fault db (SelectTags id) with
  | Some e => Throw e
  | None => Ok (select_tags db id)
  end.

(** A column value as the driver hands it to JavaScript. *)
Definition of_text (v : option string) : jsval :=
  match v with Some s => JStr s | None => JNull end.

Definition of_int (v : option Z) : jsval :=
  match v with Some z => JNum z | None => JNull end.

End Sqlite.

(** ** Computations that await and may reject *)

Module Async.

Import JS.

Section Monad.

(** [U] is the private state of the module [./utils.js] (the embedding
    model, the vector index), which its functions read and update. *)
Variable U : Type.

Definition M (A : Type) : Type := U -> res A * U.

Definition ret {A} (a : A) : M A := fun u => (Ok a, u).
Definition throw {A} (e : error) : M A := fun u => (Throw e, u).

Definition bind {A B} (m : M A) (k : A -> M B) : M B :=
  fun u =>
    match m u with
    | (Ok a, u') => k a u'
    | (Throw e, u') => (Throw e, u')
    end.

(** [try { m } catch (error) { h error }] *)
Definition try_catch {A} (m : M A) (h : error -> M A) : M A :=
  fun u =>
    match m u with
    | (Ok a, u') => (Ok a, u')
    | (Throw e, u') => h e u'
    end.

(** Lifting an evaluation that touches no state. *)
Definition lift {A} (r : res A) : M A := fun u => (r, u).

End Monad.

Arguments ret {U A} a.
Arguments throw {U A} e.
Arguments lift {U A} r.

End Async.

Notation "x <- m ;; k" := (Async.bind m (fun x => k))
  (at level 61, m at next level, right associativity).

(** ** The module [./utils.js], as the server imports it *)

Module Utils.

Import JS Sqlite Async.

(** A note object, as the functions of utils.js return it and as the
    handlers print it; a property that is absent is [JUndefined] or
    [None]. *)
Record note : Type := mkNote {
  id : jsval;
  title : jsval;
  content : jsval;
  subtitle : jsval;
  creation_date : jsval;
  tags : option (list jsval);
  score : option number
}.

(** The object [createVectorIndex] resolves to. *)
Record index_result : Type := mkIndexResult {
  notesIndexed : jsval
}.

(** The nine imports of the server. [retrieveNote] may resolve to no
    object at all ([None]). *)
Record module (U : Type) : Type := mkModule {
  getDbPath : M U string;
  createDb : string -> M U Db;
  searchNotes : Db -> jsval -> jsval -> jsval -> M U (list note);
  retrieveNote : Db -> jsval -> M U (option note);
  getAllTags : Db -> M U (list jsval);
  loadVectorIndex : M U bool;
  initEmbedder : M U bool;
  retrieveForRAG : Db -> jsval -> jsval -> M U (list note);
  createVectorIndex : Db -> M U index_result
}.

End Utils.

(** ** The server: [src/bear-mcp-server.js] *)

Module Server.

Import JS JSDate Sqlite Async Utils.
Local Open Scope string_scope.
Local Open Scope Z_scope.

(** [request.params] of a tool call; the handlers read five properties of
    the arguments, which may be missing as a whole. *)
Record arguments : Type := mkArguments {
  query : jsval;
  limit : jsval;
  semantic : jsval;
  arg_id : jsval;
  partial_id : jsval
}.

Record request : Type := mkRequest {
  name : string;
  args : option arguments
}.

(** [{ content: [{ type: "text", text }] }] *)
Record content_item : Type := mkItem {
  type : string;
  text : string
}.

Record response : Type := mkResponse {
  content : list content_item
}.

Definition text_response (t : string) : response :=
  mkResponse [mkItem "text" t].

(** A tool declaration: its name, description, the properties of its input
    schema with their types, and the required ones. *)
Record tool : Type := mkTool {
  tool_name : string;
  description : string;
  properties : list (string * string);
  required : list string
}.

(** What [initialize] resolves to, and the handlers close over. *)
Record server : Type := mkServer {
  db : Db;
  hasSemanticSearch : bool
}.

(** Messages of the engine for the two failing accesses of the handlers. *)
Definition destructure_error (prop : string) : error :=
  TypeError ("Cannot destructure property '" ++ prop ++
             "' of 'request.params.arguments' as it is undefined.").

Definition read_error (of_ prop : string) : error :=
  TypeError ("Cannot read properties of " ++ of_ ++ " (reading '" ++ prop ++ "')").

(** The bullet of the tag list, byte for byte as the source file has it. *)
Definition bullet : string :=
  string_of_list_ascii (map ascii_of_nat [195; 162; 226; 130; 172; 194; 162]%nat).

(** The seconds between 1970-01-01 and 2001-01-01, both at 00:00:00 UTC. *)
Definition apple_epoch : Z := 978307200.

Section Handlers.

Variable U : Type.
Variable utils : Utils.module U.

(** [initialize()]; what it writes to the console is left out. *)
Definition initialize : M U server :=
  dbPath <- getDbPath utils ;;
  db <- createDb utils dbPath ;;
  modelInitialized <- initEmbedder utils ;;
  indexLoaded <- loadVectorIndex utils ;;
  ret (mkServer db (modelInitialized && indexLoaded)).

(** The handler of [ListToolsRequestSchema]. *)
Definition list_tools (s : server) : list tool :=
  [ mkTool "search_notes" "Search for notes in Bear that match a query"
      [("query", "string"); ("limit", "number"); ("semantic", "boolean")] ["query"];
    mkTool "get_note" "Retrieve a specific note by its ID"
      [("id", "string")] ["id"];
    mkTool "get_tags" "Get all tags used in Bear Notes" [] [];
    mkTool "reindex_notes" "Re-index all notes to update the vector search index" [] [];
    mkTool "find_note_by_partial_id"
      "Find a note by partial ID when you only have part of the UUID"
      [("partial_id", "string")] ["partial_id"] ]
  ++ (if hasSemanticSearch s
      then [ mkTool "retrieve_for_rag"
               "Retrieve notes that are semantically similar to a query for RAG"
               [("query", "string"); ("limit", "number")] ["query"] ]
      else []).

(** *** search_notes *)

Definition strategy (useSemanticSearch : jsval) : string :=
  if truthy useSemanticSearch then "semantic" else "keyword".

Definition render_found (n : note) : string :=
  "**" ++ toString (title n) ++ "**" ++ nl ++ "ID: " ++ toString (id n) ++ nl ++
  toString (Utils.content n) ++ nl.

Definition search_text (useSemanticSearch : jsval) (notes : list note) : string :=
  "Found " ++ nat_to_string (List.length notes) ++ " notes using " ++
  strategy useSemanticSearch ++ " search:" ++ nl ++ nl ++
  join_strings nl (map render_found notes).

Definition search_notes (s : server) (a : option arguments) : M U response :=
  match a with
  | None => throw (destructure_error "query")
  | Some a =>
      let query := query a in
      let limit := default (limit a) (JNum 10) in
      let semantic := default (semantic a) (JBool true) in
      let useSemanticSearch := js_and semantic (JBool (hasSemanticSearch s)) in
      try_catch
        (notes <- searchNotes utils (db s) query limit useSemanticSearch ;;
         ret (text_response (search_text useSemanticSearch notes)))
        (fun error => ret (text_response ("Search failed: " ++ message error)))
  end.

(** *** get_note *)

Definition render_note (n : option note) : res string :=
  match n with
  | None => Throw (read_error "undefined" "title")
  | Some n =>
      match tags n with
      | None => Throw (read_error "undefined" "join")
      | Some ts =>
          Ok ("**" ++ toString (title n) ++ "**" ++ nl ++ nl ++ toString (Utils.content n) ++
              nl ++ nl ++ "*Tags: " ++ join ", " ts ++ "*" ++ nl ++
              "*Created: " ++ toString (creation_date n) ++ "*")
      end
  end.

Definition get_note (s : server) (a : option arguments) : M U response :=
  match a with
  | None => throw (destructure_error "id")
  | Some a =>
      try_catch
        (note <- retrieveNote utils (db s) (arg_id a) ;;
         t <- lift (render_note note) ;;
         ret (text_response t))
        (fun error => ret (text_response ("Error retrieving note: " ++ message error)))
  end.

(** *** get_tags *)

Definition tags_text (tags : list jsval) : string :=
  "Available tags (" ++ nat_to_string (List.length tags) ++ "):" ++ nl ++ nl ++
  join_strings nl (map (fun tag => bullet ++ " " ++ toString tag) tags).

Definition get_tags (s : server) : M U response :=
  try_catch
    (tags <- getAllTags utils (db s) ;;
     ret (text_response (tags_text tags)))
    (fun error => ret (text_response ("Error retrieving tags: " ++ message error))).

(** *** retrieve_for_rag *)

Definition score_text (n : note) : string :=
  match score n with
  | Some x => toFixed3 x
  | None => "N/A"
  end.

Definition render_context (n : note) : string :=
  "**" ++ toString (title n) ++ "**" ++ nl ++ "ID: " ++ toString (id n) ++ nl ++
  toString (Utils.content n) ++ nl ++ "*Score: " ++ score_text n ++ "*" ++ nl.

Definition rag_text (query : jsval) (context : list note) : string :=
  "Retrieved " ++ nat_to_string (List.length context) ++ " relevant notes for: " ++
  dq ++ toString query ++ dq ++ nl ++ nl ++ join_strings nl (map render_context context).

Definition retrieve_for_rag (s : server) (a : option arguments) : M U response :=
  match a with
  | None => throw (destructure_error "query")
  | Some a =>
      let query := query a in
      let limit := default (limit a) (JNum 5) in
      try_catch
        (context <- retrieveForRAG utils (db s) query limit ;;
         ret (text_response (rag_text query context)))
        (fun error => ret (text_response ("RAG retrieval failed: " ++ message error)))
  end.

(** *** reindex_notes *)

Definition reindex_notes (s : server) : M U response :=
  try_catch
    (result <- createVectorIndex utils (db s) ;;
     ret (text_response ("Successfully re-indexed " ++ toString (notesIndexed result) ++
                         " notes. Vector search index has been updated.")))
    (fun error => ret (text_response ("Re-indexing failed: " ++ message error))).

(** *** find_note_by_partial_id *)

Definition like_pattern (partial_id : jsval) : string :=
  "%" ++ toString partial_id ++ "%".

(** The inner [try]: the tags of one note, or none when the statement is
    rejected. *)
Definition lookup_tags (d : Db) (r : ZSFNOTE.row) : list jsval :=
  match allAsync_tags d (ZSFNOTE.ZUNIQUEIDENTIFIER r) with
  | Ok tags => map of_text tags
  | Throw tagError => []
  end.

(** [if (note.creation_date) { note.creation_date = new Date((note.creation_date
    + 978307200) * 1000).toISOString(); }], on a whole number of seconds,
    where the sum and the product of binary64 are the exact ones as long
    as the result is a date. *)
Definition convert_creation_date (creation_date : option Z) : res jsval :=
  if truthy (of_int creation_date) then
    match creation_date with
    | Some z =>
        match toISOString (new_Date ((z + apple_epoch) * 1000)) with
        | Ok iso => Ok (JStr iso)
        | Throw e => Throw e
        end
    | None => Ok JNull
    end
  else Ok (of_int creation_date).

(** The time value of [new Date((creation_date + 978307200) * 1000)] for
    any number of the store, whole or not: the sum and the product are
    those of binary64, and [new Date] keeps the whole part. *)
Definition creation_time_value (creation_date : Double.double) : option Z :=
  new_Date (Double.trunc
              (Double.mul (Double.add creation_date (Double.of_Z apple_epoch))
                          (Double.of_Z 1000))).

(** The native dates that [new Date] accepts once shifted and scaled. *)
Definition convertible (creation_date : option Z) : bool :=
  match creation_date with
  | Some z => Z.abs ((z + apple_epoch) * 1000) <=? maxTime
  | None => true
  end.

(** One turn of the loop over the selected rows: the row object, with the
    five columns of the SELECT list, gets its tags and its date. *)
Definition annotate (d : Db) (r : ZSFNOTE.row) : res note :=
  let tags := lookup_tags d r in
  match convert_creation_date (ZSFNOTE.ZCREATIONDATE r) with
  | Ok date =>
      Ok (mkNote (of_text (ZSFNOTE.ZUNIQUEIDENTIFIER r)) (of_text (ZSFNOTE.ZTITLE r))
                 (of_text (ZSFNOTE.ZTEXT r)) (of_text (ZSFNOTE.ZSUBTITLE r))
                 date (Some tags) None)
  | Throw e => Throw e
  end.

(** Running a step that may throw over a list, in order. *)
Fixpoint for_each {A B} (f : A -> res B) (l : list A) : res (list B) :=
  match l with
  | [] => Ok []
  | a :: rest =>
      match f a with
      | Throw e => Throw e
      | Ok b =>
          match for_each f rest with
          | Throw e => Throw e
          | Ok bs => Ok (b :: bs)
          end
      end
  end.

Definition render_partial (n : note) : res string :=
  match Utils.content n, tags n with
  | JStr c, Some ts =>
      Ok ("**" ++ toString (title n) ++ "**" ++ nl ++ "Full ID: " ++ toString (id n) ++ nl ++
          substring0 200 c ++ "..." ++ nl ++ "*Tags: " ++ join ", " ts ++ "*" ++ nl)
  | JStr _, None => Throw (read_error "undefined" "join")
  | JNull, _ => Throw (read_error "null" "substring")
  | JUndefined, _ => Throw (read_error "undefined" "substring")
  | _, _ => Throw (TypeError "note.content.substring is not a function")
  end.

Definition partial_text (partial_id : jsval) (notes : list note) : res string :=
  match for_each render_partial notes with
  | Ok blocks =>
      Ok ("Found " ++ nat_to_string (List.length notes) ++ " notes matching " ++
          dq ++ toString partial_id ++ dq ++ ":" ++ nl ++ nl ++ join_strings nl blocks)
  | Throw e => Throw e
  end.

(** The notes the handler has in hand when it builds its answer. *)
Definition find_notes (d : Db) (partial_id : jsval) : res (list note) :=
  match allAsync_notes d (like_pattern partial_id) with
  | Throw e => Throw e
  | Ok rows => for_each (annotate d) rows
  end.

(** The text of the answer, from those notes. *)
Definition partial_answer (d : Db) (partial_id : jsval) : string :=
  match find_notes d partial_id with
  | Throw e => "Search failed: " ++ message e
  | Ok [] =>
      "No notes found matching partial ID or title: " ++ dq ++ toString partial_id ++ dq
  | Ok notes =>
      match partial_text partial_id notes with
      | Ok t => t
      | Throw e => "Search failed: " ++ message e
      end
  end.

Definition find_note_by_partial_id (s : server) (a : option arguments) : M U response :=
  match a with
  | None => throw (destructure_error "partial_id")
  | Some a =>
      let partial_id := partial_id a in
      try_catch
        (notes <- lift (allAsync_notes (db s) (like_pattern partial_id)) ;;
         if (List.length notes =? 0)%nat then
           ret (text_response ("No notes found matching partial ID or title: " ++
                               dq ++ toString partial_id ++ dq))
         else
           notes <- lift (for_each (annotate (db s)) notes) ;;
           t <- lift (partial_text partial_id notes) ;;
           ret (text_response t))
        (fun error => ret (text_response ("Search failed: " ++ message error)))
  end.

(** *** The handler of [CallToolRequestSchema] *)

Definition call_tool (s : server) (request : request) : M U response :=
  if String.eqb (name request) "search_notes" then search_notes s (args request)
  else if String.eqb (name request) "get_note" then get_note s (args request)
  else if String.eqb (name request) "get_tags" then get_tags s
  else if String.eqb (name request) "retrieve_for_rag" && hasSemanticSearch s
       then retrieve_for_rag s (args request)
  else if String.eqb (name request) "reindex_notes" then reindex_notes s
  else if String.eqb (name request) "find_note_by_partial_id"
       then find_note_by_partial_id s (args request)
  else throw (McpError MethodNotFound "Tool not found").

(** *** [main()] and the life of the process

    The process starts and awaits [initialize()]. When that resolves,
    [main()] builds the protocol server, registers the two handlers and
    awaits [server.connect(transport)]; it then installs the handlers of
    the signals, and tool calls are served, one at a time, by the handlers
    closed over what [initialize] returned. A rejection of [main()], from
    [initialize()] or from the protocol server, ends the process with
    code 1. A signal has [db.close] called, whose callback ends the
    process with code 0; while the store is being closed further calls
    and signals can arrive, and the outcome of such a call is left open,
    the sources not telling what a closing handle answers. Before the
    handlers of the signals are installed a signal ends the process at
    once. The protocol server answers a call whose handler rejects with an
    error response and goes on serving. *)

Inductive phase : Type :=
| Starting
| AwaitingInitialize
| Connecting (s : server)
| Serving (s : server)
| Closing (s : server)
| Exited (code : Z)
| Killed.

Inductive event : Type :=
| Main
| Initialized
| Connected (failure : option error)
| CallTool (request : request) (outcome : res response)
| Signal
| Closed.

Inductive main_step : phase * U -> event -> phase * U -> Prop :=
| step_main : forall u,
    main_step (Starting, u) Main (AwaitingInitialize, u)
| step_initialized : forall u s u',
    initialize u = (Ok s, u') ->
    main_step (AwaitingInitialize, u) Initialized (Connecting s, u')
| step_failed : forall u e u',
    initialize u = (Throw e, u') ->
    main_step (AwaitingInitialize, u) Initialized (Exited 1, u')
| step_connected : forall s u,
    main_step (Connecting s, u) (Connected None) (Serving s, u)
| step_refused : forall s u e,
    main_step (Connecting s, u) (Connected (Some e)) (Exited 1, u)
| step_call : forall s u request outcome u',
    call_tool s request u = (outcome, u') ->
    main_step (Serving s, u) (CallTool request outcome) (Serving s, u')
| step_signal : forall s u,
    main_step (Serving s, u) Signal (Closing s, u)
| step_call_closing : forall s u request outcome u',
    main_step (Closing s, u) (CallTool request outcome) (Closing s, u')
| step_signal_closing : forall s u,
    main_step (Closing s, u) Signal (Closing s, u)
| step_closed : forall s u,
    main_step (Closing s, u) Closed (Exited 0, u)
| step_killed_starting : forall u,
    main_step (Starting, u) Signal (Killed, u)
| step_killed_initializing : forall u,
    main_step (AwaitingInitialize, u) Signal (Killed, u)
| step_killed_connecting : forall s u,
    main_step (Connecting s, u) Signal (Killed, u).

(** Runs of the process. *)
Inductive main_run : phase * U -> list event -> phase * U -> Prop :=
| run_nil : forall c, main_run c [] c
| run_cons : forall c e c' es c'',
    main_step c e c' -> main_run c' es c'' -> main_run c (e :: es) c''.

Definition is_call (e : event) : Prop :=
  match e with CallTool _ _ => True | _ => False end.

(** *** [src/create-index.js]: [runIndexing()], to its exit code *)

Definition runIndexing : U -> Z * U :=
  fun u =>
    match (dbPath <- getDbPath utils ;; createDb utils dbPath) u with
    | (Throw e, u') => (1, u')
    | (Ok d, u') =>
        match createVectorIndex utils d u' with
        | (Ok result, u'') => (0, u'')
        | (Throw error, u'') => (1, u'')
        end
    end.

End Handlers.

(** Whether semantic search is on offer, in each phase of the process. *)
Inductive availability : Type :=
| Unavailable
| Initializing
| Available.

Definition semantic_availability (p : phase) : availability :=
  match p with
  | Starting => Unavailable
  | AwaitingInitialize => Initializing
  | Connecting s | Serving s | Closing s =>
      if hasSemanticSearch s then Available else Unavailable
  | Exited _ | Killed => Unavailable
  end.

(** The process has ended. *)
Definition ended (p : phase) : bool :=
  match p with
  | Exited _ | Killed => true
  | _ => false
  end.

(** The server record the process holds, once [initialize()] resolved. *)
Definition server_of (p : phase) : option server :=
  match p with
  | Connecting s | Serving s | Closing s => Some s
  | _ => None
  end.

End Server.

(** ** The retrieval engine behind [./utils.js], after the specification

    The file utils.js is not part of the sources at hand; the functions the
    server imports from it are described by the specification (sections 3
    and 4), and are modelled here from its words. *)

Module Spec.

Import JS JSDate Text Sqlite Async Utils.
Local Open Scope string_scope.
Local Open Scope Z_scope.

Section Engine.

(** Modelled from the spec: section 4.2, the Embedding Provider, which is
    missing with utils.js and is taken as given: the identifier of its
    model, the vectors it produces, [embed(text)] ([None] when the call
    fails for that text), and the similarity of two vectors as the exact
    value of the score. *)
Variable vector : Type.
Variable model_id : string.
Variable embed : string -> option vector.
Variable similarity : vector -> vector -> Q.

(** Modelled from the spec: section 3, a note is visible to queries when
    its trashed flag is not set. utils.js is missing. *)
Definition visible (n : ZSFNOTE.row) : bool :=
  holds (sql_eq_int (ZSFNOTE.ZTRASHED n) (Some 0)).

(** Modelled from the spec: section 4.1, the conversion of a native
    timestamp, seconds since 2001-01-01T00:00:00Z, to a UTC date-time.
    utils.js is missing. *)
Definition timestamp (d : option Z) : jsval :=
  match d with
  | Some z => JStr (iso_string ((z + 978307200) * 1000))
  | None => JNull
  end.

(** Modelled from the spec: section 4.1, [tagsOf(noteId)], the names of
    the tags joined to the note. utils.js is missing. *)
Definition tagsOf (d : Db) (noteId : option string) : list jsval :=
  map of_text (select_tags d noteId).

(** Modelled from the spec: section 3, the Note read from a row of the
    store, with its tags and its converted timestamp. utils.js is
    missing. *)
Definition to_note (d : Db) (n : ZSFNOTE.row) : note :=
  mkNote (of_text (ZSFNOTE.ZUNIQUEIDENTIFIER n)) (of_text (ZSFNOTE.ZTITLE n))
         (of_text (ZSFNOTE.ZTEXT n)) (of_text (ZSFNOTE.ZSUBTITLE n))
         (timestamp (ZSFNOTE.ZCREATIONDATE n))
         (Some (tagsOf d (ZSFNOTE.ZUNIQUEIDENTIFIER n))) None.

(** Modelled from the spec: section 3, a note has the identifier [i].
    utils.js is missing. *)
Definition has_id (i : string) (n : ZSFNOTE.row) : bool :=
  holds (sql_eq_text (ZSFNOTE.ZUNIQUEIDENTIFIER n) (Some i)).

(** Modelled from the spec: section 4.1, [findById(id)], the note with
    that exact identifier among the non-trashed notes, or not found.
    utils.js is missing. *)
Definition findById (d : Db) (i : string) : option ZSFNOTE.row :=
  find (fun n => visible n && has_id i n) (notes d).

(** Modelled from the spec: section 4.1, a title or body contains the
    query as a substring; an absent text contains nothing. utils.js is
    missing. *)
Definition text_contains (fragment : string) (text : option string) : bool :=
  match text with Some t => contains fragment t | None => false end.

(** Modelled from the spec: sections 4.1 and 8, the limit of a query as a
    count, for the limits that are numbers. utils.js is missing. *)
Definition count_of (limit : jsval) : nat :=
  match limit with JNum z => Z.to_nat z | _ => O end.

(** Modelled from the spec: section 4.1, [keywordSearch(query, limit)],
    the non-trashed notes whose title or body contains the query as a
    substring, ordered by modification time descending, capped at the
    limit. utils.js is missing. *)
Definition keywordSearch (d : Db) (query : string) (limit : nat) : list ZSFNOTE.row :=
  firstn limit
    (order_by_modification_desc
       (filter (fun n => visible n &&
                         (text_contains query (ZSFNOTE.ZTITLE n) ||
                          text_contains query (ZSFNOTE.ZTEXT n)))
               (notes d))).

(** Modelled from the spec: section 4.1, [listAllIndexable()], all the
    non-trashed notes. utils.js is missing. *)
Definition listAllIndexable (d : Db) : list ZSFNOTE.row :=
  filter visible (notes d).

(** Modelled from the spec: sections 3 and 4.1, [allTags()], the names of
    the tags that some non-trashed note carries. utils.js is missing. *)
Definition allTags (d : Db) : list jsval :=
  map (fun t => of_text (ZSFNOTETAG.ZTITLE t))
    (filter (fun t =>
       existsb (fun j =>
         holds (sql_eq_int (Some (ZSFNOTETAG.Z_PK t)) (Z_5TAGS.Z_13TAGS j)) &&
         existsb (fun n =>
           visible n && holds (sql_eq_int (Some (ZSFNOTE.Z_PK n)) (Z_5TAGS.Z_5NOTES j)))
           (notes d))
         (note_tags d))
       (Sqlite.tags d)).

(** Modelled from the spec: section 3, a VectorIndexEntry, named by the
    identifier of the note it was built from, with its vector and the
    modification time of the note. utils.js is missing. *)
Record entry : Type := mkEntry {
  entry_id : option string;
  entry_vector : vector;
  entry_modified : option Z
}.

(** Modelled from the spec: section 3, the VectorIndex, a collection of
    entries stamped with the model that produced them. utils.js is
    missing. *)
Record VectorIndex : Type := mkIndex {
  index_model : string;
  entries : list entry
}.

(** Modelled from the spec: sections 3 and 4.4, what the engine holds:
    whether the Embedding Provider is initialised, the active index if
    any, and the persisted copy if any. utils.js is missing. *)
Record state : Type := mkState {
  provider_ready : bool;
  active : option VectorIndex;
  persisted : option VectorIndex
}.

(** Modelled from the spec: section 4.3, the order of [query]: higher
    score first, and among equal scores the more recently modified note
    first. utils.js is missing. *)
Definition ranks_before (a b : entry * Q) : bool :=
  match (snd a ?= snd b)%Q with
  | Gt => true
  | Lt => false
  | Eq => date_ltb (entry_modified (fst b)) (entry_modified (fst a))
  end.

(** Modelled from the spec: section 4.3, the ranking of the scored
    entries, by insertion in that order. utils.js is missing. *)
Fixpoint insert_ranked (a : entry * Q) (l : list (entry * Q)) : list (entry * Q) :=
  match l with
  | [] => [a]
  | h :: t => if ranks_before h a then h :: insert_ranked a t else a :: h :: t
  end.

(** Modelled from the spec: section 4.3, [query(queryVector, k)], the [k]
    entries of highest similarity to the query vector, descending by
    score, by a scan of the whole index. utils.js is missing. *)
Definition query_index (ix : VectorIndex) (queryVector : vector) (k : nat)
  : list (entry * Q) :=
  firstn k
    (fold_right insert_ranked []
       (map (fun e => (e, similarity queryVector (entry_vector e))) (entries ix))).

(** Modelled from the spec: section 4.4, the failure that reports
    semantic search as unavailable. utils.js is missing. *)
Definition unavailable : error := Error "semantic search is unavailable".

(** Modelled from the spec: section 4.3, the text of a title or body for
    the concatenation that is embedded; an absent text is empty. utils.js
    is missing. *)
Definition text_of (v : option string) : string :=
  match v with Some t => t | None => "" end.

(** Modelled from the spec: section 4.4, the semantic path: the query is
    embedded, the index ranks its entries, and the top entries are
    returned as the notes of the store they name, each with its score; it
    fails when the provider or the index is not available. utils.js is
    missing. *)
Definition semantic_path (d : Db) (query : string) (k : nat) (st : state)
  : res (list note) :=
  match provider_ready st, active st with
  | true, Some ix =>
      match embed query with
      | None => Throw (Error "embedding failed")
      | Some queryVector =>
          Ok (flat_map
                (fun hit =>
                   match entry_id (fst hit) with
                   | None => []
                   | Some i =>
                       match findById d i with
                       | Some n =>
                           let r := to_note d n in
                           [mkNote (Utils.id r) (title r) (Utils.content r) (subtitle r)
                                   (creation_date r) (Utils.tags r) (Some (snd hit))]
                       | None => []
                       end
                   end)
                (query_index ix queryVector k))
      end
  | _, _ => Throw unavailable
  end.

(** Modelled from the spec: section 4.4, the two strategies of [search]
    behind [searchNotes(db, query, limit, useSemanticSearch)]: the semantic
    path when the flag is set, [keywordSearch] otherwise. utils.js is
    missing. *)
Definition searchNotes (d : Db) (query limit useSemanticSearch : jsval)
  : M state (list note) :=
  fun st =>
    if truthy useSemanticSearch
    then (semantic_path d (toString query) (count_of limit) st, st)
    else (Ok (map (to_note d) (keywordSearch d (toString query) (count_of limit))), st).

(** Modelled from the spec: section 4.4, [retrieveForContext(query,
    limit)], always the semantic path, with no keyword fallback.
    utils.js is missing. *)
Definition retrieveForRAG (d : Db) (query limit : jsval) : M state (list note) :=
  fun st => (semantic_path d (toString query) (count_of limit) st, st).

(** Modelled from the spec: section 4.3, the entries of [rebuild]: every
    note of [listAllIndexable()] is embedded from the concatenation of its
    title and body, and a note whose embedding fails is skipped. utils.js
    is missing. *)
Definition build_entries (d : Db) : list entry :=
  flat_map
    (fun n =>
       match embed (text_of (ZSFNOTE.ZTITLE n) ++ text_of (ZSFNOTE.ZTEXT n)) with
       | Some v => [mkEntry (ZSFNOTE.ZUNIQUEIDENTIFIER n) v (ZSFNOTE.ZMODIFICATIONDATE n)]
       | None => []
       end)
    (listAllIndexable d).

(** Modelled from the spec: section 4.4, [reindex()], which is [rebuild]
    then [save]: the new index replaces the active one as a whole and is
    persisted, and the count of notes indexed is returned; without the
    provider, or when the store fails the scan of the notes, the rebuild
    aborts before the swap and leaves the state as it was (section 4.3).
    utils.js is missing. *)
Definition createVectorIndex (d : Db) : M state index_result :=
  fun st =>
    if provider_ready st then
      match fault d SelectIndexable with
      | Some e => (Throw e, st)
      | None =>
          let ix := mkIndex model_id (build_entries d) in
          (Ok (mkIndexResult (JNum (Z.of_nat (List.length (entries ix))))),
           mkState true (Some ix) (Some ix))
      end
    else (Throw unavailable, st).

(** Modelled from the spec: section 4.3, [load()]: the persisted index
    becomes the active one when there is one and it was stamped with the
    current model; otherwise nothing changes and the load reports
    failure, without raising. utils.js is missing. *)
Definition loadVectorIndex : M state bool :=
  fun st =>
    match persisted st with
    | Some ix =>
        if String.eqb (index_model ix) model_id
        then (Ok true, mkState (provider_ready st) (Some ix) (persisted st))
        else (Ok false, st)
    | None => (Ok false, st)
    end.

(** Modelled from the spec: section 4.2, [initialize()] of the Embedding
    Provider, a one-time step that succeeds or fails with the loading of
    the model; the provider is available afterwards exactly when it
    succeeded. utils.js is missing. *)
Definition initEmbedder (model_loads : bool) : M state bool :=
  fun st => (Ok model_loads, mkState model_loads (active st) (persisted st)).

(** Modelled from the spec: section 6, [get_tags], the full list of
    tags. utils.js is missing. *)
Definition getAllTags (d : Db) : M state (list jsval) :=
  fun st => (Ok (allTags d), st).

(** Modelled from the spec: section 6, [get_note], the single note of
    that identifier with its tags and timestamp, or not found. utils.js
    is missing. *)
Definition retrieveNote (d : Db) (i : jsval) : M state (option note) :=
  fun st =>
    match findById d (toString i) with
    | Some n => (Ok (Some (to_note d n)), st)
    | None => (Throw (Error "not found"), st)
    end.

End Engine.

(** Modelled from the spec: section 3, an embedding vector, an ordered
    sequence of numbers; the numbers are taken as reals, the statements
    of the specification about floating-point tolerance being statements
    about the exact value. utils.js is missing. *)
Definition embedding : Type := list R.

(** Modelled from the spec: section 4.3, the dot product of two vectors.
    utils.js is missing. *)
Fixpoint dot (a b : embedding) : R :=
  match a, b with
  | x :: a', y :: b' => (x * y + dot a' b')%R
  | _, _ => 0%R
  end.

(** Modelled from the spec: section 4.3, the magnitude of a vector.
    utils.js is missing. *)
Definition magnitude (a : embedding) : R := sqrt (dot a a).

(** Modelled from the spec: section 4.3, cosine similarity: the dot
    product of the two vectors divided by the product of their magnitudes,
    and 0 if either vector has zero magnitude. utils.js is missing. *)
Definition cosine_similarity (a b : embedding) : R :=
  if Req_dec_T (magnitude a) 0 then 0%R
  else if Req_dec_T (magnitude b) 0 then 0%R
  else (dot a b / (magnitude a * magnitude b))%R.

End Spec.

(** ** The contract of find-by-partial, in the words of the specification *)

Module Contract.

Import JS Text Sqlite.

Definition text_contains_nocase (fragment : string) (text : option string) : bool :=
  match text with
  | Some t => contains_nocase fragment t
  | None => false
  end.

(** A non-trashed note whose identifier or title contains the fragment as
    a substring, case-insensitively. *)
Definition matches_fragment (fragment : string) (n : ZSFNOTE.row) : bool :=
  holds (sql_eq_int (ZSFNOTE.ZTRASHED n) (Some 0%Z)) &&
  (text_contains_nocase fragment (ZSFNOTE.ZUNIQUEIDENTIFIER n) ||
   text_contains_nocase fragment (ZSFNOTE.ZTITLE n)).

(** A returned note carries the columns of its row and, unless the
    environment failed the lookup, the tags joined to its identifier. *)
Definition annotated (d : Db) (r : ZSFNOTE.row) (n : Utils.note) : Prop :=
  Utils.id n = of_text (ZSFNOTE.ZUNIQUEIDENTIFIER r) /\
  Utils.title n = of_text (ZSFNOTE.ZTITLE r) /\
  Utils.content n = of_text (ZSFNOTE.ZTEXT r) /\
  (fault d (SelectTags (ZSFNOTE.ZUNIQUEIDENTIFIER r)) = None ->
   Utils.tags n =
   Some (map of_text (select_tags d (ZSFNOTE.ZUNIQUEIDENTIFIER r)))).

(** A row whose body is not NULL. *)
Definition has_text (r : ZSFNOTE.row) : bool :=
  match ZSFNOTE.ZTEXT r with Some _ => true | None => false end.

(** The same store when no lookup of tags is failed. *)
Definition without_tag_faults (d : Db) : Db :=
  mkDb (notes d) (tags d) (note_tags d)
       (fun st => match st with SelectTags _ => None | _ => fault d st end).

End Contract.

(** ** A small corpus, for examples *)

Module Corpus.

Import JS Sqlite.
Local Open Scope string_scope.
Local Open Scope Z_scope.

Definition noteA : ZSFNOTE.row :=
  ZSFNOTE.mk 1 (Some "A-1111") (Some "Project Plan") (Some "Draft the plan.")
             None (Some 31536000) (Some 200) (Some 0).

Definition noteB : ZSFNOTE.row :=
  ZSFNOTE.mk 2 (Some "B-2222") (Some "Grocery List") (Some "Milk, eggs.")
             None (Some 0) (Some 100) (Some 0).

Definition noteC : ZSFNOTE.row :=
  ZSFNOTE.mk 3 (Some "C-3333") (Some "Project Archive") (Some "Old.")
             None (Some 5) (Some 300) (Some 1).

Definition work : ZSFNOTETAG.row := ZSFNOTETAG.mk 10 (Some "work").
Definition home : ZSFNOTETAG.row := ZSFNOTETAG.mk 11 (Some "home").

Definition joins : list Z_5TAGS.row :=
  [ Z_5TAGS.mk (Some 1) (Some 10); Z_5TAGS.mk (Some 2) (Some 11);
    Z_5TAGS.mk (Some 3) (Some 10) ].

Definition no_fault : statement -> option error := fun _ => None.

(** A and B are visible, C is in the trash. *)
Definition store : Db := mkDb [noteA; noteB; noteC] [work; home] joins no_fault.

(** The same store, where the lookup of the tags of note A fails. *)
Definition busy : error := JS.Error "SQLITE_BUSY: database is locked".

Definition faulty_store : Db :=
  mkDb [noteA; noteB; noteC] [work; home] joins
       (fun st =>
          match st with
          | SelectTags (Some i) => if String.eqb i "A-1111" then Some busy else None
          | _ => None
          end).

Definition returned_dates (r : res (list Utils.note)) : list jsval :=
  match r with
  | Ok notes => map Utils.creation_date notes
  | Throw _ => []
  end.

(** An engine for the examples: a text is embedded as its length, and two
    vectors are the more similar the closer they are. *)
Definition embed (text : string) : option Z := Some (Z.of_nat (String.length text)).

Definition similarity (a b : Z) : Q := 1 # Z.to_pos (1 + Z.abs (a - b)).

Definition engine : Utils.module (Spec.state Z) :=
  Utils.mkModule
    (Async.ret "database.sqlite")
    (fun _ => Async.ret store)
    (Spec.searchNotes embed similarity)
    (@Spec.retrieveNote Z)
    (@Spec.getAllTags Z)
    (@Spec.loadVectorIndex Z "model-1")
    (@Spec.initEmbedder Z true)
    (Spec.retrieveForRAG embed similarity)
    (Spec.createVectorIndex "model-1" embed).

(** The engine before [initialize()], with no index persisted yet; and
    with an index in place. *)
Definition fresh : Spec.state Z := Spec.mkState false None None.

Definition indexed : Spec.state Z :=
  let ix := Spec.mkIndex "model-1" (Spec.build_entries embed store) in
  Spec.mkState true (Some ix) (Some ix).

(** The engine once its model is loaded, with no index yet. *)
Definition ready : Spec.state Z := Spec.mkState true None None.

(** A store whose notes cannot be read. *)
Definition broken_store : Db :=
  mkDb [] [] [] (fun _ => Some (JS.Error "SQLITE_CORRUPT: database disk image is malformed")).

Definition search_for (q : string) : Server.arguments :=
  Server.mkArguments (JStr q) JUndefined JUndefined JUndefined JUndefined.

(** The identifiers of the notes of an answer. *)
Definition returned_ids (r : res (list Utils.note)) : list jsval :=
  match r with
  | Ok notes => map Utils.id notes
  | Throw _ => []
  end.

End Corpus.

(** ** More notes and stores, for the examples of the further properties *)

Module Cases.

Import JS Sqlite.
Local Open Scope string_scope.
Local Open Scope Z_scope.

(** A note whose body is NULL, and a note whose creation time is beyond
    the dates of JavaScript. *)
Definition noteD : ZSFNOTE.row :=
  ZSFNOTE.mk 4 (Some "D-4444") (Some "Draft") None None (Some 10) (Some 50) (Some 0).

Definition noteE : ZSFNOTE.row :=
  ZSFNOTE.mk 5 (Some "E-5555") (Some "Epoch") (Some "Far away.")
             None (Some 10000000000000) (Some 60) (Some 0).

Definition store_with_null_body : Db :=
  mkDb [Corpus.noteA; noteD] [Corpus.work] Corpus.joins Corpus.no_fault.

Definition store_with_far_date : Db :=
  mkDb [Corpus.noteA; noteE] [Corpus.work] Corpus.joins Corpus.no_fault.

(** A note whose title holds a wildcard of LIKE. *)
Definition noteF : ZSFNOTE.row :=
  ZSFNOTE.mk 6 (Some "F-6666") (Some "100% done") (Some "All of it.")
             None (Some 20) (Some 70) (Some 0).

Definition store_with_percent : Db :=
  mkDb [Corpus.noteA; noteF] [Corpus.work] Corpus.joins Corpus.no_fault.

(** A body of 250 euro signs, three bytes and one code unit each. *)
Fixpoint repeat_string (n : nat) (s : string) : string :=
  match n with
  | O => ""
  | S k => s ++ repeat_string k s
  end.

Definition euro : string :=
  String (ascii_of_nat 226) (String (ascii_of_nat 130) (String (ascii_of_nat 172) "")).

Definition euros : string := repeat_string 250 euro.

(** The store of the corpus while another process holds it locked for the
    scan of the rebuild, an engine on that store, and the engine before
    [initialize()] when an earlier run persisted an index. *)
Definition locked_store : Db :=
  mkDb [Corpus.noteA; Corpus.noteB; Corpus.noteC] [Corpus.work; Corpus.home] Corpus.joins
       (fun st => match st with SelectIndexable => Some Corpus.busy | _ => None end).

Definition locked_engine : Utils.module (Spec.state Z) :=
  Utils.mkModule
    (Async.ret "database.sqlite")
    (fun _ => Async.ret locked_store)
    (Spec.searchNotes Corpus.embed Corpus.similarity)
    (@Spec.retrieveNote Z)
    (@Spec.getAllTags Z)
    (@Spec.loadVectorIndex Z "model-1")
    (@Spec.initEmbedder Z true)
    (Spec.retrieveForRAG Corpus.embed Corpus.similarity)
    (Spec.createVectorIndex "model-1" Corpus.embed).

Definition persisted_only : Spec.state Z :=
  Spec.mkState false None (Spec.persisted Corpus.indexed).

(** Vectors of one component, 1 or -1, whose cosine similarity is 1 or
    -1, and an index of two of them. *)
Definition sign_coords (b : bool) : Spec.embedding := [if b then 1%R else (-1)%R].

Definition sign_similarity (u v : bool) : Q := if Bool.eqb u v then 1%Q else (-1)%Q.

Definition sign_index : Spec.VectorIndex bool :=
  Spec.mkIndex "signs" [Spec.mkEntry (Some "A-1111") true None;
                        Spec.mkEntry (Some "B-2222") false None].

(** A native creation time with a fraction of a second: 134217 / 2^27
    seconds, a little less than a millisecond. *)
Definition fraction_of_millisecond : Double.double := Double.mk 134217 (-27).

Definition find_for (fragment : jsval) : Server.arguments :=
  Server.mkArguments JUndefined JUndefined JUndefined JUndefined fragment.

End Cases.

(** * Properties *)

Import JS JSDate Text Sqlite Async Utils Server Contract.
Local Open Scope string_scope.

Arguments YearFromTime : simpl never.

(** ** Dates: the fields of [toISOString] denote the time value *)

Section Dates.

Local Open Scope Z_scope.

Lemma DayFromYear_step (y : Z) : DayFromYear (y + 1) = DayFromYear y + DaysInYear y.
Proof.
  unfold DayFromYear, DaysInYear.
  destruct (y mod 4 =? 0) eqn:E4; destruct (y mod 100 =? 0) eqn:E100;
    destruct (y mod 400 =? 0) eqn:E400; cbn [negb];
    rewrite ?Z.eqb_eq, ?Z.eqb_neq in *; Z.div_mod_to_equations; lia.
Qed.

Lemma DaysInYear_bounds (y : Z) : DaysInYear y = 365 \/ DaysInYear y = 366.
Proof.
  unfold DaysInYear. repeat destruct (negb _); auto.
Qed.

Lemma year_search_spec (fuel : nat) :
  forall y d,
    DayFromYear y <= d -> d - DayFromYear y < 365 * Z.of_nat fuel ->
    DayFromYear (year_search fuel y d) <= d < DayFromYear (year_search fuel y d + 1).
Proof.
  induction fuel as [|f IH]; intros y d H1 H2.
  - lia.
  - cbn [year_search]. destruct (DayFromYear (y + 1) <=? d) eqn:E.
    + apply Z.leb_le in E. apply IH; [assumption|].
      rewrite DayFromYear_step in *. destruct (DaysInYear_bounds y); lia.
    + apply Z.leb_gt in E. lia.
Qed.

Lemma year_start_spec (d : Z) :
  -100000000 <= d <= 100000000 ->
  DayFromYear (year_start d) <= d /\
  d - DayFromYear (year_start d) < 365 * Z.of_nat 1024.
Proof.
  intros H. unfold year_start, DayFromYear.
  change (Z.of_nat 1024) with 1024.
  destruct (0 <=? d) eqn:E; [apply Z.leb_le in E|apply Z.leb_gt in E];
    Z.div_mod_to_equations; lia.
Qed.

(** [YearFromTime t] is the year the day of [t] falls in: the fuel of the
    search covers every valid time value. *)
Lemma YearFromTime_spec (t : Z) :
  Z.abs t <= maxTime ->
  DayFromYear (YearFromTime t) <= Day t < DayFromYear (YearFromTime t + 1).
Proof.
  intros H. unfold YearFromTime.
  assert (Hd : -100000000 <= Day t <= 100000000).
  { unfold Day, msPerDay, maxTime in *. Z.div_mod_to_equations. lia. }
  destruct (year_start_spec Hd) as [H1 H2].
  now apply year_search_spec.
Qed.

Lemma DayWithinYear_bounds (t : Z) :
  Z.abs t <= maxTime ->
  0 <= DayWithinYear t < 365 + InLeapYear t.
Proof.
  intros H. pose proof (YearFromTime_spec t H) as Hy.
  rewrite DayFromYear_step in Hy. unfold DayWithinYear, InLeapYear.
  destruct (DaysInYear_bounds (YearFromTime t)) as [E|E]; rewrite E in *;
    [change (365 =? 366) with false|change (366 =? 366) with true]; cbv iota; lia.
Qed.

Lemma InLeapYear_days (t : Z) : InLeapYear t = DaysInYear (YearFromTime t) - 365.
Proof.
  unfold InLeapYear.
  destruct (DaysInYear_bounds (YearFromTime t)) as [E|E]; rewrite E; reflexivity.
Qed.

(** The date fields are a date of the calendar, and name the day of [t]. *)
Lemma date_fields_exact (t : Z) :
  Z.abs t <= maxTime ->
  0 <= MonthFromTime t <= 11 /\
  1 <= DateFromTime t <= days_in_month (MonthFromTime t) (InLeapYear t) /\
  MakeDay (YearFromTime t) (MonthFromTime t) (DateFromTime t) = Day t.
Proof.
  intros H. pose proof (DayWithinYear_bounds t H) as Hd.
  unfold MakeDay. rewrite <- InLeapYear_days.
  assert (Hl : InLeapYear t = 0 \/ InLeapYear t = 1).
  { unfold InLeapYear. destruct (_ =? _); auto. }
  unfold DateFromTime, MonthFromTime.
  assert (Hday : Day t = DayFromYear (YearFromTime t) + DayWithinYear t)
    by (unfold DayWithinYear; lia).
  rewrite Hday. clear Hday.
  generalize dependent (DayWithinYear t). intros d Hd.
  generalize dependent (InLeapYear t). intros l Hd Hl.
  repeat match goal with
         | |- context [if ?a <? ?b then _ else _] =>
             let E := fresh "E" in
             destruct (a <? b) eqn:E;
             [apply Z.ltb_lt in E|apply Z.ltb_ge in E]; cbv iota
         end; cbn [month_start days_in_month]; lia.
Qed.

(** The time fields name the time within the day of [t]. *)
Lemma time_fields_exact (t : Z) :
  0 <= HourFromTime t < 24 /\ 0 <= MinFromTime t < 60 /\
  0 <= SecFromTime t < 60 /\ 0 <= msFromTime t < 1000 /\
  MakeTime (HourFromTime t) (MinFromTime t) (SecFromTime t) (msFromTime t) =
  TimeWithinDay t.
Proof.
  unfold MakeTime, HourFromTime, MinFromTime, SecFromTime, msFromTime, TimeWithinDay,
    msPerHour, msPerMinute, msPerSecond, msPerDay.
  Z.div_mod_to_equations. lia.
Qed.

(** The fields that [toISOString] prints denote the time value exactly. *)
Lemma iso_fields_exact (t : Z) :
  Z.abs t <= maxTime ->
  MakeDate (MakeDay (YearFromTime t) (MonthFromTime t) (DateFromTime t))
           (MakeTime (HourFromTime t) (MinFromTime t) (SecFromTime t) (msFromTime t)) = t.
Proof.
  intros H. destruct (date_fields_exact t H) as (_ & _ & ->).
  destruct (time_fields_exact t) as (_ & _ & _ & _ & ->).
  unfold MakeDate, Day, TimeWithinDay, msPerDay. Z.div_mod_to_equations. lia.
Qed.

End Dates.

(** ** Dates: the string of [toISOString] reads back as the time value *)

Section IsoRoundTrip.

Local Open Scope Z_scope.

Lemma all_from_spec (f : Z -> bool) (count : nat) :
  forall z, all_from f z count = true ->
  forall i, z <= i < z + Z.of_nat count -> f i = true.
Proof.
  induction count as [|k IH]; intros z H i Hi; [lia|].
  cbn [all_from] in H. apply andb_true_iff in H. destruct H as [Hz H].
  destruct (Z.eq_dec i z) as [->|Hne]; [exact Hz|].
  apply (IH (z + 1) H). lia.
Qed.

Lemma fields_of_two (z : Z) : 0 <= z < 100 -> field_ok 2 z = true.
Proof.
  intros H. apply (@all_from_spec (field_ok 2) 100 0); [vm_compute; reflexivity|lia].
Qed.

Lemma fields_of_three (z : Z) : 0 <= z < 1000 -> field_ok 3 z = true.
Proof.
  intros H. apply (@all_from_spec (field_ok 3) 1000 0); [vm_compute; reflexivity|lia].
Qed.

Lemma fields_of_four (z : Z) : 0 <= z < 10000 -> field_ok 4 z = true.
Proof.
  intros H.
  apply (@all_from_spec (field_ok 4) (Z.to_nat 10000) 0); [vm_compute; reflexivity|].
  rewrite Z2Nat.id; lia.
Qed.

Lemma fields_of_six (z : Z) : 0 <= z < 275761 -> field_ok 6 z = true.
Proof.
  intros H.
  apply (@all_from_spec (field_ok 6) (Z.to_nat 275761) 0); [vm_compute; reflexivity|].
  rewrite Z2Nat.id; lia.
Qed.

Lemma substring_whole (a rest : string) :
  String.substring 0 (String.length a) (a ++ rest) = a.
Proof.
  induction a as [|c a IH]; cbn.
  - destruct rest; reflexivity.
  - now rewrite IH.
Qed.

Lemma substring_rest (a rest : string) :
  String.substring (String.length a) (String.length (a ++ rest) - String.length a)
                   (a ++ rest) = rest.
Proof.
  induction a as [|c a IH]; cbn [String.length append String.substring].
  - rewrite Nat.sub_0_r.
    induction rest as [|c rest IHr]; [reflexivity|]. cbn. now rewrite IHr.
  - exact IH.
Qed.

(** A field that prints well reads back. *)
Lemma read_digits_field (n : nat) (z : Z) (k : Z -> string -> option Z) (rest : string) :
  field_ok n z = true ->
  read_digits n k (digits n z ++ rest) = k z rest.
Proof.
  unfold field_ok, read_digits. generalize (digits n z). intros a H.
  apply andb_true_iff in H. destruct H as [H _].
  apply andb_true_iff in H. destruct H as [Hl Hu].
  apply Nat.eqb_eq in Hl. subst n.
  rewrite substring_whole, Nat.eqb_refl, substring_rest.
  destruct (NilZero.uint_of_string a) as [u|]; [|discriminate].
  apply Z.eqb_eq in Hu. now rewrite Hu.
Qed.

Lemma expect_mark (c : ascii) (k : string -> option Z) (rest : string) :
  expect c k (String c "" ++ rest) = k rest.
Proof.
  cbn. now rewrite Ascii.eqb_refl.
Qed.

Lemma year_bounds (t : Z) :
  Z.abs t <= maxTime -> -271821 <= YearFromTime t <= 275760.
Proof.
  intros H. pose proof (YearFromTime_spec t H) as Hy.
  assert (Hd : -100000000 <= Day t <= 100000000).
  { unfold Day, msPerDay, maxTime in *. Z.div_mod_to_equations. lia. }
  revert Hy. generalize (YearFromTime t). intros y.
  unfold DayFromYear. intros Hy. Z.div_mod_to_equations. lia.
Qed.

Lemma parse_date_time_fields (sign : Z) (n : nat) (y month date hour min sec ms : Z) :
  field_ok n y = true -> field_ok 2 month = true -> field_ok 2 date = true ->
  field_ok 2 hour = true -> field_ok 2 min = true -> field_ok 2 sec = true ->
  field_ok 3 ms = true ->
  parse_date_time sign n
    (digits n y ++ "-" ++ digits 2 month ++ "-" ++ digits 2 date ++ "T" ++
     digits 2 hour ++ ":" ++ digits 2 min ++ ":" ++ digits 2 sec ++ "." ++
     digits 3 ms ++ "Z") =
  Some (MakeDate (MakeDay (sign * y) (month - 1) date) (MakeTime hour min sec ms)).
Proof.
  intros Hy Hmo Hd Hh Hmi Hs Hms. unfold parse_date_time.
  rewrite read_digits_field by exact Hy. rewrite expect_mark.
  rewrite read_digits_field by exact Hmo. rewrite expect_mark.
  rewrite read_digits_field by exact Hd. rewrite expect_mark.
  rewrite read_digits_field by exact Hh. rewrite expect_mark.
  rewrite read_digits_field by exact Hmi. rewrite expect_mark.
  rewrite read_digits_field by exact Hs. rewrite expect_mark.
  rewrite read_digits_field by exact Hms.
  reflexivity.
Qed.

Lemma parse_iso_unsigned (c : ascii) (r rest : string) :
  Ascii.eqb c "+" = false -> Ascii.eqb c "-" = false ->
  parse_iso (String c r ++ rest) = parse_date_time 1 4 (String c r ++ rest).
Proof.
  intros Hp Hm. cbn [append parse_iso]. now rewrite Hp, Hm.
Qed.

Lemma parse_iso_minus (d rest : string) :
  parse_iso (("-" ++ d) ++ rest) = parse_date_time (-1) 6 (d ++ rest).
Proof.
  reflexivity.
Qed.

Lemma parse_iso_plus (d rest : string) :
  parse_iso (("+" ++ d) ++ rest) = parse_date_time 1 6 (d ++ rest).
Proof.
  reflexivity.
Qed.

(** The string that [toISOString] prints reads back as the time value. *)
Lemma parse_iso_string (t : Z) :
  Z.abs t <= maxTime -> parse_iso (iso_string t) = Some t.
Proof.
  intros H.
  pose proof (year_bounds t H) as Hy.
  destruct (date_fields_exact t H) as (Hm & Hd & _).
  destruct (time_fields_exact t) as (Hh & Hmi & Hs & Hms & _).
  pose proof (iso_fields_exact t H) as Hexact.
  assert (Hdate : 1 <= DateFromTime t <= 31).
  { assert (Hl : InLeapYear t = 0 \/ InLeapYear t = 1).
    { unfold InLeapYear. destruct (_ =? _); auto. }
    assert (Hdm : days_in_month (MonthFromTime t) (InLeapYear t) <= 31).
    { unfold days_in_month. destruct (MonthFromTime t) as [|p|p]; [lia| |lia].
      destruct p as [p|p|]; [| |lia];
        (destruct p as [p|p|]; [| |lia]);
        (destruct p as [p|p|]; [| |lia]);
        (destruct p as [p|p|]; lia). }
    lia. }
  unfold iso_string.
  pose proof (fields_of_two (z := MonthFromTime t + 1) ltac:(lia)) as Fmo.
  pose proof (fields_of_two (z := DateFromTime t) ltac:(lia)) as Fd.
  pose proof (fields_of_two (z := HourFromTime t) ltac:(lia)) as Fh.
  pose proof (fields_of_two (z := MinFromTime t) ltac:(lia)) as Fmi.
  pose proof (fields_of_two (z := SecFromTime t) ltac:(lia)) as Fs.
  pose proof (fields_of_three (z := msFromTime t) ltac:(lia)) as Fms.
  revert Hexact.
  generalize dependent (msFromTime t). generalize dependent (SecFromTime t).
  generalize dependent (MinFromTime t). generalize dependent (HourFromTime t).
  generalize dependent (DateFromTime t). generalize dependent (MonthFromTime t).
  generalize dependent (YearFromTime t).
  intros Y Hy M _ Fmo D _ _ Fd h _ Fh mi _ Fmi sc _ Fs ms _ Fms Hexact.
  unfold year_string.
  destruct ((0 <=? Y) && (Y <=? 9999)) eqn:Ein.
  - apply andb_true_iff in Ein. destruct Ein as [E0 E1].
    apply Z.leb_le in E0. apply Z.leb_le in E1.
    pose proof (fields_of_four (z := Y) ltac:(lia)) as Fy.
    pose proof (@parse_date_time_fields 1 _ _ _ _ _ _ _ _ Fy Fmo Fd Fh Fmi Fs Fms) as P.
    unfold field_ok in Fy. apply andb_true_iff in Fy. destruct Fy as [_ Fc].
    destruct (digits 4 Y) as [|c r] eqn:Ed; [discriminate|].
    apply andb_true_iff in Fc. destruct Fc as [Fp Fn].
    apply negb_true_iff in Fp. apply negb_true_iff in Fn.
    rewrite parse_iso_unsigned by assumption.
    rewrite P. f_equal. rewrite <- Hexact. f_equal. f_equal; lia.
  - destruct (Y <? 0) eqn:Eneg.
    + apply Z.ltb_lt in Eneg.
      pose proof (fields_of_six (z := - Y) ltac:(lia)) as Fy.
      pose proof (@parse_date_time_fields (-1) _ _ _ _ _ _ _ _ Fy Fmo Fd Fh Fmi Fs Fms) as P.
      rewrite parse_iso_minus, P. f_equal. rewrite <- Hexact. f_equal. f_equal; lia.
    + apply Z.ltb_ge in Eneg.
      pose proof (fields_of_six (z := Y) ltac:(lia)) as Fy.
      pose proof (@parse_date_time_fields 1 _ _ _ _ _ _ _ _ Fy Fmo Fd Fh Fmi Fs Fms) as P.
      rewrite parse_iso_plus, P. f_equal. rewrite <- Hexact. f_equal. f_equal; lia.
Qed.

End IsoRoundTrip.

(** ** Dates: the arithmetic of the source on whole seconds *)

Section WholeSeconds.

Local Open Scope Z_scope.

(** A whole number below 2^53 is a binary64 number: rounding keeps it. *)
Lemma round_whole (m e : Z) :
  Z.abs m < 2 ^ 53 -> Double.round m e = Double.mk m e.
Proof.
  intros H. unfold Double.round.
  assert (Hk : Z.log2 (Z.abs m) + 1 - 53 <= 0).
  { destruct (Z.eq_dec (Z.abs m) 0) as [E|E].
    - rewrite E. cbn. lia.
    - assert (Z.log2 (Z.abs m) < 53); [|lia].
      apply Z.log2_lt_pow2; lia. }
  apply Z.leb_le in Hk. now rewrite Hk.
Qed.

(** On a whole number of seconds the binary64 arithmetic of the source is
    exact, as long as the result is a date. *)
Lemma creation_time_whole (z : Z) :
  Z.abs ((z + apple_epoch) * 1000) <= maxTime ->
  creation_time_value (Double.of_Z z) = Some ((z + apple_epoch) * 1000).
Proof.
  unfold maxTime, apple_epoch. intros H.
  unfold creation_time_value, Double.of_Z, apple_epoch.
  rewrite (@round_whole z 0) by lia.
  rewrite (@round_whole 978307200 0) by (cbn; lia).
  rewrite (@round_whole 1000 0) by (cbn; lia).
  unfold Double.add. cbn [Double.mant Double.expo].
  change (Z.min 0 0) with 0. change (2 ^ (0 - 0)) with 1. rewrite !Z.mul_1_r.
  rewrite round_whole by lia.
  unfold Double.mul. cbn [Double.mant Double.expo]. change (0 + 0) with 0.
  rewrite round_whole by lia.
  unfold Double.trunc. cbn [Double.mant Double.expo].
  change (0 <=? 0) with true. cbv iota. change (2 ^ 0) with 1. rewrite Z.mul_1_r.
  unfold new_Date, maxTime. apply Z.leb_le in H. now rewrite H.
Qed.

End WholeSeconds.

(** ** Dates: the arithmetic of the source on every whole second *)

Section AllWholeSeconds.

Local Open Scope Z_scope.

(** Beyond 2^53 a whole number is rounded to 53 bits and some more binary
    places: what is left is 2^53 at least in magnitude. *)
Lemma round_large (m e : Z) :
  2 ^ 53 <= Z.abs m ->
  exists q k, Double.round m e = Double.mk q (e + k) /\ 1 <= k /\ 2 ^ 52 <= Z.abs q.
Proof.
  intros H. unfold Double.round.
  set (L := Z.log2 (Z.abs m)).
  assert (HL : 53 <= L).
  { unfold L. apply Z.log2_le_pow2; lia. }
  assert (Hspec : 2 ^ L <= Z.abs m < 2 ^ (L + 1)).
  { unfold L. pose proof (Z.log2_spec (Z.abs m)). replace (L + 1) with (Z.succ L) by lia.
    apply Z.log2_spec. lia. }
  set (k := L + 1 - 53).
  assert (Hk : 1 <= k) by (unfold k; lia).
  assert (Hleb : (k <=? 0) = false) by (apply Z.leb_gt; lia).
  rewrite Hleb.
  assert (HP : 0 < 2 ^ k) by (apply Z.pow_pos_nonneg; lia).
  assert (Hpow : 2 ^ L = 2 ^ 52 * 2 ^ k).
  { rewrite <- Z.pow_add_r by lia. f_equal. unfold k. lia. }
  assert (Hhalf : 0 < 2 ^ (k - 1)) by (apply Z.pow_pos_nonneg; lia).
  pose proof (Z.div_mod m (2 ^ k) ltac:(lia)) as Hdm.
  pose proof (Z.mod_pos_bound m (2 ^ k) HP) as Hr.
  set (q := m / 2 ^ k) in *. set (r := m mod 2 ^ k) in *.
  set (P := 2 ^ k) in *. set (h := 2 ^ (k - 1)) in *.
  change (2 ^ 52) with 4503599627370496 in *.
  assert (Hq : 4503599627370496 <= q \/ q <= - 4503599627370496).
  { destruct (Z.abs_spec m) as [[Hm Ha]|[Hm Ha]]; rewrite Ha in Hspec.
    - left. nia.
    - right. nia. }
  destruct ((h <? r) || ((r =? h) && Z.odd q)) eqn:Eup.
  - exists (q + 1), k. split; [reflexivity|]. split; [exact Hk|].
    destruct Hq as [Hq|Hq]; [lia|].
    assert (Hne : q <> - 4503599627370496).
    { intros ->. assert (r = 0) by (destruct (Z.abs_spec m) as [[Hm Ha]|[Hm Ha]];
                                     rewrite Ha in Hspec; nia).
      subst r. apply orb_true_iff in Eup. destruct Eup as [E|E].
      - apply Z.ltb_lt in E. lia.
      - apply andb_true_iff in E. destruct E as [E _]. apply Z.eqb_eq in E. lia. }
    lia.
  - exists q, k. split; [reflexivity|]. split; [exact Hk|]. lia.
Qed.

(** A number so rounded is not a date. *)
Lemma large_is_no_date (q e : Z) :
  1 <= e -> 2 ^ 52 <= Z.abs q -> new_Date (Double.trunc (Double.mk q e)) = None.
Proof.
  intros He Hq. unfold Double.trunc. cbn [Double.mant Double.expo].
  assert (Hle : (0 <=? e) = true) by (apply Z.leb_le; lia). rewrite Hle.
  assert (HP : 2 <= 2 ^ e).
  { change 2 with (2 ^ 1) at 1. apply Z.pow_le_mono_r; lia. }
  unfold new_Date, maxTime. change (2 ^ 52) with 4503599627370496 in Hq.
  assert (Hgt : 8640000000000000 < Z.abs (q * 2 ^ e)).
  { rewrite Z.abs_mul. rewrite (Z.abs_eq (2 ^ e)) by lia. nia. }
  apply Z.leb_gt in Hgt. now rewrite Hgt.
Qed.

(** Times 1000, a number of 2^53 - 978307200 at least is not a date. *)
Lemma product_is_no_date (m e : Z) :
  0 <= e -> 2 ^ 53 - 978307200 <= Z.abs m ->
  new_Date (Double.trunc (Double.mul (Double.round m e) (Double.mk 1000 0))) = None.
Proof.
  intros He Hm. change (2 ^ 53) with 9007199254740992 in Hm.
  destruct (Z_lt_le_dec (Z.abs m) (2 ^ 53)) as [Hs|Hl].
  - rewrite round_whole by exact Hs. unfold Double.mul. cbn [Double.mant Double.expo].
    destruct (@round_large (m * 1000) (e + 0)) as (q & k & -> & Hk & Hq).
    { change (2 ^ 53) with 9007199254740992. rewrite Z.abs_mul. cbn. lia. }
    apply large_is_no_date; lia.
  - destruct (@round_large m e Hl) as (q & k & -> & Hk & Hq).
    unfold Double.mul. cbn [Double.mant Double.expo].
    destruct (@round_large (q * 1000) (e + k + 0)) as (q' & k' & -> & Hk' & Hq').
    { change (2 ^ 53) with 9007199254740992. change (2 ^ 52) with 4503599627370496 in Hq.
      rewrite Z.abs_mul. cbn. lia. }
    apply large_is_no_date; lia.
Qed.

(** On every whole number of seconds, the time value that the binary64
    arithmetic of the source arrives at is the one of exact arithmetic:
    the same millisecond, or no date at all. *)
Lemma creation_time_exact (z : Z) :
  creation_time_value (Double.of_Z z) = new_Date ((z + apple_epoch) * 1000).
Proof.
  destruct (Z_le_gt_dec (Z.abs ((z + apple_epoch) * 1000)) maxTime) as [Hin|Hout].
  { rewrite creation_time_whole by exact Hin.
    unfold new_Date. apply Z.leb_le in Hin. now rewrite Hin. }
  assert (Hnone : new_Date ((z + apple_epoch) * 1000) = None).
  { unfold new_Date. assert (H : maxTime < Z.abs ((z + apple_epoch) * 1000)) by lia.
    apply Z.leb_gt in H. now rewrite H. }
  rewrite Hnone. unfold maxTime, apple_epoch in Hout.
  unfold creation_time_value, Double.of_Z, apple_epoch.
  rewrite (@round_whole 978307200 0) by (cbn; lia).
  rewrite (@round_whole 1000 0) by (cbn; lia).
  destruct (Z_lt_le_dec (Z.abs z) (2 ^ 53)) as [Hs|Hl].
  - rewrite (@round_whole z 0) by exact Hs.
    unfold Double.add. cbn [Double.mant Double.expo].
    change (Z.min 0 0) with 0. change (2 ^ (0 - 0)) with 1. rewrite !Z.mul_1_r.
    destruct (Z_lt_le_dec (Z.abs (z + 978307200)) (2 ^ 53)) as [Hs1|Hl1].
    + rewrite round_whole by exact Hs1. unfold Double.mul. cbn [Double.mant Double.expo].
      change (0 + 0) with 0.
      destruct (Z_lt_le_dec (Z.abs ((z + 978307200) * 1000)) (2 ^ 53)) as [Hs2|Hl2].
      * rewrite round_whole by exact Hs2. unfold Double.trunc.
        cbn [Double.mant Double.expo]. change (0 <=? 0) with true. cbv iota.
        change (2 ^ 0) with 1. rewrite Z.mul_1_r. exact Hnone.
      * destruct (@round_large ((z + 978307200) * 1000) 0 Hl2) as (q & k & -> & Hk & Hq).
        apply large_is_no_date; lia.
    + apply product_is_no_date; [lia|]. change (2 ^ 53) with 9007199254740992 in *. lia.
  - destruct (@round_large z 0 Hl) as (q & k & -> & Hk & Hq).
    unfold Double.add. cbn [Double.mant Double.expo].
    assert (Hmin : Z.min (0 + k) 0 = 0) by lia. rewrite Hmin.
    change (2 ^ (0 - 0)) with 1. rewrite Z.mul_1_r.
    apply product_is_no_date; [lia|].
    replace (0 + k - 0) with k by lia.
    assert (HP : 2 <= 2 ^ k).
    { change 2 with (2 ^ 1) at 1. apply Z.pow_le_mono_r; lia. }
    change (2 ^ 53) with 9007199254740992. change (2 ^ 52) with 4503599627370496 in Hq.
    assert (Hbig : 9007199254740992 <= Z.abs (q * 2 ^ k)).
    { rewrite Z.abs_mul. rewrite (Z.abs_eq (2 ^ k)) by lia. nia. }
    lia.
Qed.

End AllWholeSeconds.

(** ** LIKE with the pattern [%fragment%] *)

Section Like.

Lemma like_percent_step (p s : list ascii) :
  like_chars (percent :: p) s =
  like_chars p s ||
  match s with
  | [] => false
  | _ :: s' => like_chars (percent :: p) s'
  end.
Proof.
  destruct s; reflexivity.
Qed.

Lemma like_char_step (c : ascii) (p s : list ascii) :
  wildcard c = false ->
  like_chars (c :: p) s =
  match s with
  | [] => false
  | d :: s' => eq_nocase c d && like_chars p s'
  end.
Proof.
  unfold wildcard. intros H.
  apply orb_false_iff in H. destruct H as [Hp Hu].
  cbn [like_chars]. rewrite Hp, Hu. reflexivity.
Qed.

Lemma like_trailing_percent (s : list ascii) :
  like_chars [percent] s = true.
Proof.
  induction s as [|a s IH].
  - reflexivity.
  - rewrite like_percent_step, IH. apply orb_true_r.
Qed.

Lemma like_prefix (f s : list ascii) :
  wildcard_free f = true ->
  like_chars (f ++ [percent]) s = prefix_chars eq_nocase f s.
Proof.
  revert s. induction f as [|c f IH]; intros s Hf.
  - apply like_trailing_percent.
  - cbn [wildcard_free forallb] in Hf. apply andb_true_iff in Hf.
    destruct Hf as [Hc Hf]. apply negb_true_iff in Hc.
    cbn [app]. rewrite like_char_step by exact Hc.
    destruct s as [|d s]; [reflexivity|].
    cbn [prefix_chars]. now rewrite IH.
Qed.

Lemma like_contains_chars (f s : list ascii) :
  wildcard_free f = true ->
  like_chars (percent :: f ++ [percent]) s = contains_chars eq_nocase f s.
Proof.
  intros Hf. induction s as [|a s IH].
  - rewrite like_percent_step, like_prefix by exact Hf. reflexivity.
  - rewrite like_percent_step, like_prefix, IH by exact Hf. reflexivity.
Qed.

Lemma list_ascii_of_string_app (a b : string) :
  list_ascii_of_string (a ++ b) = (list_ascii_of_string a ++ list_ascii_of_string b)%list.
Proof.
  induction a as [|c a IH]; cbn; [reflexivity|now rewrite IH].
Qed.

(** With a fragment free of wildcards, [text LIKE '%fragment%'] tests that
    the text contains the fragment up to the case of ASCII letters. *)
Lemma like_contains_nocase (fragment text : string) :
  wildcard_free (list_ascii_of_string fragment) = true ->
  like ("%" ++ fragment ++ "%") text = contains_nocase fragment text.
Proof.
  intros Hf. unfold like, contains_nocase.
  rewrite list_ascii_of_string_app, list_ascii_of_string_app.
  apply like_contains_chars. exact Hf.
Qed.

(** What [contains_chars] computes: a split of the text around a copy of
    the fragment. *)
Lemma prefix_chars_split (eq : ascii -> ascii -> bool) (f s : list ascii) :
  prefix_chars eq f s = true <->
  exists m post, s = (m ++ post)%list /\ Forall2 (fun c d => eq c d = true) f m.
Proof.
  revert s. induction f as [|c f IH]; intros s.
  - split; [intros _; exists [], s; split; [reflexivity|constructor]|reflexivity].
  - destruct s as [|d s]; cbn [prefix_chars].
    + split; [discriminate|].
      intros (m & post & Hs & Hm). inversion Hm; subst. discriminate.
    + rewrite andb_true_iff, IH. split.
      * intros (Hcd & m & post & Hs & Hm). exists (d :: m), post.
        split; [now rewrite Hs|now constructor].
      * intros (m & post & Hs & Hm). inversion Hm; subst.
        cbn in Hs. inversion Hs; subst. split; [assumption|]. eauto.
Qed.

Lemma contains_chars_split (eq : ascii -> ascii -> bool) (f s : list ascii) :
  contains_chars eq f s = true <->
  exists pre m post,
    s = (pre ++ m ++ post)%list /\ Forall2 (fun c d => eq c d = true) f m.
Proof.
  induction s as [|a s IH]; cbn [contains_chars]; rewrite orb_true_iff.
  - split.
    + intros [H|H]; [|discriminate].
      apply prefix_chars_split in H. destruct H as (m & post & Hs & Hm).
      exists [], m, post. now split.
    + intros (pre & m & post & Hs & Hm). left.
      apply prefix_chars_split.
      destruct pre; [|discriminate]. exists m, post. now split.
  - rewrite IH, prefix_chars_split. split.
    + intros [(m & post & Hs & Hm)|(pre & m & post & Hs & Hm)].
      * exists [], m, post. now split.
      * exists (a :: pre), m, post. split; [now rewrite Hs|assumption].
    + intros (pre & m & post & Hs & Hm). destruct pre as [|b pre].
      * left. exists m, post. now split.
      * right. cbn in Hs. inversion Hs; subst. exists pre, m, post. now split.
Qed.

End Like.


(** ** ORDER BY ... DESC LIMIT 10 *)

Section Ordering.

Lemma date_ltb_irrefl (a : option Z) : date_ltb a a = false.
Proof.
  destruct a as [x|]; cbn; [apply Z.ltb_irrefl|reflexivity].
Qed.

Lemma date_leb_trans (a b c : option Z) :
  date_leb a b = true -> date_leb b c = true -> date_leb a c = true.
Proof.
  unfold date_leb.
  destruct a as [x|], b as [y|], c as [z|]; cbn; try reflexivity; try discriminate.
  rewrite !negb_true_iff, !Z.ltb_ge. lia.
Qed.

Lemma date_ltb_leb (a b : option Z) :
  date_ltb a b = true -> date_leb a b = true.
Proof.
  unfold date_leb.
  destruct a as [x|], b as [y|]; cbn; try reflexivity; try discriminate.
  rewrite negb_true_iff, Z.ltb_lt, Z.ltb_ge. lia.
Qed.

Lemma insert_desc_perm (n : ZSFNOTE.row) (l : list ZSFNOTE.row) :
  Permutation (insert_desc n l) (n :: l).
Proof.
  induction l as [|h t IH]; cbn; [reflexivity|].
  destruct (date_ltb _ _); [|reflexivity].
  rewrite IH. apply perm_swap.
Qed.

Lemma order_by_perm (l : list ZSFNOTE.row) :
  Permutation (order_by_modification_desc l) l.
Proof.
  induction l as [|h t IH]; cbn; [reflexivity|].
  rewrite insert_desc_perm. now constructor.
Qed.

Lemma insert_desc_sorted (n : ZSFNOTE.row) (l : list ZSFNOTE.row) :
  StronglySorted not_older l -> StronglySorted not_older (insert_desc n l).
Proof.
  induction 1 as [|h t Ht IH Hh]; cbn.
  - repeat constructor.
  - destruct (date_ltb (ZSFNOTE.ZMODIFICATIONDATE n) (ZSFNOTE.ZMODIFICATIONDATE h)) eqn:E.
    + constructor; [assumption|].
      apply (Permutation_Forall (Permutation_sym (insert_desc_perm n t))).
      constructor; [|assumption].
      unfold not_older. now apply date_ltb_leb.
    + assert (Hn : not_older n h).
      { unfold not_older, date_leb. now rewrite E. }
      constructor; [now constructor|].
      constructor; [assumption|].
      eapply Forall_impl; [|exact Hh].
      intros x Hx. unfold not_older in *. eapply date_leb_trans; eassumption.
Qed.

Lemma order_by_sorted (l : list ZSFNOTE.row) :
  StronglySorted not_older (order_by_modification_desc l).
Proof.
  induction l as [|h t IH]; cbn; [constructor|now apply insert_desc_sorted].
Qed.

Lemma sorted_firstn (k : nat) (l : list ZSFNOTE.row) :
  StronglySorted not_older l -> StronglySorted not_older (firstn k l).
Proof.
  intros H. revert k. induction H as [|h t Ht IH Hh]; intros [|k]; cbn;
    try constructor.
  - apply IH.
  - rewrite Forall_forall in *. intros x Hx. apply Hh.
    rewrite <- (firstn_skipn k t). apply in_or_app. now left.
Qed.

(** What a LIMIT leaves out is no newer than what it keeps. *)
Lemma sorted_cut (k : nat) (l : list ZSFNOTE.row) :
  StronglySorted not_older l ->
  forall x y, In x (firstn k l) -> In y (skipn k l) -> not_older x y.
Proof.
  intros H. revert k. induction H as [|h t Ht IH Hh]; intros k x y Hx Hy.
  - rewrite firstn_nil in Hx. contradiction.
  - destruct k as [|k]; [contradiction|].
    cbn in Hx, Hy. destruct Hx as [<-|Hx].
    + rewrite Forall_forall in Hh. apply Hh.
      rewrite <- (firstn_skipn k t). apply in_or_app. now right.
    + now apply (IH k).
Qed.

(** The rows of the first statement come newest first, and a matching
    row that LIMIT cut off is no newer than any row kept. *)
Lemma select_notes_sorted (d : Db) (pattern : string) :
  StronglySorted not_older (select_notes d pattern).
Proof.
  apply sorted_firstn, order_by_sorted.
Qed.

Lemma select_notes_cut (d : Db) (pattern : string) (x y : ZSFNOTE.row) :
  In x (select_notes d pattern) ->
  In y (Sqlite.notes d) -> where_notes pattern y = true ->
  In y (select_notes d pattern) \/ not_older x y.
Proof.
  unfold select_notes. intros Hx Hy Hw.
  assert (Hin : In y (order_by_modification_desc
                        (filter (where_notes pattern) (Sqlite.notes d)))).
  { apply (Permutation_in _ (Permutation_sym (order_by_perm _))).
    apply filter_In. now split. }
  rewrite <- (firstn_skipn 10) in Hin. apply in_app_or in Hin.
  destruct Hin as [Hin|Hin]; [now left|right].
  eapply sorted_cut; [apply order_by_sorted|eassumption|eassumption].
Qed.

End Ordering.

(** ** The handler of find_note_by_partial_id *)

Section FindByPartial.

Lemma for_each_ok {A B} (f : A -> res B) (P : A -> B -> Prop) (l : list A) :
  (forall a, In a l -> exists b, f a = Ok b /\ P a b) ->
  exists bs, for_each f l = Ok bs /\ Forall2 P l bs.
Proof.
  induction l as [|a l IH]; intros H.
  - exists []. split; [reflexivity|constructor].
  - destruct (H a (or_introl eq_refl)) as (b & Hb & Pb).
    destruct IH as (bs & Hbs & Pbs); [intros; apply H; now right|].
    exists (b :: bs). cbn. rewrite Hb, Hbs. split; [reflexivity|now constructor].
Qed.

Lemma for_each_inv {A B} (f : A -> res B) (l : list A) (bs : list B) :
  for_each f l = Ok bs -> Forall2 (fun a b => f a = Ok b) l bs.
Proof.
  revert bs. induction l as [|a l IH]; intros bs; cbn.
  - intros [= <-]. constructor.
  - destruct (f a) as [b|e] eqn:Ea; [|discriminate].
    destruct (for_each f l) as [bs'|e]; [|discriminate].
    intros [= <-]. constructor; [assumption|now apply IH].
Qed.

Lemma for_each_length {A B} (f : A -> res B) (l : list A) (bs : list B) :
  for_each f l = Ok bs -> List.length bs = List.length l.
Proof.
  intros H. apply for_each_inv in H. symmetry. eapply Forall2_length; eassumption.
Qed.

Lemma convert_convertible (c : option Z) :
  convertible c = true -> exists v, convert_creation_date c = Ok v.
Proof.
  destruct c as [z|]; cbn; [|eauto].
  intros H. unfold convert_creation_date. cbn [of_int truthy].
  destruct (negb (z =? 0)%Z); [|eauto].
  unfold new_Date. rewrite H. cbn. eauto.
Qed.

Lemma annotate_annotated (d : Db) (r : ZSFNOTE.row) (n : note) :
  annotate d r = Ok n -> annotated d r n.
Proof.
  unfold annotate.
  destruct (convert_creation_date _) as [v|e]; [|discriminate].
  intros [= <-]. unfold annotated. cbn. repeat split.
  intros Hf. unfold lookup_tags, allAsync_tags. now rewrite Hf.
Qed.

Lemma annotate_convertible (d : Db) (r : ZSFNOTE.row) :
  convertible (ZSFNOTE.ZCREATIONDATE r) = true ->
  exists n, annotate d r = Ok n /\ annotated d r n.
Proof.
  intros H. destruct (convert_convertible _ H) as (v & Hv).
  unfold annotate. rewrite Hv. eexists. split; [reflexivity|].
  apply annotate_annotated. unfold annotate. now rewrite Hv.
Qed.

Lemma annotate_renders (d : Db) (r : ZSFNOTE.row) (n : note) :
  annotate d r = Ok n -> has_text r = true ->
  exists block, render_partial n = Ok block.
Proof.
  unfold annotate, has_text.
  destruct (convert_creation_date _) as [v|e]; [|discriminate].
  intros [= <-]. destruct (ZSFNOTE.ZTEXT r) as [c|]; [|discriminate].
  intros _. unfold render_partial. cbn. eauto.
Qed.

(** The answer of the handler is the text built from the notes in hand. *)
Lemma find_handler_answer (U : Type) (s : server) (a : arguments) (u : U) :
  find_note_by_partial_id s (Some a) u =
  (Ok (text_response (partial_answer (db s) (partial_id a))), u).
Proof.
  unfold find_note_by_partial_id, partial_answer, find_notes, try_catch, bind, lift, ret.
  destruct (allAsync_notes (db s) (like_pattern (partial_id a))) as [rows|e];
    [|reflexivity].
  destruct rows as [|r rows]; [reflexivity|].
  cbn [List.length Nat.eqb].
  destruct (for_each (annotate (db s)) (r :: rows)) as [notes|e] eqn:E; [|reflexivity].
  pose proof (for_each_length _ _ E) as L.
  destruct notes as [|n notes]; [discriminate|].
  destruct (partial_text (partial_id a) (n :: notes)); reflexivity.
Qed.

(** With a fragment free of wildcards the WHERE clause is the filter of
    the contract. *)
Lemma where_notes_matches (fragment : string) (n : ZSFNOTE.row) :
  wildcard_free (list_ascii_of_string fragment) = true ->
  where_notes ("%" ++ fragment ++ "%") n = matches_fragment fragment n.
Proof.
  intros Hf. unfold where_notes, matches_fragment, sql_like, text_contains_nocase.
  destruct (ZSFNOTE.ZTRASHED n) as [t|]; cbn [sql_eq_int];
    destruct (ZSFNOTE.ZUNIQUEIDENTIFIER n) as [i|], (ZSFNOTE.ZTITLE n) as [t'|];
    cbn [option_map];
    rewrite ?like_contains_nocase by exact Hf;
    repeat match goal with
           | |- context [(?x =? ?y)%Z] => destruct (x =? y)%Z
           | |- context [contains_nocase ?f ?x] => destruct (contains_nocase f x)
           end; reflexivity.
Qed.

Lemma call_find (U : Type) (utils : Utils.module U) (s : server) (a : arguments) (u : U) :
  call_tool utils s (mkRequest "find_note_by_partial_id" (Some a)) u =
  (Ok (text_response (partial_answer (db s) (partial_id a))), u).
Proof.
  unfold call_tool. cbn [name String.eqb Ascii.eqb Bool.eqb andb args].
  destruct (hasSemanticSearch s); apply find_handler_answer.
Qed.


(** The tags a note is given: those joined to its identifier, or none
    when the lookup is failed. *)
Lemma lookup_tags_cases (d : Db) (r : ZSFNOTE.row) :
  lookup_tags d r =
  match fault d (SelectTags (ZSFNOTE.ZUNIQUEIDENTIFIER r)) with
  | Some _ => []
  | None => map of_text (select_tags d (ZSFNOTE.ZUNIQUEIDENTIFIER r))
  end.
Proof.
  unfold lookup_tags, allAsync_tags.
  destruct (fault d (SelectTags (ZSFNOTE.ZUNIQUEIDENTIFIER r))); reflexivity.
Qed.

End FindByPartial.

(** ** The answer of find_note_by_partial_id, row by row *)

Section Listing.

(** The block of the answer for one selected row: its title, identifier,
    body cut at 200 code units, and the tags it is given. *)
Lemma annotate_block (d : Db) (r : ZSFNOTE.row) (n : note) :
  annotate d r = Ok n -> has_text r = true ->
  render_partial n =
  Ok ("**" ++ toString (of_text (ZSFNOTE.ZTITLE r)) ++ "**" ++ nl ++ "Full ID: " ++
      toString (of_text (ZSFNOTE.ZUNIQUEIDENTIFIER r)) ++ nl ++
      substring0 200 (toString (of_text (ZSFNOTE.ZTEXT r))) ++ "..." ++ nl ++
      "*Tags: " ++ join ", " (lookup_tags d r) ++ "*" ++ nl).
Proof.
  unfold annotate, has_text.
  destruct (convert_creation_date _) as [v|e]; [|discriminate].
  intros [= <-]. destruct (ZSFNOTE.ZTEXT r) as [c|]; [|discriminate].
  intros _. reflexivity.
Qed.

Lemma for_each_blocks {A B C} (f : A -> res B) (g : B -> res C) (h : A -> C) (l : list A) :
  forall bs,
    for_each f l = Ok bs ->
    (forall a b, In a l -> f a = Ok b -> g b = Ok (h a)) ->
    for_each g bs = Ok (map h l).
Proof.
  induction l as [|a l IH]; intros bs; cbn [for_each].
  - intros [= <-] _. reflexivity.
  - destruct (f a) as [b|e] eqn:Ea; [|discriminate].
    destruct (for_each f l) as [bs'|e] eqn:El; [|discriminate].
    intros [= <-] H. cbn [for_each map].
    rewrite (H a b (or_introl eq_refl) Ea).
    rewrite (IH bs' eq_refl); [reflexivity|].
    intros a' b' Ha'. apply H. now right.
Qed.

(** The answer of find_note_by_partial_id when the store answers, the
    dates of the selected rows are valid and their bodies are texts: the
    rows in their order, a block each. *)
Lemma partial_answer_listing (d : Db) (partial_id : jsval) :
  fault d (SelectNotes (like_pattern partial_id)) = None ->
  select_notes d (like_pattern partial_id) <> [] ->
  forallb (fun r => convertible (ZSFNOTE.ZCREATIONDATE r))
          (select_notes d (like_pattern partial_id)) = true ->
  forallb has_text (select_notes d (like_pattern partial_id)) = true ->
  partial_answer d partial_id =
  "Found " ++ nat_to_string (List.length (select_notes d (like_pattern partial_id))) ++
  " notes matching " ++ dq ++ toString partial_id ++ dq ++ ":" ++ nl ++ nl ++
  join_strings nl
    (map (fun r =>
            "**" ++ toString (of_text (ZSFNOTE.ZTITLE r)) ++ "**" ++ nl ++ "Full ID: " ++
            toString (of_text (ZSFNOTE.ZUNIQUEIDENTIFIER r)) ++ nl ++
            substring0 200 (toString (of_text (ZSFNOTE.ZTEXT r))) ++ "..." ++ nl ++
            "*Tags: " ++ join ", " (lookup_tags d r) ++ "*" ++ nl)
         (select_notes d (like_pattern partial_id))).
Proof.
  intros Hq Hne Hc Ht.
  rewrite forallb_forall in Hc. rewrite forallb_forall in Ht.
  unfold partial_answer, find_notes, allAsync_notes. rewrite Hq.
  destruct (@for_each_ok _ _ (annotate d) (fun r n => annotate d r = Ok n)
              (select_notes d (like_pattern partial_id))) as (ns & Hns & _).
  { intros r Hr. destruct (@annotate_convertible d r (Hc r Hr)) as (n & Hn & _). eauto. }
  rewrite Hns.
  pose proof (for_each_length _ _ Hns) as L.
  pose proof (@for_each_blocks _ _ _ (annotate d) render_partial _ _ _ Hns
                (fun r n Hr Hn => annotate_block _ _ Hn (Ht r Hr))) as Hb.
  destruct ns as [|n ns].
  - destruct (select_notes d (like_pattern partial_id)); [contradiction|discriminate].
  - unfold partial_text. rewrite Hb, L. reflexivity.
Qed.

End Listing.

(** ** Which rows the statements and the engine draw on *)

Section Visible.

Lemma holds_eq_int (a b : option Z) :
  holds (sql_eq_int a b) = true -> exists x, a = Some x /\ b = Some x.
Proof.
  destruct a as [x|], b as [y|]; cbn; try discriminate.
  destruct (x =? y)%Z eqn:E; [|discriminate].
  apply Z.eqb_eq in E. subst. eauto.
Qed.

Lemma holds_eq_zero (a : option Z) :
  holds (sql_eq_int a (Some 0%Z)) = true -> a = Some 0%Z.
Proof.
  intros H. apply holds_eq_int in H. destruct H as (x & -> & [= <-]). reflexivity.
Qed.

Lemma where_notes_not_trashed (pattern : string) (n : ZSFNOTE.row) :
  where_notes pattern n = true -> ZSFNOTE.ZTRASHED n = Some 0%Z.
Proof.
  unfold where_notes. intros H. apply holds_eq_zero.
  destruct (sql_eq_int (ZSFNOTE.ZTRASHED n) (Some 0%Z)) as [[|]|];
    [reflexivity|discriminate|].
  destruct (sql_or _ _) as [[|]|]; discriminate.
Qed.

Lemma In_firstn {A} (k : nat) (l : list A) (x : A) :
  In x (firstn k l) -> In x l.
Proof.
  intros H. rewrite <- (firstn_skipn k l). apply in_or_app. now left.
Qed.

Lemma In_order_by (l : list ZSFNOTE.row) (x : ZSFNOTE.row) :
  In x (order_by_modification_desc l) -> In x l.
Proof.
  apply Permutation_in, order_by_perm.
Qed.

Lemma select_notes_In (d : Db) (pattern : string) (r : ZSFNOTE.row) :
  In r (select_notes d pattern) ->
  In r (Sqlite.notes d) /\ where_notes pattern r = true.
Proof.
  unfold select_notes. intros H.
  apply In_firstn, In_order_by, filter_In in H. exact H.
Qed.

Lemma findById_visible (d : Db) (i : string) (r : ZSFNOTE.row) :
  Spec.findById d i = Some r ->
  In r (Sqlite.notes d) /\ ZSFNOTE.ZTRASHED r = Some 0%Z.
Proof.
  unfold Spec.findById. intros H. apply find_some in H.
  destruct H as [Hin H]. apply andb_true_iff in H. destruct H as [Hv _].
  split; [assumption|]. now apply holds_eq_zero.
Qed.

End Visible.

(** ** A failed lookup of tags *)

Section TagFaults.

(** A join that links no existing tag to a note of that identifier gives
    no tag. *)
Lemma select_tags_unlinked (d : Db) (i : option string) :
  (forall j t n,
     In j (note_tags d) -> In t (Sqlite.tags d) -> In n (Sqlite.notes d) ->
     Z_5TAGS.Z_13TAGS j = Some (ZSFNOTETAG.Z_PK t) ->
     Z_5TAGS.Z_5NOTES j = Some (ZSFNOTE.Z_PK n) ->
     ZSFNOTE.ZUNIQUEIDENTIFIER n <> i \/ i = None) ->
  select_tags d i = [].
Proof.
  intros H. unfold select_tags.
  destruct (flat_map _ (note_tags d)) as [|x l] eqn:E; [reflexivity|exfalso].
  assert (Hx : In x (x :: l)) by now left. rewrite <- E in Hx. clear E.
  apply in_flat_map in Hx. destruct Hx as (j & Hj & Hx).
  apply in_flat_map in Hx. destruct Hx as (t & Ht & Hx).
  destruct (holds (sql_eq_int _ (Z_5TAGS.Z_13TAGS j))) eqn:E13; [|contradiction].
  apply in_flat_map in Hx. destruct Hx as (n & Hn & Hx).
  destruct (holds (sql_eq_int _ (Z_5TAGS.Z_5NOTES j)) && _) eqn:E5; [|contradiction].
  apply andb_true_iff in E5. destruct E5 as [E5 Eid].
  apply holds_eq_int in E13. destruct E13 as (a & [= <-] & E13).
  apply holds_eq_int in E5. destruct E5 as (b & [= <-] & E5).
  destruct (H j t n Hj Ht Hn E13 E5) as [Hne|Hnone].
  - destruct (ZSFNOTE.ZUNIQUEIDENTIFIER n) as [a|], i as [b|]; cbn in Eid;
      try discriminate.
    destruct (String.eqb a b) eqn:Eab; [|discriminate].
    apply String.eqb_eq in Eab. congruence.
  - subst i. destruct (ZSFNOTE.ZUNIQUEIDENTIFIER n); discriminate.
Qed.

End TagFaults.

(** ** The two strategies of search_notes *)

Section Search.

Variable vector : Type.
Variable embed : string -> option vector.
Variable similarity : vector -> vector -> Q.

Lemma insert_ranked_perm (a : Spec.entry vector * Q) (l : list (Spec.entry vector * Q)) :
  Permutation (Spec.insert_ranked a l) (a :: l).
Proof.
  induction l as [|h t IH]; cbn; [reflexivity|].
  destruct (Spec.ranks_before h a); [|reflexivity].
  rewrite IH. apply perm_swap.
Qed.

Lemma ranked_perm (l : list (Spec.entry vector * Q)) :
  Permutation (fold_right (@Spec.insert_ranked vector) [] l) l.
Proof.
  induction l as [|h t IH]; cbn; [reflexivity|].
  rewrite insert_ranked_perm. now constructor.
Qed.

(** A hit of [query] is an entry of the index with its similarity to the
    query vector, and there are at most [k] hits. *)
Lemma query_index_hit (ix : Spec.VectorIndex vector) (qv : vector) (k : nat)
      (hit : Spec.entry vector * Q) :
  In hit (Spec.query_index similarity ix qv k) ->
  In (fst hit) (Spec.entries ix) /\
  snd hit = similarity qv (Spec.entry_vector (fst hit)).
Proof.
  unfold Spec.query_index. intros H.
  apply In_firstn in H. apply (Permutation_in _ (ranked_perm _)) in H.
  apply in_map_iff in H. destruct H as (e & <- & He). cbn. split; [assumption|reflexivity].
Qed.

Lemma flat_map_at_most_one {A B} (f : A -> list B) (l : list A) :
  (forall a, (List.length (f a) <= 1)%nat) ->
  (List.length (flat_map f l) <= List.length l)%nat.
Proof.
  intros H. induction l as [|a l IH]; cbn; [lia|].
  rewrite length_app. specialize (H a). lia.
Qed.

(** The semantic path returns at most [k] notes. *)
Lemma semantic_path_length (d : Db) (query : string) (k : nat)
      (st : Spec.state vector) (notes : list note) :
  Spec.semantic_path embed similarity d query k st = Ok notes ->
  (List.length notes <= k)%nat.
Proof.
  unfold Spec.semantic_path.
  destruct (Spec.provider_ready st); [|discriminate].
  destruct (Spec.active st) as [ix|]; [|discriminate].
  destruct (embed query) as [qv|]; [|discriminate].
  intros [= <-].
  etransitivity; [apply flat_map_at_most_one|apply firstn_le_length].
  intros hit. destruct (Spec.entry_id (fst hit)); [|cbn; lia].
  destruct (Spec.findById d _); cbn; lia.
Qed.

End Search.

(** ** The entries of the semantic path *)

Section Scores.

Variable vector : Type.
Variable embed : string -> option vector.
Variable similarity : vector -> vector -> Q.

(** Every note of the semantic path is a non-trashed note of the store,
    named by an entry of the active index, and carries the similarity of
    that entry to the embedded query. *)
Lemma semantic_path_entries (d : Db) (query : string) (k : nat)
      (st : Spec.state vector) (notes : list note) :
  Spec.semantic_path embed similarity d query k st = Ok notes ->
  exists ix qv,
    Spec.provider_ready st = true /\ Spec.active st = Some ix /\
    embed query = Some qv /\
    Forall (fun n =>
              exists e r,
                In e (Spec.entries ix) /\ In r (Sqlite.notes d) /\
                ZSFNOTE.ZTRASHED r = Some 0%Z /\
                Spec.entry_id e = ZSFNOTE.ZUNIQUEIDENTIFIER r /\
                Utils.id n = of_text (ZSFNOTE.ZUNIQUEIDENTIFIER r) /\
                title n = of_text (ZSFNOTE.ZTITLE r) /\
                Utils.content n = of_text (ZSFNOTE.ZTEXT r) /\
                score n = Some (similarity qv (Spec.entry_vector e)))
           notes.
Proof.
  unfold Spec.semantic_path.
  destruct (Spec.provider_ready st); [|discriminate].
  destruct (Spec.active st) as [ix|]; [|discriminate].
  destruct (embed query) as [qv|]; [|discriminate].
  intros [= <-]. exists ix, qv. repeat split.
  apply Forall_forall. intros n Hn. apply in_flat_map in Hn.
  destruct Hn as (hit & Hhit & Hn).
  destruct (Spec.entry_id (fst hit)) as [i|] eqn:Ei; [|contradiction].
  destruct (Spec.findById d i) as [r|] eqn:Er; [|contradiction].
  destruct Hn as [<-|[]]. apply query_index_hit in Hhit. destruct Hhit as [He Hs].
  pose proof (findById_visible _ _ Er) as [Hin Htr].
  assert (Hid : ZSFNOTE.ZUNIQUEIDENTIFIER r = Some i).
  { unfold Spec.findById in Er. apply find_some in Er. destruct Er as [_ Er].
    apply andb_true_iff in Er. destruct Er as [_ Er]. unfold Spec.has_id in Er.
    destruct (ZSFNOTE.ZUNIQUEIDENTIFIER r) as [x|]; cbn in Er; [|discriminate].
    destruct (String.eqb x i) eqn:Ex; [|discriminate].
    apply String.eqb_eq in Ex. now subst. }
  exists (fst hit), r. cbn [Utils.id title Utils.content score Spec.to_note].
  rewrite Ei, Hid. repeat split; try assumption. f_equal. exact Hs.
Qed.

Lemma semantic_path_fails (d : Db) (query : string) (k : nat)
      (st : Spec.state vector) (e : error) :
  Spec.semantic_path embed similarity d query k st = Throw e ->
  Spec.provider_ready st = false \/ Spec.active st = None \/ embed query = None.
Proof.
  unfold Spec.semantic_path.
  destruct (Spec.provider_ready st); [|auto].
  destruct (Spec.active st) as [ix|]; [|auto].
  destruct (embed query) as [qv|]; [discriminate|auto].
Qed.

End Scores.

(** ** The life of the process *)

Section Process.

Variable U : Type.
Variable utils : Utils.module U.

Lemma initialize_inv (u : U) (s : server) (u' : U) :
  initialize utils u = (Ok s, u') ->
  exists dbPath u1 u2 modelInitialized u3 indexLoaded,
    getDbPath utils u = (Ok dbPath, u1) /\
    createDb utils dbPath u1 = (Ok (db s), u2) /\
    initEmbedder utils u2 = (Ok modelInitialized, u3) /\
    loadVectorIndex utils u3 = (Ok indexLoaded, u') /\
    hasSemanticSearch s = modelInitialized && indexLoaded.
Proof.
  unfold initialize, bind, ret.
  destruct (getDbPath utils u) as [[dbPath|e] u1] eqn:E1; [|discriminate].
  destruct (createDb utils dbPath u1) as [[d|e] u2] eqn:E2; [|discriminate].
  destruct (initEmbedder utils u2) as [[m|e] u3] eqn:E3; [|discriminate].
  destruct (loadVectorIndex utils u3) as [[i|e] u4] eqn:E4; [|discriminate].
  intros [= <- <-]. exists dbPath, u1, u2, m, u3, i. cbn. auto.
Qed.

(** A tool call leaves the server, and with it the availability of
    semantic search, as they were. *)
Lemma call_keeps_server (s : server) (u : U) (request : request)
      (outcome : res response) (c : phase * U) :
  main_step utils (Serving s, u) (CallTool request outcome) c ->
  exists u', c = (Serving s, u') /\ call_tool utils s request u = (outcome, u').
Proof.
  intros H. inversion H; subst. eauto.
Qed.

End Process.

(** ** Runs of the process *)

Section Runs.

Variable U : Type.
Variable utils : Utils.module U.

(** Nothing happens once the process has ended. *)
Lemma run_ended (c : phase * U) (events : list event) (c' : phase * U) :
  main_run utils c events c' -> ended (fst c) = true -> events = [] /\ c' = c.
Proof.
  intros H He. destruct H as [c|c e c1 es c2 Hstep Hrun]; [auto|].
  inversion Hstep; subst; discriminate.
Qed.

(** The server record of the process never changes, and it is the one
    [initialize()] resolved to. *)
Lemma step_keeps_server (c : phase * U) (e : event) (c' : phase * U) (s : server) :
  main_step utils c e c' -> server_of (fst c) = Some s ->
  server_of (fst c') = Some s \/ ended (fst c') = true.
Proof.
  intros H Hs. inversion H; subst; cbn in *; first [left; assumption | now right].
Qed.

Lemma run_keeps_the_server (c : phase * U) (events : list event) (c' : phase * U) :
  main_run utils c events c' ->
  forall s, server_of (fst c) = Some s ->
  server_of (fst c') = Some s \/ ended (fst c') = true.
Proof.
  induction 1 as [c|c e c1 es c2 Hstep Hrun IH]; intros s Hs; [now left|].
  destruct (step_keeps_server Hstep Hs) as [H1|H1].
  - exact (IH s H1).
  - destruct (run_ended Hrun H1) as [_ ->]. now right.
Qed.

Lemma run_from_start (u : U) (events : list event) (c : phase * U) :
  main_run utils (Starting, u) events c ->
  forall s, server_of (fst c) = Some s -> exists u1, initialize utils u = (Ok s, u1).
Proof.
  intros H s Hs.
  inversion H as [|? ? ? ? ? Hstep Hrun]; subst; [discriminate|].
  inversion Hstep; subst.
  - inversion Hrun as [|? ? ? ? ? Hstep2 Hrun2]; subst; [discriminate|].
    inversion Hstep2; subst.
    + exists u'.
      destruct (run_keeps_the_server Hrun2 (s := s0) eq_refl) as [Hk|Hk].
      * rewrite Hs in Hk. injection Hk as ->. assumption.
      * destruct (fst c); discriminate.
    + destruct (run_ended Hrun2 eq_refl) as [_ ->]. discriminate.
    + destruct (run_ended Hrun2 eq_refl) as [_ ->]. discriminate.
  - destruct (run_ended Hrun eq_refl) as [_ ->]. discriminate.
Qed.

End Runs.

(** ** What a call is answered with *)

Section Served.

Variable U : Type.
Variable utils : Utils.module U.

(** A call that carries arguments to a tool that is served is answered
    with a result, of one text. *)
Lemma served_call_resolves (s : server) (n : string) (a : arguments) (u : U) :
  In n (map tool_name (list_tools s)) ->
  exists t u',
    call_tool utils s (mkRequest n (Some a)) u = (Ok (mkResponse [mkItem "text" t]), u').
Proof.
  intros Hin. unfold list_tools in Hin.
  assert (Hcases : n = "search_notes" \/ n = "get_note" \/ n = "get_tags" \/
                   n = "reindex_notes" \/ n = "find_note_by_partial_id" \/
                   (n = "retrieve_for_rag" /\ hasSemanticSearch s = true)).
  { destruct (hasSemanticSearch s); cbn in Hin;
      repeat (destruct Hin as [Hin|Hin]; [symmetry in Hin; tauto|]); contradiction. }
  unfold text_response in *.
  destruct Hcases as [->|[->|[->|[->|[->|[-> Hs]]]]]].
  - change (call_tool utils s (mkRequest "search_notes" (Some a)) u)
      with (search_notes utils s (Some a) u).
    unfold search_notes, try_catch, bind, ret, text_response.
    destruct (searchNotes utils _ _ _ _ u) as [[notes|e] u']; eauto.
  - change (call_tool utils s (mkRequest "get_note" (Some a)) u)
      with (get_note utils s (Some a) u).
    unfold get_note, try_catch, bind, ret, lift, text_response.
    destruct (retrieveNote utils _ _ u) as [[note|e] u']; [|eauto].
    destruct (render_note note); eauto.
  - change (call_tool utils s (mkRequest "get_tags" (Some a)) u)
      with (get_tags utils s u).
    unfold get_tags, try_catch, bind, ret, text_response.
    destruct (getAllTags utils _ u) as [[ts|e] u']; eauto.
  - unfold call_tool. cbn [name String.eqb Ascii.eqb Bool.eqb andb args].
    destruct (hasSemanticSearch s);
      unfold reindex_notes, try_catch, bind, ret, text_response;
      destruct (createVectorIndex utils _ u) as [[result|e] u']; eauto.
  - unfold call_tool. cbn [name String.eqb Ascii.eqb Bool.eqb andb args].
    destruct (hasSemanticSearch s); rewrite find_handler_answer;
      unfold text_response; eauto.
  - unfold call_tool. cbn [name String.eqb Ascii.eqb Bool.eqb andb args].
    rewrite Hs. unfold retrieve_for_rag, try_catch, bind, ret, text_response.
    destruct (retrieveForRAG utils _ _ _ u) as [[context|e] u']; eauto.
Qed.

(** The handler rejects only a call without arguments, at the first
    property it reads, or a call of a tool that is not served; and it
    rejects before any work. *)
Lemma call_tool_rejects (s : server) (request : request) (u : U) (e : error) (u' : U) :
  call_tool utils s request u = (Throw e, u') ->
  u' = u /\
  ((args request = None /\
    exists prop, In prop ["query"; "id"; "partial_id"] /\ e = destructure_error prop) \/
   (~ In (name request) (map tool_name (list_tools s)) /\
    e = McpError MethodNotFound "Tool not found")).
Proof.
  unfold call_tool.
  destruct (String.eqb (name request) "search_notes") eqn:E1.
  { unfold search_notes. destruct (args request) as [a|].
    - unfold try_catch, bind, ret.
      destruct (searchNotes utils _ _ _ _ u) as [[notes|e'] u'']; discriminate.
    - intros [= <- <-]. split; [reflexivity|]. left. split; [reflexivity|].
      exists "query". cbn. auto. }
  destruct (String.eqb (name request) "get_note") eqn:E2.
  { unfold get_note. destruct (args request) as [a|].
    - unfold try_catch, bind, ret, lift.
      destruct (retrieveNote utils _ _ u) as [[note|e'] u'']; [|discriminate].
      destruct (render_note note); discriminate.
    - intros [= <- <-]. split; [reflexivity|]. left. split; [reflexivity|].
      exists "id". cbn. auto. }
  destruct (String.eqb (name request) "get_tags") eqn:E3.
  { unfold get_tags, try_catch, bind, ret.
    destruct (getAllTags utils _ u) as [[ts|e'] u'']; discriminate. }
  destruct (String.eqb (name request) "retrieve_for_rag" && hasSemanticSearch s) eqn:E4.
  { unfold retrieve_for_rag. destruct (args request) as [a|].
    - unfold try_catch, bind, ret.
      destruct (retrieveForRAG utils _ _ _ u) as [[context|e'] u'']; discriminate.
    - intros [= <- <-]. split; [reflexivity|]. left. split; [reflexivity|].
      exists "query". cbn. auto. }
  destruct (String.eqb (name request) "reindex_notes") eqn:E5.
  { unfold reindex_notes, try_catch, bind, ret.
    destruct (createVectorIndex utils _ u) as [[result|e'] u'']; discriminate. }
  destruct (String.eqb (name request) "find_note_by_partial_id") eqn:E6.
  { destruct (args request) as [a|].
    - rewrite find_handler_answer. discriminate.
    - intros [= <- <-]. split; [reflexivity|]. left. split; [reflexivity|].
      exists "partial_id". cbn. auto. }
  intros [= <- <-]. split; [reflexivity|]. right. split; [|reflexivity].
  apply String.eqb_neq in E1, E2, E3, E5, E6.
  unfold list_tools. intros Hin.
  destruct (hasSemanticSearch s); cbn in Hin.
  - rewrite andb_true_r in E4. apply String.eqb_neq in E4.
    repeat (destruct Hin as [Hin|Hin]; [symmetry in Hin; contradiction|]). exact Hin.
  - repeat (destruct Hin as [Hin|Hin]; [symmetry in Hin; contradiction|]). exact Hin.
Qed.

End Served.

(** ** Cosine similarity *)

Section Cosine.

Local Open Scope R_scope.

Lemma dot_self_nonneg (a : Spec.embedding) : 0 <= Spec.dot a a.
Proof.
  induction a as [|x a IH]; cbn [Spec.dot]; [lra|nra].
Qed.

(** The inequality of Cauchy and Schwarz, on the common length of the two
    vectors. *)
Lemma dot_cauchy_schwarz (a : Spec.embedding) :
  forall b, Spec.dot a b * Spec.dot a b <= Spec.dot a a * Spec.dot b b.
Proof.
  induction a as [|x a IH]; intros b.
  - cbn [Spec.dot]. lra.
  - destruct b as [|y b]; cbn [Spec.dot].
    + pose proof (dot_self_nonneg a). nra.
    + specialize (IH b).
      pose proof (dot_self_nonneg a) as HA. pose proof (dot_self_nonneg b) as HB.
      set (s := Spec.dot a b) in *. set (A := Spec.dot a a) in *.
      set (B := Spec.dot b b) in *.
      assert (H2 : 2 * (x * y * s) <= x * x * B + y * y * A).
      { assert (Hsq : (2 * (x * y * s)) * (2 * (x * y * s)) <=
                      (x * x * B + y * y * A) * (x * x * B + y * y * A)).
        { assert (H4 : (x * y) * (x * y) * (s * s) <= (x * y) * (x * y) * (A * B)).
          { apply Rmult_le_compat_l; [nra|exact IH]. }
          pose proof (Rle_0_sqr (x * x * B - y * y * A)) as Hd. unfold Rsqr in Hd.
          nra. }
        assert (Hpos : 0 <= x * x * B + y * y * A) by nra.
        destruct (Rle_or_lt (2 * (x * y * s)) (x * x * B + y * y * A)) as [Hle|Hlt];
          [exact Hle|exfalso].
        assert (0 < 2 * (x * y * s)) by lra.
        nra. }
      nra.
Qed.

Lemma magnitude_nonneg (a : Spec.embedding) : 0 <= Spec.magnitude a.
Proof.
  apply sqrt_pos.
Qed.

Lemma magnitude_sqr (a : Spec.embedding) :
  Spec.magnitude a * Spec.magnitude a = Spec.dot a a.
Proof.
  apply sqrt_sqrt, dot_self_nonneg.
Qed.

Lemma dot_le_magnitudes (a b : Spec.embedding) :
  - (Spec.magnitude a * Spec.magnitude b) <= Spec.dot a b <=
  Spec.magnitude a * Spec.magnitude b.
Proof.
  pose proof (dot_cauchy_schwarz a b) as H.
  rewrite <- (magnitude_sqr a), <- (magnitude_sqr b) in H.
  pose proof (magnitude_nonneg a) as Ha. pose proof (magnitude_nonneg b) as Hb.
  set (ma := Spec.magnitude a) in *. set (mb := Spec.magnitude b) in *.
  set (s := Spec.dot a b) in *.
  assert (Hm : 0 <= ma * mb) by nra.
  split.
  - destruct (Rle_or_lt (- (ma * mb)) s) as [Hle|Hlt]; [exact Hle|exfalso]. nra.
  - destruct (Rle_or_lt s (ma * mb)) as [Hle|Hlt]; [exact Hle|exfalso]. nra.
Qed.

(** A vector has zero magnitude exactly when all its components are 0. *)
Lemma magnitude_zero (a : Spec.embedding) :
  Spec.magnitude a = 0 <-> Forall (fun x => x = 0) a.
Proof.
  unfold Spec.magnitude. split.
  - intros H. apply sqrt_eq_0 in H; [|apply dot_self_nonneg].
    induction a as [|x a IH]; [constructor|].
    cbn [Spec.dot] in H. pose proof (dot_self_nonneg a) as Ha.
    assert (Hx : x = 0) by nra. constructor; [exact Hx|apply IH; nra].
  - intros H. replace (Spec.dot a a) with 0; [apply sqrt_0|].
    induction H as [|x a Hx _ IH]; cbn [Spec.dot]; [reflexivity|]. subst x. lra.
Qed.

End Cosine.

(** The similarity of the example vectors of one component is their
    cosine. *)
Lemma sign_similarity_is_cosine (u v : bool) :
  Q2R (Cases.sign_similarity u v) =
  Spec.cosine_similarity (Cases.sign_coords u) (Cases.sign_coords v).
Proof.
  assert (Hm : forall w, Spec.magnitude (Cases.sign_coords w) = 1%R).
  { intros w. unfold Spec.magnitude, Cases.sign_coords. cbn [Spec.dot].
    replace ((if w then 1 else -1) * (if w then 1 else -1) + 0)%R with 1%R
      by (destruct w; lra).
    apply sqrt_1. }
  unfold Spec.cosine_similarity. rewrite !Hm.
  destruct (Req_dec_T 1 0) as [H|_]; [lra|].
  unfold Cases.sign_similarity, Cases.sign_coords. cbn [Spec.dot].
  destruct u, v; cbn [Bool.eqb]; unfold Q2R; cbn; field.
Qed.



(** * The claims of the specification *)

(** C1, as stated, fails: the strategy follows what the server found at
    startup, not what is available when the call is served. The example
    server starts with its model loaded and no index; [reindex_notes]
    then builds and activates an index, so that the Embedding Provider
    and the Vector Index are both available and the semantic path ranks
    the two visible notes; a search with [semantic] left to its default
    still answers with the one note of the keyword search. *)
Lemma search_after_reindex_is_keyword :
  let s := mkServer Corpus.store false in
  initialize Corpus.engine Corpus.fresh = (Ok s, Corpus.ready) /\
  call_tool Corpus.engine s (mkRequest "reindex_notes" None) Corpus.ready =
    (Ok (mkResponse
           [mkItem "text"
              "Successfully re-indexed 2 notes. Vector search index has been updated."]),
     Corpus.indexed) /\
  Spec.provider_ready Corpus.indexed = true /\
  Spec.active Corpus.indexed <> None /\
  Corpus.returned_ids
    (Spec.semantic_path Corpus.embed Corpus.similarity Corpus.store "Plan" 10
                        Corpus.indexed) = [JStr "B-2222"; JStr "A-1111"] /\
  call_tool Corpus.engine s (mkRequest "search_notes" (Some (Corpus.search_for "Plan")))
            Corpus.indexed =
    (Ok (mkResponse
           [mkItem "text"
              ("Found 1 notes using keyword search:" ++ nl ++ nl ++
               "**Project Plan**" ++ nl ++ "ID: A-1111" ++ nl ++ "Draft the plan." ++ nl)]),
     Corpus.indexed).
Proof.
  cbv zeta. repeat split; try (vm_compute; reflexivity).
  vm_compute. discriminate.
Qed.

(** C1, amended: [search_notes] takes the semantic path exactly when the
    [semantic] argument (true by default) is set and the server found
    semantic search at startup, that is when [initialize()] had both the
    embedding model initialised and the vector index loaded, in which case
    the engine holds both. It then answers with the notes of the semantic
    path, at most [limit] of them (10 by default), or with the failure of
    that path; otherwise it answers with the notes of the keyword search,
    at most [limit] of them. An answer that lists notes names the
    strategy that was used. The two paths are those of the engine as the
    specification describes it. *)
Theorem search_strategy
        (vector : Type) (embed : string -> option vector)
        (similarity : vector -> vector -> Q)
        (utils : Utils.module (Spec.state vector))
        (s : server) (a : arguments) (st : Spec.state vector) :
  searchNotes utils = Spec.searchNotes embed similarity ->
  let k := Spec.count_of (default (limit a) (JNum 10)) in
  let semantic := truthy (default (semantic a) (JBool true)) in
  let listing := fun notes : list note =>
    join_strings nl
      (map (fun n => "**" ++ toString (title n) ++ "**" ++ nl ++ "ID: " ++
                     toString (Utils.id n) ++ nl ++ toString (Utils.content n) ++ nl)
           notes) in
  (semantic && hasSemanticSearch s = true ->
   match Spec.semantic_path embed similarity (db s) (toString (query a)) k st with
   | Ok notes =>
       (List.length notes <= k)%nat /\
       call_tool utils s (mkRequest "search_notes" (Some a)) st =
       (Ok (mkResponse
              [mkItem "text"
                 ("Found " ++ nat_to_string (List.length notes) ++
                  " notes using semantic search:" ++ nl ++ nl ++ listing notes)]), st)
   | Throw e =>
       call_tool utils s (mkRequest "search_notes" (Some a)) st =
       (Ok (mkResponse [mkItem "text" ("Search failed: " ++ message e)]), st)
   end) /\
  (semantic && hasSemanticSearch s = false ->
   let notes := map (Spec.to_note (db s))
                    (Spec.keywordSearch (db s) (toString (query a)) k) in
   (List.length notes <= k)%nat /\
   call_tool utils s (mkRequest "search_notes" (Some a)) st =
   (Ok (mkResponse
          [mkItem "text"
             ("Found " ++ nat_to_string (List.length notes) ++
              " notes using keyword search:" ++ nl ++ nl ++ listing notes)]), st)) /\
  (forall st0,
     initialize utils st0 = (Ok s, st) ->
     exists dbPath st1 st2 modelInitialized st3 indexLoaded,
       getDbPath utils st0 = (Ok dbPath, st1) /\
       createDb utils dbPath st1 = (Ok (db s), st2) /\
       initEmbedder utils st2 = (Ok modelInitialized, st3) /\
       loadVectorIndex utils st3 = (Ok indexLoaded, st) /\
       hasSemanticSearch s = modelInitialized && indexLoaded) /\
  (forall st0 model_loads model_id,
     initEmbedder utils = @Spec.initEmbedder vector model_loads ->
     loadVectorIndex utils = @Spec.loadVectorIndex vector model_id ->
     initialize utils st0 = (Ok s, st) ->
     hasSemanticSearch s = true ->
     Spec.provider_ready st = true /\ exists ix, Spec.active st = Some ix).
Proof.
  intros Hu k semantic listing.
  assert (Hcall : call_tool utils s (mkRequest "search_notes" (Some a)) st =
                  search_notes utils s (Some a) st) by reflexivity.
  assert (Hrun : search_notes utils s (Some a) st =
                 match (if semantic && hasSemanticSearch s
                        then Spec.semantic_path embed similarity (db s)
                               (toString (query a)) k st
                        else Ok (map (Spec.to_note (db s))
                                   (Spec.keywordSearch (db s) (toString (query a)) k)))
                 with
                 | Ok notes =>
                     (Ok (mkResponse
                            [mkItem "text"
                               ("Found " ++ nat_to_string (List.length notes) ++
                                " notes using " ++
                                (if semantic && hasSemanticSearch s
                                 then "semantic" else "keyword") ++
                                " search:" ++ nl ++ nl ++ listing notes)]), st)
                 | Throw e =>
                     (Ok (mkResponse [mkItem "text" ("Search failed: " ++ message e)]), st)
                 end).
  { unfold search_notes, try_catch, bind, ret. rewrite Hu.
    unfold Spec.searchNotes. fold k.
    assert (Ht : truthy (js_and (default (Server.semantic a) (JBool true))
                                (JBool (hasSemanticSearch s))) =
                 semantic && hasSemanticSearch s).
    { unfold js_and, semantic.
      destruct (truthy (default (Server.semantic a) (JBool true))) eqn:E.
      - reflexivity.
      - exact E. }
    unfold search_text, strategy. rewrite Ht.
    destruct (semantic && hasSemanticSearch s).
    - destruct (Spec.semantic_path _ _ _ _ _ _); reflexivity.
    - reflexivity. }
  rewrite Hcall, Hrun. clear Hcall Hrun.
  split; [|split; [|split]].
  - intros H. rewrite H.
    destruct (Spec.semantic_path embed similarity (db s) (toString (query a)) k st)
      as [notes|e] eqn:Hn; [|reflexivity].
    split; [now apply semantic_path_length in Hn|reflexivity].
  - intros H. rewrite H. split; [|reflexivity].
    rewrite length_map. unfold Spec.keywordSearch. apply firstn_le_length.
  - intros st0. apply initialize_inv.
  - intros st0 model_loads model_id He Hl Hi Hs.
    apply initialize_inv in Hi.
    destruct Hi as (p & st1 & st2 & m & st3 & i & _ & _ & E3 & E4 & E5).
    rewrite Hs in E5. symmetry in E5. apply andb_true_iff in E5. destruct E5 as [-> ->].
    rewrite He in E3. rewrite Hl in E4.
    unfold Spec.initEmbedder in E3. injection E3 as -> <-.
    unfold Spec.loadVectorIndex in E4. cbn [Spec.persisted Spec.provider_ready] in E4.
    destruct (Spec.persisted st2) as [ix|]; [|discriminate].
    destruct (String.eqb (Spec.index_model ix) model_id); [|discriminate].
    injection E4 as <-. cbn. eauto.
Qed.

Lemma search_strategy_witness :
  searchNotes Corpus.engine = Spec.searchNotes Corpus.embed Corpus.similarity /\
  call_tool Corpus.engine (mkServer Corpus.store true)
            (mkRequest "search_notes" (Some (Corpus.search_for "Plan")))
            Corpus.indexed =
  (Ok (mkResponse
         [mkItem "text"
            ("Found 2 notes using semantic search:" ++ nl ++ nl ++
             "**Grocery List**" ++ nl ++ "ID: B-2222" ++ nl ++ "Milk, eggs." ++ nl ++ nl ++
             "**Project Plan**" ++ nl ++ "ID: A-1111" ++ nl ++ "Draft the plan." ++ nl)]),
   Corpus.indexed).
Proof.
  split; [reflexivity|].
  exact (proj2 (proj1 (@search_strategy Z Corpus.embed Corpus.similarity Corpus.engine
                         (mkServer Corpus.store true) (Corpus.search_for "Plan")
                         Corpus.indexed eq_refl) eq_refl)).
Defined.




(** C3: a note in the trash is never returned. On the source:
    [find_note_by_partial_id] selects, and returns, only rows whose
    trashed flag is 0. On the engine of utils.js as the specification
    describes it: keyword search, both strategies of [search], the tag
    listing and the rebuild of the index draw on non-trashed notes only. *)
Theorem trashed_notes_never_returned :
  (forall d partial_id notes,
     find_notes d partial_id = Ok notes ->
     exists rows,
       Forall (fun r => In r (Sqlite.notes d) /\ ZSFNOTE.ZTRASHED r = Some 0%Z) rows /\
       Forall2 (annotated d) rows notes) /\
  (forall d query k r,
     In r (Spec.keywordSearch d query k) ->
     In r (Sqlite.notes d) /\ ZSFNOTE.ZTRASHED r = Some 0%Z) /\
  (forall (vector : Type) (embed : string -> option vector)
          (similarity : vector -> vector -> Q)
          d query limit useSemanticSearch st notes st',
     Spec.searchNotes embed similarity d query limit useSemanticSearch st = (Ok notes, st') ->
     forall n, In n notes ->
       exists r, In r (Sqlite.notes d) /\ ZSFNOTE.ZTRASHED r = Some 0%Z /\
                 Utils.id n = of_text (ZSFNOTE.ZUNIQUEIDENTIFIER r) /\
                 title n = of_text (ZSFNOTE.ZTITLE r) /\
                 Utils.content n = of_text (ZSFNOTE.ZTEXT r)) /\
  (forall d t,
     In t (Spec.allTags d) ->
     exists tag j n,
       In tag (Sqlite.tags d) /\ t = of_text (ZSFNOTETAG.ZTITLE tag) /\
       In j (note_tags d) /\ Z_5TAGS.Z_13TAGS j = Some (ZSFNOTETAG.Z_PK tag) /\
       In n (Sqlite.notes d) /\ Z_5TAGS.Z_5NOTES j = Some (ZSFNOTE.Z_PK n) /\
       ZSFNOTE.ZTRASHED n = Some 0%Z) /\
  (forall (vector : Type) (model_id : string) (embed : string -> option vector)
          d st result st',
     Spec.createVectorIndex model_id embed d st = (Ok result, st') ->
     exists ix,
       Spec.active st' = Some ix /\
       forall e, In e (Spec.entries ix) ->
         exists r, In r (Sqlite.notes d) /\ ZSFNOTE.ZTRASHED r = Some 0%Z /\
                   Spec.entry_id e = ZSFNOTE.ZUNIQUEIDENTIFIER r).
Proof.
  repeat apply conj.
  - intros d partial_id notes. unfold find_notes, allAsync_notes.
    destruct (fault d _); [discriminate|]. intros H.
    exists (select_notes d (like_pattern partial_id)). split.
    + apply Forall_forall. intros r Hr. apply select_notes_In in Hr.
      destruct Hr as [Hin Hw]. split; [assumption|].
      now apply where_notes_not_trashed in Hw.
    + apply for_each_inv in H. eapply Forall2_impl; [|exact H].
      intros r n. apply annotate_annotated.
  - intros d query k r H. unfold Spec.keywordSearch in H.
    apply In_firstn, In_order_by, filter_In in H. destruct H as [Hin H].
    apply andb_true_iff in H. destruct H as [Hv _].
    split; [assumption|now apply holds_eq_zero].
  - intros vector embed similarity d query limit use st notes st'.
    unfold Spec.searchNotes. destruct (truthy use).
    + unfold Spec.semantic_path.
      destruct (Spec.provider_ready st); [|discriminate].
      destruct (Spec.active st) as [ix|]; [|discriminate].
      destruct (embed (toString query)) as [qv|]; [|discriminate].
      intros [= <- <-] n Hn. apply in_flat_map in Hn.
      destruct Hn as (hit & _ & Hn).
      destruct (Spec.entry_id (fst hit)) as [i|]; [|contradiction].
      destruct (Spec.findById d i) as [r|] eqn:E; [|contradiction].
      destruct Hn as [<-|[]]. apply findById_visible in E. destruct E as [Hin Ht].
      exists r. cbn. auto.
    + intros [= <- <-] n Hn. apply in_map_iff in Hn.
      destruct Hn as (r & <- & Hr). unfold Spec.keywordSearch in Hr.
      apply In_firstn, In_order_by, filter_In in Hr. destruct Hr as [Hin H].
      apply andb_true_iff in H. destruct H as [Hv _].
      exists r. cbn. apply holds_eq_zero in Hv. auto.
  - intros d t H. unfold Spec.allTags in H. apply in_map_iff in H.
    destruct H as (tag & <- & H). apply filter_In in H. destruct H as [Htag H].
    apply existsb_exists in H. destruct H as (j & Hj & H).
    apply andb_true_iff in H. destruct H as [H13 H].
    apply existsb_exists in H. destruct H as (n & Hn & H).
    apply andb_true_iff in H. destruct H as [Hv H5].
    apply holds_eq_int in H13. destruct H13 as (x & [= <-] & H13).
    apply holds_eq_int in H5. destruct H5 as (y & [= <-] & H5).
    apply holds_eq_zero in Hv.
    exists tag, j, n. auto 10.
  - intros vector model_id embed d st result st'. unfold Spec.createVectorIndex.
    destruct (Spec.provider_ready st); [|discriminate].
    destruct (fault d SelectIndexable); [discriminate|].
    intros [= _ <-]. eexists. split; [reflexivity|].
    cbn [Spec.entries]. intros e He. unfold Spec.build_entries in He.
    apply in_flat_map in He. destruct He as (r & Hr & He).
    unfold Spec.listAllIndexable in Hr. apply filter_In in Hr. destruct Hr as [Hin Hv].
    destruct (embed _) as [v|]; [|contradiction].
    destruct He as [<-|[]]. exists r. apply holds_eq_zero in Hv. cbn. auto.
Qed.

Lemma trashed_notes_never_returned_witness :
  exists notes,
    find_notes Corpus.store (JStr "Project") = Ok notes /\
    exists rows,
      Forall (fun r => In r (Sqlite.notes Corpus.store) /\
                       ZSFNOTE.ZTRASHED r = Some 0%Z) rows /\
      Forall2 (annotated Corpus.store) rows notes.
Proof.
  eexists. split; [vm_compute; reflexivity|].
  apply (proj1 trashed_notes_never_returned Corpus.store (JStr "Project")).
  vm_compute. reflexivity.
Defined.

(** C4: [retrieve_for_rag] is served by the semantic path alone. When the
    server found no semantic search at startup the tool is not declared
    and a call is refused with the protocol error "Tool not found",
    without any function of utils.js being run. When it is served, the
    answer is built from what [retrieveForRAG] returns and from nothing
    else: a failure is reported as such, and each entry is listed with
    its title, identifier, body and score (printed with three decimals,
    or N/A for an entry without one). In the engine of the
    specification [retrieveForRAG] is the semantic path: it fails when
    the provider, the index or the embedding of the query is not
    available, and every entry it returns is a non-trashed note of the
    store with the similarity of its index entry to the query, so that
    every score line of the answer is a number. *)
Theorem retrieve_for_rag_semantic_only
        (U : Type) (utils : Utils.module U) (s : server) (a : arguments) (u : U) :
  (hasSemanticSearch s = false ->
   (forall a',
      call_tool utils s (mkRequest "retrieve_for_rag" a') u =
      (Throw (McpError MethodNotFound "Tool not found"), u)) /\
   ~ In "retrieve_for_rag" (map tool_name (list_tools s))) /\
  (hasSemanticSearch s = true ->
   In "retrieve_for_rag" (map tool_name (list_tools s)) /\
   call_tool utils s (mkRequest "retrieve_for_rag" (Some a)) u =
     match retrieveForRAG utils (db s) (query a) (default (limit a) (JNum 5)) u with
     | (Ok context, u') =>
         (Ok (mkResponse
                [mkItem "text"
                   ("Retrieved " ++ nat_to_string (List.length context) ++
                    " relevant notes for: " ++ dq ++ toString (query a) ++ dq ++
                    nl ++ nl ++
                    join_strings nl
                      (map (fun n =>
                              "**" ++ toString (title n) ++ "**" ++ nl ++ "ID: " ++
                              toString (Utils.id n) ++ nl ++ toString (Utils.content n) ++
                              nl ++ "*Score: " ++
                              match score n with
                              | Some x => toFixed3 x
                              | None => "N/A"
                              end ++ "*" ++ nl)
                           context))]), u')
     | (Throw e, u') =>
         (Ok (mkResponse [mkItem "text" ("RAG retrieval failed: " ++ message e)]), u')
     end /\
   (forall utils' : Utils.module U,
      retrieveForRAG utils' = retrieveForRAG utils ->
      call_tool utils' s (mkRequest "retrieve_for_rag" (Some a)) u =
      call_tool utils s (mkRequest "retrieve_for_rag" (Some a)) u)) /\
  (forall (vector : Type) (embed : string -> option vector)
          (similarity : vector -> vector -> Q) d q l st,
     match Spec.retrieveForRAG embed similarity d q l st with
     | (Ok context, st') =>
         st' = st /\ (List.length context <= Spec.count_of l)%nat /\
         exists ix qv,
           Spec.provider_ready st = true /\ Spec.active st = Some ix /\
           embed (toString q) = Some qv /\
           Forall (fun n =>
                     exists e r,
                       In e (Spec.entries ix) /\ In r (Sqlite.notes d) /\
                       ZSFNOTE.ZTRASHED r = Some 0%Z /\
                       Spec.entry_id e = ZSFNOTE.ZUNIQUEIDENTIFIER r /\
                       Utils.id n = of_text (ZSFNOTE.ZUNIQUEIDENTIFIER r) /\
                       title n = of_text (ZSFNOTE.ZTITLE r) /\
                       Utils.content n = of_text (ZSFNOTE.ZTEXT r) /\
                       score n = Some (similarity qv (Spec.entry_vector e)))
                  context
     | (Throw e, st') =>
         st' = st /\
         (Spec.provider_ready st = false \/ Spec.active st = None \/
          embed (toString q) = None)
     end) /\
  (forall (vector : Type) (embed : string -> option vector)
          (similarity : vector -> vector -> Q)
          (engine : Utils.module (Spec.state vector)) st context,
     retrieveForRAG engine = Spec.retrieveForRAG embed similarity ->
     hasSemanticSearch s = true ->
     Spec.semantic_path embed similarity (db s) (toString (query a))
                        (Spec.count_of (default (limit a) (JNum 5))) st = Ok context ->
     exists scores,
       Forall2 (fun n x => score n = Some x) context scores /\
       call_tool engine s (mkRequest "retrieve_for_rag" (Some a)) st =
       (Ok (mkResponse
              [mkItem "text"
                 ("Retrieved " ++ nat_to_string (List.length context) ++
                  " relevant notes for: " ++ dq ++ toString (query a) ++ dq ++
                  nl ++ nl ++
                  join_strings nl
                    (map (fun nx =>
                            "**" ++ toString (title (fst nx)) ++ "**" ++ nl ++ "ID: " ++
                            toString (Utils.id (fst nx)) ++ nl ++
                            toString (Utils.content (fst nx)) ++ nl ++
                            "*Score: " ++ toFixed3 (snd nx) ++ "*" ++ nl)
                         (combine context scores)))]), st)).
Proof.
  assert (Hcall : hasSemanticSearch s = true ->
            forall (V : Type) (v : Utils.module V) (w : V),
              call_tool v s (mkRequest "retrieve_for_rag" (Some a)) w =
              retrieve_for_rag v s (Some a) w).
  { intros Hs V v w. unfold call_tool.
    cbn [name String.eqb Ascii.eqb Bool.eqb andb args]. rewrite Hs. reflexivity. }
  split; [|split; [|split]].
  - intros Hs. split.
    + intros a'. unfold call_tool. cbn [name String.eqb Ascii.eqb Bool.eqb andb].
      rewrite Hs. reflexivity.
    + unfold list_tools. rewrite Hs. cbn.
      intros H. repeat (destruct H as [H|H]; [discriminate|]). exact H.
  - intros Hs. split; [|split].
    + unfold list_tools. rewrite Hs. cbn. auto 10.
    + rewrite (Hcall Hs). unfold retrieve_for_rag, try_catch, bind, ret.
      destruct (retrieveForRAG utils _ _ _ u) as [[context|e] u']; reflexivity.
    + intros utils' H. rewrite !(Hcall Hs). unfold retrieve_for_rag. now rewrite H.
  - intros vector embed similarity d q l st. unfold Spec.retrieveForRAG.
    destruct (Spec.semantic_path embed similarity d (toString q) (Spec.count_of l) st)
      as [context|e] eqn:E.
    + split; [reflexivity|]. split; [now apply semantic_path_length in E|].
      now apply semantic_path_entries in E.
    + split; [reflexivity|]. now apply semantic_path_fails in E.
  - intros vector embed similarity engine st context He Hs Hpath.
    assert (Hsc : exists scores, Forall2 (fun n x => score n = Some x) context scores).
    { apply semantic_path_entries in Hpath.
      destruct Hpath as (ix & qv & _ & _ & _ & Hall).
      clear - Hall. induction Hall as [|n ns Hn _ IH].
      - exists []. constructor.
      - destruct Hn as (e & r & _ & _ & _ & _ & _ & _ & _ & Hx).
        destruct IH as (xs & Hxs). eexists (_ :: xs). constructor; eassumption. }
    destruct Hsc as (scores & Hsc). exists scores. split; [exact Hsc|].
    rewrite (Hcall Hs). unfold retrieve_for_rag, try_catch, bind, ret.
    rewrite He. unfold Spec.retrieveForRAG. rewrite Hpath.
    assert (Hmap : map render_context context =
                   map (fun nx =>
                          "**" ++ toString (title (fst nx)) ++ "**" ++ nl ++ "ID: " ++
                          toString (Utils.id (fst nx)) ++ nl ++
                          toString (Utils.content (fst nx)) ++ nl ++
                          "*Score: " ++ toFixed3 (snd nx) ++ "*" ++ nl)
                       (combine context scores)).
    { clear - Hsc. induction Hsc as [|n x ns xs Hx _ IH]; [reflexivity|].
      cbn [map combine fst snd]. rewrite IH. unfold render_context at 1, score_text.
      now rewrite Hx. }
    unfold text_response, rag_text. now rewrite Hmap.
Qed.

Lemma retrieve_for_rag_semantic_only_witness :
  hasSemanticSearch (mkServer Corpus.store false) = false /\
  call_tool Corpus.engine (mkServer Corpus.store false)
            (mkRequest "retrieve_for_rag" (Some (Corpus.search_for "Plan")))
            Corpus.indexed =
  (Throw (McpError MethodNotFound "Tool not found"), Corpus.indexed) /\
  hasSemanticSearch (mkServer Corpus.store true) = true /\
  call_tool Corpus.engine (mkServer Corpus.store true)
            (mkRequest "retrieve_for_rag" (Some (Corpus.search_for "Plan")))
            Corpus.indexed =
  (Ok (mkResponse
         [mkItem "text"
            ("Retrieved 2 relevant notes for: " ++ dq ++ "Plan" ++ dq ++ nl ++ nl ++
             "**Grocery List**" ++ nl ++ "ID: B-2222" ++ nl ++ "Milk, eggs." ++ nl ++
             "*Score: 0.050*" ++ nl ++ nl ++
             "**Project Plan**" ++ nl ++ "ID: A-1111" ++ nl ++ "Draft the plan." ++ nl ++
             "*Score: 0.042*" ++ nl)]), Corpus.indexed).
Proof.
  split; [reflexivity|]. split.
  - exact (proj1 (proj1 (@retrieve_for_rag_semantic_only _ Corpus.engine
                           (mkServer Corpus.store false)
                           (Corpus.search_for "Plan") Corpus.indexed)
                        eq_refl) _).
  - split; [reflexivity|].
    exact (proj1 (proj2 (proj1 (proj2 (@retrieve_for_rag_semantic_only _ Corpus.engine
                                         (mkServer Corpus.store true)
                                         (Corpus.search_for "Plan") Corpus.indexed))
                               eq_refl))).
Defined.




Local Open Scope R_scope.




Local Close Scope R_scope.

(** C7: a lookup of tags that fails does not fail the request. When the
    store answers the first statement, and the selected notes have valid
    dates and bodies, [find_note_by_partial_id] answers with the list of
    all the selected notes in their order, whatever lookups of tags the
    environment fails: a note whose lookup failed is listed with an empty
    tag list, every other note with the tags joined to its identifier, as
    in the answer of the same store without the failures; and a note to
    which the join links no existing tag is listed with an empty tag list
    as well. *)
Theorem tag_lookup_failure_is_local
        (U : Type) (utils : Utils.module U) (s : server) (a : arguments) (u : U) :
  fault (db s) (SelectNotes (like_pattern (partial_id a))) = None ->
  select_notes (db s) (like_pattern (partial_id a)) <> [] ->
  forallb (fun r => convertible (ZSFNOTE.ZCREATIONDATE r))
          (select_notes (db s) (like_pattern (partial_id a))) = true ->
  forallb has_text (select_notes (db s) (like_pattern (partial_id a))) = true ->
  let rows := select_notes (db s) (like_pattern (partial_id a)) in
  let joined := fun r => map of_text (select_tags (db s) (ZSFNOTE.ZUNIQUEIDENTIFIER r)) in
  let listing := fun (tags_of : ZSFNOTE.row -> list jsval) =>
    "Found " ++ nat_to_string (List.length rows) ++ " notes matching " ++
    dq ++ toString (partial_id a) ++ dq ++ ":" ++ nl ++ nl ++
    join_strings nl
      (map (fun r =>
              "**" ++ toString (of_text (ZSFNOTE.ZTITLE r)) ++ "**" ++ nl ++ "Full ID: " ++
              toString (of_text (ZSFNOTE.ZUNIQUEIDENTIFIER r)) ++ nl ++
              substring0 200 (toString (of_text (ZSFNOTE.ZTEXT r))) ++ "..." ++ nl ++
              "*Tags: " ++ join ", " (tags_of r) ++ "*" ++ nl)
           rows) in
  call_tool utils s (mkRequest "find_note_by_partial_id" (Some a)) u =
    (Ok (mkResponse
           [mkItem "text"
              (listing (fun r =>
                          match fault (db s) (SelectTags (ZSFNOTE.ZUNIQUEIDENTIFIER r)) with
                          | Some _ => []
                          | None => joined r
                          end))]), u) /\
  call_tool utils (mkServer (without_tag_faults (db s)) (hasSemanticSearch s))
            (mkRequest "find_note_by_partial_id" (Some a)) u =
    (Ok (mkResponse [mkItem "text" (listing joined)]), u) /\
  (forall r,
     (forall j t n,
        In j (note_tags (db s)) -> In t (Sqlite.tags (db s)) -> In n (Sqlite.notes (db s)) ->
        Z_5TAGS.Z_13TAGS j = Some (ZSFNOTETAG.Z_PK t) ->
        Z_5TAGS.Z_5NOTES j = Some (ZSFNOTE.Z_PK n) ->
        ZSFNOTE.ZUNIQUEIDENTIFIER n <> ZSFNOTE.ZUNIQUEIDENTIFIER r \/
        ZSFNOTE.ZUNIQUEIDENTIFIER r = None) ->
     joined r = []).
Proof.
  intros Hq Hne Hc Ht rows joined listing.
  split; [|split].
  - rewrite call_find, (@partial_answer_listing _ _ Hq Hne Hc Ht).
    unfold text_response, listing, rows.
    erewrite map_ext; [reflexivity|].
    intros r. cbv beta. now rewrite lookup_tags_cases.
  - rewrite call_find. cbn [db].
    rewrite (@partial_answer_listing (without_tag_faults (db s)) (partial_id a) Hq Hne Hc Ht).
    unfold text_response, listing, rows.
    erewrite map_ext; [reflexivity|].
    intros r. cbv beta. rewrite lookup_tags_cases. reflexivity.
  - intros r Hr. unfold joined. now rewrite select_tags_unlinked.
Qed.

Lemma tag_lookup_failure_is_local_witness :
  fault Corpus.faulty_store (SelectTags (Some "A-1111")) = Some Corpus.busy /\
  call_tool Corpus.engine (mkServer Corpus.faulty_store false)
            (mkRequest "find_note_by_partial_id" (Some (Cases.find_for (JStr "o"))))
            Corpus.fresh =
    (Ok (mkResponse
           [mkItem "text"
              ("Found 2 notes matching " ++ dq ++ "o" ++ dq ++ ":" ++ nl ++ nl ++
               "**Project Plan**" ++ nl ++ "Full ID: A-1111" ++ nl ++
               "Draft the plan...." ++ nl ++ "*Tags: *" ++ nl ++ nl ++
               "**Grocery List**" ++ nl ++ "Full ID: B-2222" ++ nl ++
               "Milk, eggs...." ++ nl ++ "*Tags: home*" ++ nl)]), Corpus.fresh).
Proof.
  split; [reflexivity|].
  exact (proj1 (@tag_lookup_failure_is_local _ Corpus.engine
                  (mkServer Corpus.faulty_store false) (Cases.find_for (JStr "o"))
                  Corpus.fresh eq_refl ltac:(discriminate) eq_refl eq_refl)).
Defined.

(** C8, as stated, fails: a successful rebuild never moves the running
    system to Available. The example server starts with its model loaded
    and no index, so without semantic search; [reindex_notes] then builds
    and activates an index of the two visible notes, and [retrieve_for_rag]
    is still refused. No tool call changes what the handlers closed over
    at startup. *)
Lemma reindex_does_not_enable_search :
  (let s := mkServer Corpus.store false in
   initialize Corpus.engine Corpus.fresh = (Ok s, Corpus.ready) /\
   call_tool Corpus.engine s (mkRequest "reindex_notes" None) Corpus.ready =
     (Ok (mkResponse
            [mkItem "text"
               "Successfully re-indexed 2 notes. Vector search index has been updated."]),
      Corpus.indexed) /\
   call_tool Corpus.engine s
             (mkRequest "retrieve_for_rag" (Some (Corpus.search_for "Project Plan")))
             Corpus.indexed =
     (Throw (McpError MethodNotFound "Tool not found"), Corpus.indexed)) /\
  ~ (exists (U : Type) (utils : Utils.module U)
            (s s' : server) (u u' : U) request outcome,
       semantic_availability (Serving s) = Unavailable /\
       main_step utils (Serving s, u) (CallTool request outcome) (Serving s', u') /\
       semantic_availability (Serving s') = Available).
Proof.
  split.
  - repeat split; vm_compute; reflexivity.
  - intros (U & utils & s & s' & u & u' & request & outcome & H1 & H2 & H3).
    apply call_keeps_server in H2. destruct H2 as (u'' & [= <- <-] & _).
    rewrite H1 in H3. discriminate.
Qed.

(** C8, amended: the availability of semantic search is decided once, by
    [initialize()], and is fixed from then on. A step of the process
    takes it from Unavailable to Initializing (the start of [main()]),
    from Initializing to Available or Unavailable (when [initialize()]
    settles: Available exactly when both the embedding model was
    initialised and the index was loaded), or leaves it as it is, until
    the process ends; no step takes it from Unavailable to Available.
    Every server record the process holds is the one [initialize()]
    resolved to. [reindex_notes] answers with the count or the failure of
    the rebuild and changes nothing else. In the engine of the
    specification, a rebuild fails only without the provider or when the
    store fails the scan, and then leaves the engine, its active and
    persisted index included, as it was, so that an Available system
    goes on answering from the prior index; a successful rebuild
    persists an index that the next startup loads. *)
Theorem availability_fixed_at_startup (U : Type) (utils : Utils.module U) :
  (forall c e c',
     main_step utils c e c' ->
     match semantic_availability (fst c), semantic_availability (fst c') with
     | Unavailable, Initializing => fst c = Starting /\ e = Main
     | Initializing, Available | Initializing, Unavailable =>
         fst c = AwaitingInitialize /\ (e = Initialized \/ e = Signal)
     | Available, Available | Unavailable, Unavailable => True
     | Available, Unavailable => ended (fst c') = true
     | Unavailable, Available | Available, Initializing
     | Initializing, Initializing => False
     end) /\
  (forall u s u',
     main_step utils (AwaitingInitialize, u) Initialized (Connecting s, u') ->
     exists dbPath u1 u2 modelInitialized u3 indexLoaded,
       getDbPath utils u = (Ok dbPath, u1) /\
       createDb utils dbPath u1 = (Ok (db s), u2) /\
       initEmbedder utils u2 = (Ok modelInitialized, u3) /\
       loadVectorIndex utils u3 = (Ok indexLoaded, u') /\
       semantic_availability (Connecting s) =
         if modelInitialized && indexLoaded then Available else Unavailable) /\
  (forall u events p u' s,
     main_run utils (Starting, u) events (p, u') ->
     server_of p = Some s ->
     (exists u1, initialize utils u = (Ok s, u1)) /\
     semantic_availability p = if hasSemanticSearch s then Available else Unavailable) /\
  (forall s u a',
     call_tool utils s (mkRequest "reindex_notes" a') u =
     match createVectorIndex utils (db s) u with
     | (Ok result, u') =>
         (Ok (mkResponse
                [mkItem "text"
                   ("Successfully re-indexed " ++ toString (notesIndexed result) ++
                    " notes. Vector search index has been updated.")]), u')
     | (Throw e, u') =>
         (Ok (mkResponse [mkItem "text" ("Re-indexing failed: " ++ message e)]), u')
     end) /\
  (forall (vector : Type) model_id (embed : string -> option vector) d st e st',
     Spec.createVectorIndex model_id embed d st = (Throw e, st') ->
     st' = st /\
     ((Spec.provider_ready st = false /\ e = Spec.unavailable) \/
      (Spec.provider_ready st = true /\ fault d SelectIndexable = Some e))) /\
  (forall (vector : Type) model_id (embed : string -> option vector) d st,
     Spec.provider_ready st = true -> fault d SelectIndexable = None ->
     exists result ix,
       Spec.createVectorIndex model_id embed d st =
         (Ok result, Spec.mkState true (Some ix) (Some ix)) /\
       Spec.index_model ix = model_id /\
       Spec.loadVectorIndex model_id (Spec.mkState true (Some ix) (Some ix)) =
         (Ok true, Spec.mkState true (Some ix) (Some ix)) /\
       Spec.loadVectorIndex model_id (Spec.mkState false None (Some ix)) =
         (Ok true, Spec.mkState false (Some ix) (Some ix))).
Proof.
  repeat apply conj.
  - intros c e c' H. inversion H; subst; cbn;
      repeat match goal with
             | |- context [hasSemanticSearch ?s] => destruct (hasSemanticSearch s)
             end; auto.
  - intros u s u' H. inversion H; subst.
    match goal with
    | H0 : initialize utils u = _ |- _ =>
        apply initialize_inv in H0;
        destruct H0 as (p & u1 & u2 & m & u3 & i & E1 & E2 & E3 & E4 & E5)
    end.
    exists p, u1, u2, m, u3, i. cbn. rewrite E5. auto 10.
  - intros u events p u' s Hrun Hs. split.
    + exact (run_from_start Hrun (s := s) Hs).
    + destruct p; cbn in Hs |- *; try discriminate; now injection Hs as ->.
  - intros s u a'. unfold call_tool.
    cbn [name String.eqb Ascii.eqb Bool.eqb andb args].
    destruct (hasSemanticSearch s);
      unfold reindex_notes, try_catch, bind, ret, text_response;
      destruct (createVectorIndex utils (db s) u) as [[result|e] u']; reflexivity.
  - intros vector model_id embed d st e st'. unfold Spec.createVectorIndex.
    destruct (Spec.provider_ready st).
    + destruct (fault d SelectIndexable) as [e0|]; [|discriminate].
      intros [= <- <-]. auto.
    + intros [= <- <-]. auto.
  - intros vector model_id embed d st Hr Hf. unfold Spec.createVectorIndex.
    rewrite Hr, Hf. eexists. eexists. split; [reflexivity|].
    split; [reflexivity|]. unfold Spec.loadVectorIndex. cbn.
    rewrite String.eqb_refl. split; reflexivity.
Qed.

Lemma availability_fixed_at_startup_witness :
  initialize Cases.locked_engine Cases.persisted_only =
    (Ok (mkServer Cases.locked_store true), Corpus.indexed) /\
  semantic_availability (Serving (mkServer Cases.locked_store true)) = Available /\
  call_tool Cases.locked_engine (mkServer Cases.locked_store true)
            (mkRequest "reindex_notes" None) Corpus.indexed =
    (Ok (mkResponse
           [mkItem "text" ("Re-indexing failed: " ++ "SQLITE_BUSY: database is locked")]),
     Corpus.indexed) /\
  Spec.createVectorIndex "model-1" Corpus.embed Cases.locked_store Corpus.indexed =
    (Throw Corpus.busy, Corpus.indexed) /\
  (Corpus.indexed = Corpus.indexed /\
   ((Spec.provider_ready Corpus.indexed = false /\ Corpus.busy = Spec.unavailable) \/
    (Spec.provider_ready Corpus.indexed = true /\
     fault Cases.locked_store SelectIndexable = Some Corpus.busy))) /\
  Corpus.returned_ids
    (Spec.semantic_path Corpus.embed Corpus.similarity Cases.locked_store "Plan" 10
                        Corpus.indexed) = [JStr "B-2222"; JStr "A-1111"].
Proof.
  assert (H : Spec.createVectorIndex "model-1" Corpus.embed Cases.locked_store
                Corpus.indexed = (Throw Corpus.busy, Corpus.indexed))
    by (vm_compute; reflexivity).
  split; [vm_compute; reflexivity|]. split; [reflexivity|].
  split; [vm_compute; reflexivity|]. split; [exact H|].
  split; [|vm_compute; reflexivity].
  exact (proj1 (proj2 (proj2 (proj2 (proj2
           (@availability_fixed_at_startup _ Cases.locked_engine)))))
           Z "model-1" Corpus.embed Cases.locked_store Corpus.indexed Corpus.busy
           Corpus.indexed H).
Defined.

(** C9, as stated, fails for malformed arguments, which no handler
    checks. A call of [find_note_by_partial_id] whose arguments lack
    [partial_id] reports no failure: it searches for the text "undefined"
    and answers that no note matches. A call that carries no arguments
    object at all is not answered with a result: the handler rejects with
    a [TypeError], thrown before its [try] block. *)
Lemma malformed_arguments_not_reported :
  partial_id (Corpus.search_for "Plan") = JUndefined /\
  call_tool Corpus.engine (mkServer Corpus.store false)
            (mkRequest "find_note_by_partial_id" (Some (Corpus.search_for "Plan")))
            Corpus.fresh =
    (Ok (mkResponse
           [mkItem "text"
              ("No notes found matching partial ID or title: " ++
               dq ++ "undefined" ++ dq)]), Corpus.fresh) /\
  call_tool Corpus.engine (mkServer Corpus.store false)
            (mkRequest "search_notes" None) Corpus.fresh =
    (Throw (TypeError
              ("Cannot destructure property 'query' of 'request.params.arguments' " ++
               "as it is undefined.")), Corpus.fresh).
Proof.
  repeat split; vm_compute; reflexivity.
Qed.

(** C9, amended: a failure raised while a handler works on a request
    inside its [try] block is reported to the caller as a result whose
    text describes the error: whatever a function of utils.js or the
    first statement on the store throws (an identifier that is not found,
    a search that fails, a store that cannot be read), and a note that
    [retrieveNote] resolves to nothing. Every call that carries an
    arguments object to a tool that is served is answered with a result.
    The handler rejects only a call that carries no arguments object,
    with a [TypeError] that names the first property it reads, or a call
    to a tool that is not served, with "Tool not found"; it rejects before
    any work. The process goes on serving with the same server after
    every call, whatever its outcome. *)
Theorem per_request_failures_are_reported
        (U : Type) (utils : Utils.module U) (s : server) (a : arguments) (u : U) :
  (forall e u',
     searchNotes utils (db s) (query a) (default (limit a) (JNum 10))
                 (js_and (default (semantic a) (JBool true)) (JBool (hasSemanticSearch s))) u =
       (Throw e, u') ->
     call_tool utils s (mkRequest "search_notes" (Some a)) u =
       (Ok (mkResponse [mkItem "text" ("Search failed: " ++ message e)]), u')) /\
  (forall e u',
     retrieveNote utils (db s) (arg_id a) u = (Throw e, u') ->
     call_tool utils s (mkRequest "get_note" (Some a)) u =
       (Ok (mkResponse [mkItem "text" ("Error retrieving note: " ++ message e)]), u')) /\
  (forall u',
     retrieveNote utils (db s) (arg_id a) u = (Ok None, u') ->
     call_tool utils s (mkRequest "get_note" (Some a)) u =
       (Ok (mkResponse
              [mkItem "text"
                 ("Error retrieving note: " ++
                  "Cannot read properties of undefined (reading 'title')")]), u')) /\
  (forall e u' a',
     getAllTags utils (db s) u = (Throw e, u') ->
     call_tool utils s (mkRequest "get_tags" a') u =
       (Ok (mkResponse [mkItem "text" ("Error retrieving tags: " ++ message e)]), u')) /\
  (forall e u',
     hasSemanticSearch s = true ->
     retrieveForRAG utils (db s) (query a) (default (limit a) (JNum 5)) u = (Throw e, u') ->
     call_tool utils s (mkRequest "retrieve_for_rag" (Some a)) u =
       (Ok (mkResponse [mkItem "text" ("RAG retrieval failed: " ++ message e)]), u')) /\
  (forall e u' a',
     createVectorIndex utils (db s) u = (Throw e, u') ->
     call_tool utils s (mkRequest "reindex_notes" a') u =
       (Ok (mkResponse [mkItem "text" ("Re-indexing failed: " ++ message e)]), u')) /\
  (forall e,
     fault (db s) (SelectNotes (like_pattern (partial_id a))) = Some e ->
     call_tool utils s (mkRequest "find_note_by_partial_id" (Some a)) u =
       (Ok (mkResponse [mkItem "text" ("Search failed: " ++ message e)]), u)) /\
  (forall n,
     In n (map tool_name (list_tools s)) ->
     exists t u',
       call_tool utils s (mkRequest n (Some a)) u =
       (Ok (mkResponse [mkItem "text" t]), u')) /\
  (forall request e u',
     call_tool utils s request u = (Throw e, u') ->
     u' = u /\
     ((args request = None /\
       exists prop,
         In prop ["query"; "id"; "partial_id"] /\
         e = TypeError ("Cannot destructure property '" ++ prop ++
                        "' of 'request.params.arguments' as it is undefined.")) \/
      (~ In (name request) (map tool_name (list_tools s)) /\
       e = mkError "McpError" "MCP error -32601: Tool not found" (Some (-32601)%Z)))) /\
  (forall request outcome c,
     main_step utils (Serving s, u) (CallTool request outcome) c ->
     exists u', c = (Serving s, u') /\ call_tool utils s request u = (outcome, u')).
Proof.
  repeat apply conj.
  - intros e u' H. change (call_tool utils s (mkRequest "search_notes" (Some a)) u)
      with (search_notes utils s (Some a) u).
    unfold search_notes, try_catch, bind, ret. now rewrite H.
  - intros e u' H. change (call_tool utils s (mkRequest "get_note" (Some a)) u)
      with (get_note utils s (Some a) u).
    unfold get_note, try_catch, bind, ret. now rewrite H.
  - intros u' H. change (call_tool utils s (mkRequest "get_note" (Some a)) u)
      with (get_note utils s (Some a) u).
    unfold get_note, try_catch, bind, ret, lift. now rewrite H.
  - intros e u' a' H. change (call_tool utils s (mkRequest "get_tags" a') u)
      with (get_tags utils s u).
    unfold get_tags, try_catch, bind, ret. now rewrite H.
  - intros e u' Hs H. unfold call_tool.
    cbn [name String.eqb Ascii.eqb Bool.eqb andb args]. rewrite Hs.
    unfold retrieve_for_rag, try_catch, bind, ret. now rewrite H.
  - intros e u' a' H. unfold call_tool.
    cbn [name String.eqb Ascii.eqb Bool.eqb andb args].
    destruct (hasSemanticSearch s);
      unfold reindex_notes, try_catch, bind, ret; now rewrite H.
  - intros e H. rewrite call_find.
    unfold partial_answer, find_notes, allAsync_notes. now rewrite H.
  - intros n Hn. exact (@served_call_resolves _ utils s n a u Hn).
  - intros request e u' H. eapply call_tool_rejects. exact H.
  - intros request outcome c H. apply call_keeps_server in H. exact H.
Qed.

Lemma per_request_failures_are_reported_witness :
  fault (db (mkServer Corpus.broken_store false))
        (SelectNotes (like_pattern (partial_id (Cases.find_for (JStr "x"))))) =
    Some (JS.Error "SQLITE_CORRUPT: database disk image is malformed") /\
  call_tool Corpus.engine (mkServer Corpus.broken_store false)
            (mkRequest "find_note_by_partial_id" (Some (Cases.find_for (JStr "x"))))
            Corpus.fresh =
    (Ok (mkResponse
           [mkItem "text"
              ("Search failed: " ++ "SQLITE_CORRUPT: database disk image is malformed")]),
     Corpus.fresh) /\
  Spec.retrieveNote Corpus.store (JStr "Z-9999") Corpus.fresh =
    (Throw (JS.Error "not found"), Corpus.fresh) /\
  call_tool Corpus.engine (mkServer Corpus.store false)
            (mkRequest "get_note"
               (Some (mkArguments JUndefined JUndefined JUndefined (JStr "Z-9999") JUndefined)))
            Corpus.fresh =
    (Ok (mkResponse [mkItem "text" ("Error retrieving note: " ++ "not found")]),
     Corpus.fresh).
Proof.
  split; [reflexivity|]. split.
  - exact (proj1 (proj2 (proj2 (proj2 (proj2 (proj2 (proj2
             (@per_request_failures_are_reported _ Corpus.engine
                (mkServer Corpus.broken_store false) (Cases.find_for (JStr "x"))
                Corpus.fresh)))))))
             _ eq_refl).
  - split; [reflexivity|].
    exact (proj1 (proj2
             (@per_request_failures_are_reported _ Corpus.engine
                (mkServer Corpus.store false)
                (mkArguments JUndefined JUndefined JUndefined (JStr "Z-9999") JUndefined)
                Corpus.fresh))
             _ _ eq_refl).
Defined.

(** C10: a note that [find_note_by_partial_id] returns keeps its raw
    creation date when that is NULL or 0, since the conversion is guarded
    by the truth of the raw value; any other native value is replaced by
    the ISO date-time of the instant it denotes. *)
Theorem creation_date_guard (d : Db) (partial_id : jsval) (notes : list note) :
  find_notes d partial_id = Ok notes ->
  Forall2
    (fun r n =>
       match ZSFNOTE.ZCREATIONDATE r with
       | None => creation_date n = JNull
       | Some z =>
           if (z =? 0)%Z then creation_date n = JNum 0
           else creation_date n = JStr (iso_string ((z + 978307200) * 1000))
       end)
    (select_notes d (like_pattern partial_id)) notes.
Proof.
  unfold find_notes, allAsync_notes.
  destruct (fault d _); [discriminate|].
  intros H. apply for_each_inv in H.
  eapply Forall2_impl; [|exact H].
  intros r n. unfold annotate, convert_creation_date.
  destruct (ZSFNOTE.ZCREATIONDATE r) as [z|]; cbn [of_int truthy].
  - destruct (z =? 0)%Z eqn:E; cbn [negb].
    + apply Z.eqb_eq in E. subst z. now intros [= <-].
    + unfold new_Date, apple_epoch.
      destruct (Z.abs _ <=? maxTime)%Z; cbn [toISOString]; [|discriminate].
      now intros [= <-].
  - now intros [= <-].
Qed.

Lemma creation_date_guard_witness :
  exists notes,
    find_notes Corpus.store (JStr "o") = Ok notes /\
    Forall2
      (fun r n =>
         match ZSFNOTE.ZCREATIONDATE r with
         | None => creation_date n = JNull
         | Some z =>
             if (z =? 0)%Z then creation_date n = JNum 0
             else creation_date n = JStr (iso_string ((z + 978307200) * 1000))
         end)
      (select_notes Corpus.store (like_pattern (JStr "o"))) notes.
Proof.
  eexists. split; [vm_compute; reflexivity|].
  apply (@creation_date_guard Corpus.store (JStr "o")). vm_compute. reflexivity.
Defined.

(** * Further properties of the handlers *)

(** ** The tools declared and the tools served *)

Section Dispatch.

Variable U : Type.
Variable utils : Utils.module U.

Lemma search_notes_resolves (s : server) (a : arguments) (u : U) :
  exists resp u', search_notes utils s (Some a) u = (Ok resp, u').
Proof.
  unfold search_notes, try_catch, bind, ret.
  destruct (searchNotes utils _ _ _ _ u) as [[notes|e] u']; eauto.
Qed.

Lemma get_note_resolves (s : server) (a : arguments) (u : U) :
  exists resp u', get_note utils s (Some a) u = (Ok resp, u').
Proof.
  unfold get_note, try_catch, bind, ret, lift.
  destruct (retrieveNote utils _ _ u) as [[note|e] u']; [|eauto].
  destruct (render_note note); eauto.
Qed.

Lemma get_tags_resolves (s : server) (u : U) :
  exists resp u', get_tags utils s u = (Ok resp, u').
Proof.
  unfold get_tags, try_catch, bind, ret.
  destruct (getAllTags utils _ u) as [[ts|e] u']; eauto.
Qed.

Lemma retrieve_for_rag_resolves (s : server) (a : arguments) (u : U) :
  exists resp u', retrieve_for_rag utils s (Some a) u = (Ok resp, u').
Proof.
  unfold retrieve_for_rag, try_catch, bind, ret.
  destruct (retrieveForRAG utils _ _ _ u) as [[context|e] u']; eauto.
Qed.

Lemma reindex_notes_resolves (s : server) (u : U) :
  exists resp u', reindex_notes utils s u = (Ok resp, u').
Proof.
  unfold reindex_notes, try_catch, bind, ret.
  destruct (createVectorIndex utils _ u) as [[result|e] u']; eauto.
Qed.

End Dispatch.

(** X1: the tools that [ListTools] declares are the tools that [CallTool]
    serves. The declared names are distinct and every required property
    is a declared one; a call that carries arguments is answered with a
    result when its tool is declared, and refused with "Tool not found",
    before any work, when it is not. *)
Theorem declared_tools_are_served
        (U : Type) (utils : Utils.module U) (s : server)
        (n : string) (a : arguments) (u : U) :
  NoDup (map tool_name (list_tools s)) /\
  Forall (fun t => incl (required t) (map fst (properties t))) (list_tools s) /\
  (In n (map tool_name (list_tools s)) ->
   exists resp u', call_tool utils s (mkRequest n (Some a)) u = (Ok resp, u')) /\
  (~ In n (map tool_name (list_tools s)) ->
   call_tool utils s (mkRequest n (Some a)) u =
   (Throw (McpError MethodNotFound "Tool not found"), u)).
Proof.
  split; [|split; [|split]].
  - unfold list_tools. destruct (hasSemanticSearch s); cbn;
      repeat (constructor; [cbn; intros H;
                            repeat (destruct H as [H|H]; [discriminate|]); exact H|]);
      constructor.
  - unfold list_tools. destruct (hasSemanticSearch s); cbn;
      repeat (constructor; [intros x Hx; cbn in Hx |- *; tauto|]); constructor.
  - intros Hin. unfold list_tools in Hin.
    assert (Hcases : n = "search_notes" \/ n = "get_note" \/ n = "get_tags" \/
                     n = "reindex_notes" \/ n = "find_note_by_partial_id" \/
                     (n = "retrieve_for_rag" /\ hasSemanticSearch s = true)).
    { destruct (hasSemanticSearch s); cbn in Hin;
        repeat (destruct Hin as [Hin|Hin]; [symmetry in Hin; tauto|]); contradiction. }
    destruct Hcases as [->|[->|[->|[->|[->|[-> Hs]]]]]].
    + apply search_notes_resolves.
    + apply get_note_resolves.
    + apply get_tags_resolves.
    + unfold call_tool. cbn [name String.eqb Ascii.eqb Bool.eqb andb args].
      destruct (hasSemanticSearch s); apply reindex_notes_resolves.
    + unfold call_tool. cbn [name String.eqb Ascii.eqb Bool.eqb andb args].
      destruct (hasSemanticSearch s); rewrite find_handler_answer; eauto.
    + unfold call_tool. cbn [name String.eqb Ascii.eqb Bool.eqb andb args].
      rewrite Hs. apply retrieve_for_rag_resolves.
  - intros Hout. unfold call_tool. cbn [name].
    assert (Hno : forall lit, In lit (map tool_name (list_tools s)) ->
                              String.eqb n lit = false).
    { intros lit Hlit. destruct (String.eqb n lit) eqn:E; [|reflexivity].
      apply String.eqb_eq in E. subst lit. contradiction. }
    rewrite (Hno "search_notes"), (Hno "get_note"), (Hno "get_tags"),
      (Hno "reindex_notes"), (Hno "find_note_by_partial_id");
      try (unfold list_tools; cbn; tauto).
    destruct (hasSemanticSearch s) eqn:Hs.
    + rewrite (Hno "retrieve_for_rag"); [reflexivity|].
      unfold list_tools. rewrite Hs. cbn. tauto.
    + rewrite andb_false_r. reflexivity.
Qed.

(** X2: a call without an arguments object. [get_tags] and [reindex_notes]
    never look at the arguments; each of the other tools stops at the
    destructuring of its first property, with a [TypeError] that names
    that property, before any function of utils.js or any statement runs;
    and [retrieve_for_rag] does so only when it is served. *)
Theorem calls_without_arguments
        (U : Type) (utils : Utils.module U) (s : server) (u : U) :
  (forall a, call_tool utils s (mkRequest "get_tags" a) u =
             call_tool utils s (mkRequest "get_tags" None) u) /\
  (forall a, call_tool utils s (mkRequest "reindex_notes" a) u =
             call_tool utils s (mkRequest "reindex_notes" None) u) /\
  call_tool utils s (mkRequest "search_notes" None) u =
    (Throw (destructure_error "query"), u) /\
  call_tool utils s (mkRequest "get_note" None) u =
    (Throw (destructure_error "id"), u) /\
  call_tool utils s (mkRequest "find_note_by_partial_id" None) u =
    (Throw (destructure_error "partial_id"), u) /\
  call_tool utils s (mkRequest "retrieve_for_rag" None) u =
    (Throw (if hasSemanticSearch s then destructure_error "query"
            else McpError MethodNotFound "Tool not found"), u).
Proof.
  split; [reflexivity|]. split; [reflexivity|].
  split; [reflexivity|]. split; [reflexivity|]. split.
  - unfold call_tool. cbn [name String.eqb Ascii.eqb Bool.eqb andb args].
    destruct (hasSemanticSearch s); reflexivity.
  - unfold call_tool. cbn [name String.eqb Ascii.eqb Bool.eqb andb args].
    destruct (hasSemanticSearch s); reflexivity.
Qed.

(** ** LIKE, whatever the fragment holds *)

Section LikeAnyFragment.

Lemma like_percent_skip (p s : list ascii) :
  like_chars p s = true -> like_chars (percent :: p) s = true.
Proof.
  intros H. rewrite like_percent_step, H. reflexivity.
Qed.

Lemma like_percent_drop (p : list ascii) (d : ascii) (s : list ascii) :
  like_chars (percent :: p) s = true -> like_chars (percent :: p) (d :: s) = true.
Proof.
  intros H. rewrite like_percent_step, H. apply orb_true_r.
Qed.

Lemma eq_nocase_refl (c : ascii) : eq_nocase c c = true.
Proof.
  unfold eq_nocase. apply Ascii.eqb_refl.
Qed.

Lemma eq_nocase_underscore (d : ascii) :
  eq_nocase underscore d = true -> d = underscore.
Proof.
  destruct d as [[] [] [] [] [] [] [] []]; cbn; intros H;
    first [discriminate H | reflexivity].
Qed.

(** One character of a pattern against one character of a text. *)
Lemma like_cons_step (c : ascii) (p : list ascii) (d : ascii) (s : list ascii) :
  eq_nocase c d = true -> like_chars p s = true ->
  like_chars (c :: p) (d :: s) = true.
Proof.
  intros Hcd Hp. cbn [like_chars].
  destruct (Ascii.eqb c percent) eqn:Ec.
  - apply Ascii.eqb_eq in Ec. subst c.
    change (like_chars (percent :: p) (d :: s) = true).
    now apply like_percent_drop, like_percent_skip.
  - destruct (Ascii.eqb c underscore) eqn:Eu.
    + apply Ascii.eqb_eq in Eu. subst c.
      apply eq_nocase_underscore in Hcd. subst d. exact Hp.
    + unfold eq_nocase in Hcd. now rewrite Hcd, Hp.
Qed.

Lemma like_prefix_any (f s : list ascii) :
  prefix_chars eq_nocase f s = true -> like_chars (f ++ [percent]) s = true.
Proof.
  revert s. induction f as [|c f IH]; intros s H.
  - apply like_trailing_percent.
  - destruct s as [|d s]; [discriminate|].
    cbn [prefix_chars] in H. apply andb_true_iff in H. destruct H as [Hcd H].
    cbn [app]. apply like_cons_step; [assumption|now apply IH].
Qed.

Lemma like_contains_any (f s : list ascii) :
  contains_chars eq_nocase f s = true ->
  like_chars (percent :: f ++ [percent]) s = true.
Proof.
  induction s as [|a s IH]; cbn [contains_chars]; intros H;
    apply orb_true_iff in H; destruct H as [H|H].
  - now apply like_percent_skip, like_prefix_any.
  - discriminate.
  - now apply like_percent_skip, like_prefix_any.
  - now apply like_percent_drop, IH.
Qed.

(** A fragment made of [%] alone, the empty fragment among them. *)
Lemma like_all_percent (f s : list ascii) :
  forallb (fun c => Ascii.eqb c percent) f = true ->
  like_chars (f ++ [percent]) s = true.
Proof.
  induction f as [|c f IH]; intros H.
  - apply like_trailing_percent.
  - cbn [forallb] in H. apply andb_true_iff in H. destruct H as [Hc H].
    apply Ascii.eqb_eq in Hc. subst c. cbn [app].
    now apply like_percent_skip, IH.
Qed.

End LikeAnyFragment.

(** ** The case of ASCII letters *)

Section AsciiCase.

Lemma lower_idempotent (c : ascii) : lower (lower c) = lower c.
Proof.
  destruct c as [[] [] [] [] [] [] [] []]; reflexivity.
Qed.

Lemma lower_percent (c : ascii) : Ascii.eqb (lower c) percent = Ascii.eqb c percent.
Proof.
  destruct c as [[] [] [] [] [] [] [] []]; reflexivity.
Qed.

Lemma lower_underscore (c : ascii) :
  Ascii.eqb (lower c) underscore = Ascii.eqb c underscore.
Proof.
  destruct c as [[] [] [] [] [] [] [] []]; reflexivity.
Qed.

(** LIKE reads a pattern up to the case of its ASCII letters. *)
Lemma like_lower_pattern (p : list ascii) :
  forall s, like_chars (map lower p) s = like_chars p s.
Proof.
  induction p as [|c p IH]; intros s; [reflexivity|].
  cbn [map]. destruct (Ascii.eqb c percent) eqn:Ec.
  - apply Ascii.eqb_eq in Ec. subst c.
    change (lower percent) with percent.
    induction s as [|d s IHs].
    + rewrite !like_percent_step, IH. reflexivity.
    + rewrite (like_percent_step (map lower p)), (like_percent_step p), IH, IHs.
      reflexivity.
  - cbn [like_chars]. rewrite lower_percent, lower_underscore, Ec.
    destruct (Ascii.eqb c underscore).
    + destruct s; [reflexivity|now rewrite !IH].
    + destruct s as [|d s]; [reflexivity|].
      now rewrite lower_idempotent, IH.
Qed.

Lemma lower_continuation (c : ascii) : continuation (lower c) = continuation c.
Proof.
  destruct c as [[] [] [] [] [] [] [] []]; reflexivity.
Qed.

Lemma lower_lead (c : ascii) : lead (lower c) = lead c.
Proof.
  destruct c as [[] [] [] [] [] [] [] []]; reflexivity.
Qed.

Lemma lower_drop_continuation (s : list ascii) :
  drop_continuation (map lower s) = map lower (drop_continuation s).
Proof.
  induction s as [|c s IH]; [reflexivity|].
  cbn [map drop_continuation]. rewrite lower_continuation.
  destruct (continuation c); [exact IH|reflexivity].
Qed.

(** And a text up to the case of its ASCII letters. *)
Lemma like_lower_text (p : list ascii) :
  forall s, like_chars p (map lower s) = like_chars p s.
Proof.
  induction p as [|c p IH]; intros s.
  - destruct s; reflexivity.
  - destruct (Ascii.eqb c percent) eqn:Ec.
    + apply Ascii.eqb_eq in Ec. subst c.
      induction s as [|d s IHs]; [reflexivity|].
      cbn [map]. rewrite (like_percent_step p (lower d :: map lower s)),
        (like_percent_step p (d :: s)), IHs.
      now rewrite <- (IH (d :: s)).
    + cbn [like_chars]. rewrite Ec.
      destruct (Ascii.eqb c underscore).
      * destruct s as [|d s]; [reflexivity|].
        cbn [map]. rewrite lower_continuation, lower_lead, lower_drop_continuation.
        now rewrite !IH.
      * destruct s as [|d s]; [reflexivity|].
        cbn [map]. now rewrite lower_idempotent, IH.
Qed.

Lemma like_same_case (p p' s s' : list ascii) :
  map lower p = map lower p' -> map lower s = map lower s' ->
  like_chars p s = like_chars p' s'.
Proof.
  intros Hp Hs.
  rewrite <- (like_lower_pattern p), <- (like_lower_pattern p'), Hp.
  rewrite <- (like_lower_text _ s), <- (like_lower_text _ s'), Hs. reflexivity.
Qed.

End AsciiCase.

(** ** The rows of the first statement, for any pattern *)

Section Selection.

Lemma cut_is_full {A} (k : nat) (l : list A) (y : A) :
  In y (skipn k l) -> List.length (firstn k l) = k.
Proof.
  intros H. apply firstn_length_le.
  destruct (Nat.le_gt_cases k (List.length l)) as [Hle|Hgt]; [assumption|].
  rewrite skipn_all2 in H by lia. contradiction.
Qed.

(** A matching note is selected, unless ten that are no older were. *)
Lemma select_notes_complete (d : Db) (pattern : string) (y : ZSFNOTE.row) :
  In y (Sqlite.notes d) -> where_notes pattern y = true ->
  In y (select_notes d pattern) \/
  (List.length (select_notes d pattern) = 10%nat /\
   forall x, In x (select_notes d pattern) -> not_older x y).
Proof.
  unfold select_notes. intros Hy Hw.
  assert (Hin : In y (order_by_modification_desc
                        (filter (where_notes pattern) (Sqlite.notes d)))).
  { apply (Permutation_in _ (Permutation_sym (order_by_perm _))).
    apply filter_In. now split. }
  rewrite <- (firstn_skipn 10) in Hin. apply in_app_or in Hin.
  destruct Hin as [Hin|Hin]; [now left|right]. split.
  - eapply cut_is_full; eassumption.
  - intros x Hx. eapply sorted_cut; [apply order_by_sorted|eassumption|eassumption].
Qed.

End Selection.

(** X3: the notes [find_note_by_partial_id] selects, whatever the fragment
    holds: at most 10, newest modification first, each of them a
    non-trashed note of the store that the pattern matches; a matching
    note is left out only when 10 notes that are no older were selected;
    and when at most 10 notes match, the selection is all of them. *)
Theorem selection_newest_first (d : Db) (pattern : string) :
  (List.length (select_notes d pattern) <= 10)%nat /\
  StronglySorted not_older (select_notes d pattern) /\
  (forall r, In r (select_notes d pattern) ->
     In r (Sqlite.notes d) /\ ZSFNOTE.ZTRASHED r = Some 0%Z /\
     where_notes pattern r = true) /\
  (forall y, In y (Sqlite.notes d) -> where_notes pattern y = true ->
     In y (select_notes d pattern) \/
     (List.length (select_notes d pattern) = 10%nat /\
      forall x, In x (select_notes d pattern) -> not_older x y)) /\
  ((List.length (filter (where_notes pattern) (Sqlite.notes d)) <= 10)%nat ->
   Permutation (select_notes d pattern) (filter (where_notes pattern) (Sqlite.notes d))).
Proof.
  split; [apply firstn_le_length|].
  split; [apply sorted_firstn, order_by_sorted|].
  split; [|split].
  - intros r Hr. apply select_notes_In in Hr. destruct Hr as [Hin Hw].
    repeat split; try assumption. now apply where_notes_not_trashed in Hw.
  - intros y. apply select_notes_complete.
  - intros Hlen. unfold select_notes.
    rewrite firstn_all2; [apply order_by_perm|].
    now rewrite (Permutation_length (order_by_perm _)).
Qed.



(** X5: the empty fragment, and any fragment made of [%] alone, matches
    every text: the handler then selects among all the non-trashed notes
    that have an identifier or a title. *)
Theorem empty_fragment_matches_all (fragment : string) (n : ZSFNOTE.row) :
  forallb (fun c => Ascii.eqb c percent) (list_ascii_of_string fragment) = true ->
  where_notes (like_pattern (JStr fragment)) n =
  holds (sql_eq_int (ZSFNOTE.ZTRASHED n) (Some 0%Z)) &&
  (match ZSFNOTE.ZUNIQUEIDENTIFIER n with Some _ => true | None => false end ||
   match ZSFNOTE.ZTITLE n with Some _ => true | None => false end).
Proof.
  intros Hf.
  assert (Hlike : forall t, like ("%" ++ fragment ++ "%") t = true).
  { intros t. unfold like. rewrite !list_ascii_of_string_app.
    apply like_percent_skip. now apply like_all_percent. }
  unfold where_notes, like_pattern, sql_like. cbn [toString].
  destruct (sql_eq_int (ZSFNOTE.ZTRASHED n) (Some 0%Z)) as [[|]|];
    destruct (ZSFNOTE.ZUNIQUEIDENTIFIER n), (ZSFNOTE.ZTITLE n);
    cbn [option_map]; rewrite ?Hlike; reflexivity.
Qed.

Lemma empty_fragment_matches_all_witness :
  forallb (fun c => Ascii.eqb c percent) (list_ascii_of_string "") = true /\
  where_notes (like_pattern (JStr "")) Corpus.noteB = true /\
  where_notes (like_pattern (JStr "")) Corpus.noteC = false.
Proof.
  split; [reflexivity|].
  rewrite (@empty_fragment_matches_all "" Corpus.noteB eq_refl).
  rewrite (@empty_fragment_matches_all "" Corpus.noteC eq_refl).
  split; reflexivity.
Defined.

(** X6: the search ignores the case of ASCII letters on both sides: two
    fragments that differ only in that case select the same notes, and a
    pattern matches alike two texts that differ only in that case. *)
Theorem search_ignores_ascii_case (d : Db) (fragment fragment' : string) :
  map lower (list_ascii_of_string fragment) =
  map lower (list_ascii_of_string fragment') ->
  select_notes d (like_pattern (JStr fragment)) =
  select_notes d (like_pattern (JStr fragment')) /\
  (forall text text',
     map lower (list_ascii_of_string text) = map lower (list_ascii_of_string text') ->
     like (like_pattern (JStr fragment)) text = like (like_pattern (JStr fragment')) text').
Proof.
  intros Hf.
  assert (Hlike : forall text text',
            map lower (list_ascii_of_string text) =
            map lower (list_ascii_of_string text') ->
            like (like_pattern (JStr fragment)) text =
            like (like_pattern (JStr fragment')) text').
  { intros text text' Ht. unfold like, like_pattern. cbn [toString].
    rewrite !list_ascii_of_string_app. apply like_same_case; [|exact Ht].
    rewrite !map_app, Hf. reflexivity. }
  split; [|exact Hlike].
  unfold select_notes. do 2 f_equal. apply filter_ext. intros n.
  unfold where_notes, sql_like.
  destruct (ZSFNOTE.ZUNIQUEIDENTIFIER n), (ZSFNOTE.ZTITLE n); cbn [option_map];
    rewrite ?(Hlike _ _ eq_refl); reflexivity.
Qed.

Lemma search_ignores_ascii_case_witness :
  map lower (list_ascii_of_string "PROJ") = map lower (list_ascii_of_string "proj") /\
  select_notes Corpus.store (like_pattern (JStr "PROJ")) =
  select_notes Corpus.store (like_pattern (JStr "proj")).
Proof.
  split; [reflexivity|].
  exact (proj1 (@search_ignores_ascii_case Corpus.store "PROJ" "proj" eq_refl)).
Defined.

(** ** The answer of find_note_by_partial_id, at its edges *)

Section PartialAnswer.

(** What [annotate] leaves of a row, and the one way it fails. *)
Lemma annotate_shape (d : Db) (r : ZSFNOTE.row) (n : note) :
  annotate d r = Ok n ->
  Utils.content n = of_text (ZSFNOTE.ZTEXT r) /\ exists ts, tags n = Some ts.
Proof.
  unfold annotate. destruct (convert_creation_date _); [|discriminate].
  intros [= <-]. cbn. eauto.
Qed.

Lemma annotate_not_convertible (d : Db) (r : ZSFNOTE.row) :
  convertible (ZSFNOTE.ZCREATIONDATE r) = false ->
  annotate d r = Throw (RangeError "Invalid time value").
Proof.
  unfold annotate, convert_creation_date, convertible.
  destruct (ZSFNOTE.ZCREATIONDATE r) as [z|]; [|discriminate]. intros H.
  cbn [of_int truthy].
  destruct (z =? 0)%Z eqn:Ez.
  - apply Z.eqb_eq in Ez. subst z. discriminate.
  - cbn [negb]. unfold new_Date. rewrite H. reflexivity.
Qed.

Lemma annotate_rows_throw (d : Db) (rows : list ZSFNOTE.row) :
  existsb (fun r => negb (convertible (ZSFNOTE.ZCREATIONDATE r))) rows = true ->
  for_each (annotate d) rows = Throw (RangeError "Invalid time value").
Proof.
  induction rows as [|r rows IH]; [discriminate|].
  cbn [existsb for_each]. intros H.
  destruct (convertible (ZSFNOTE.ZCREATIONDATE r)) eqn:Ec.
  - destruct (@annotate_convertible d r Ec) as (n & -> & _).
    cbn [negb orb] in H. now rewrite (IH H).
  - now rewrite annotate_not_convertible.
Qed.

Lemma render_rows_throw (d : Db) (rows : list ZSFNOTE.row) (ns : list note) :
  Forall2 (fun r n => annotate d r = Ok n) rows ns ->
  existsb (fun r => negb (has_text r)) rows = true ->
  for_each render_partial ns = Throw (read_error "null" "substring").
Proof.
  induction 1 as [|r n rows ns Hrn Hrest IH]; [discriminate|].
  cbn [existsb for_each]. intros H.
  destruct (@annotate_shape _ _ _ Hrn) as (Hc & ts & Hts).
  unfold render_partial at 1. rewrite Hc, Hts. unfold has_text in H.
  destruct (ZSFNOTE.ZTEXT r) as [c|]; cbn [of_text]; [|reflexivity].
  cbn [negb orb] in H. now rewrite (IH H).
Qed.

Lemma nat_of_small (m : nat) : (m < 256)%nat -> nat_of_ascii (ascii_of_nat m) = m.
Proof.
  apply nat_ascii_embedding.
Qed.

(** A high surrogate standing alone is one code unit. *)
Lemma high_surrogate_units (b0 b1 b2 : ascii) : units (high_surrogate b0 b1 b2) = 1%nat.
Proof.
  unfold high_surrogate.
  set (top := (_ - 64)%nat).
  assert (H1 : ((top / 64) mod 16 < 16)%nat) by (apply Nat.mod_upper_bound; discriminate).
  assert (H2 : (top mod 64 < 64)%nat) by (apply Nat.mod_upper_bound; discriminate).
  cbn [units]. unfold continuation, lead4.
  rewrite !nat_of_small by lia.
  replace (128 <=? 237)%nat with true by reflexivity.
  replace (237 <? 192)%nat with false by reflexivity.
  replace (240 <=? 237)%nat with false by reflexivity.
  replace (128 <=? 160 + (top / 64) mod 16)%nat with true
    by (symmetry; apply Nat.leb_le; lia).
  replace (160 + (top / 64) mod 16 <? 192)%nat with true
    by (symmetry; apply Nat.ltb_lt; lia).
  replace (128 <=? 128 + top mod 64)%nat with true
    by (symmetry; apply Nat.leb_le; lia).
  replace (128 + top mod 64 <? 192)%nat with true
    by (symmetry; apply Nat.ltb_lt; lia).
  reflexivity.
Qed.

(** [substring(0, k)] has [k] code units, or all of them. *)
Lemma substring0_units (c : string) :
  forall k, units (substring0 k c) = Nat.min k (units c).
Proof.
  induction c as [|b c IH]; intros k; cbn [substring0 units].
  - now rewrite Nat.min_0_r.
  - destruct (continuation b) eqn:Eb.
    + cbn [units]. rewrite Eb, IH. reflexivity.
    + destruct k as [|k]; [reflexivity|].
      destruct (lead4 b) eqn:E4.
      * destruct k as [|k].
        -- rewrite high_surrogate_units. reflexivity.
        -- cbn [units]. rewrite Eb, E4, IH. reflexivity.
      * cbn [units]. rewrite Eb, E4, IH. reflexivity.
Qed.

(** A text of at most [k] code units is taken whole. *)
Lemma substring0_whole (c : string) :
  forall k, (units c <= k)%nat -> substring0 k c = c.
Proof.
  induction c as [|b c IH]; intros k; cbn [substring0 units]; [reflexivity|].
  destruct (continuation b).
  - intros H. now rewrite IH.
  - destruct (lead4 b); intros H.
    + destruct k as [|[|k]]; [lia|lia|]. rewrite IH by lia. reflexivity.
    + destruct k as [|k]; [lia|]. rewrite IH by lia. reflexivity.
Qed.

(** What is taken is the text up to some character, and then at most the
    high surrogate of that character. *)
Lemma substring0_prefix (c : string) :
  forall k, exists pre rest,
    c = pre ++ rest /\
    (substring0 k c = pre \/
     exists b0 r,
       rest = String b0 r /\ lead4 b0 = true /\
       substring0 k c = pre ++ high_surrogate b0 (next_byte r) (next_byte (after_byte r))).
Proof.
  induction c as [|b c IH]; intros k.
  - exists "", "". split; [reflexivity|now left].
  - cbn [substring0].
    assert (Hcopy : forall k',
              exists pre rest,
                String b c = pre ++ rest /\
                (String b (substring0 k' c) = pre \/
                 exists b0 r,
                   rest = String b0 r /\ lead4 b0 = true /\
                   String b (substring0 k' c) =
                   pre ++ high_surrogate b0 (next_byte r) (next_byte (after_byte r)))).
    { intros k'. destruct (IH k') as (pre & rest & Hc & [H|(b0 & r & Hr & H4 & H)]).
      - exists (String b pre), rest. split; [cbn; now rewrite <- Hc|left; now rewrite H].
      - exists (String b pre), rest. split; [cbn; now rewrite <- Hc|].
        right. exists b0, r. repeat split; try assumption. cbn. now rewrite H. }
    destruct (continuation b); [apply Hcopy|].
    destruct k as [|k].
    + exists "", (String b c). split; [reflexivity|now left].
    + destruct (lead4 b) eqn:E4; [|apply Hcopy].
      destruct k as [|k]; [|apply Hcopy].
      exists "", (String b c). split; [reflexivity|].
      right. exists b, c. repeat split. exact E4.
Qed.

End PartialAnswer.

(** X7: [find_note_by_partial_id] uses its argument through its string
    form only, in the pattern and in the answer: a call whose arguments
    lack [partial_id] is not refused, it searches for the text
    [undefined]. *)
Theorem partial_id_by_string_form
        (U : Type) (utils : Utils.module U) (s : server) (a a' : arguments) (u : U) :
  toString (partial_id a) = toString (partial_id a') ->
  call_tool utils s (mkRequest "find_note_by_partial_id" (Some a)) u =
  call_tool utils s (mkRequest "find_note_by_partial_id" (Some a')) u.
Proof.
  intros H. rewrite !call_find. do 3 f_equal.
  unfold partial_answer, find_notes, like_pattern, partial_text. now rewrite H.
Qed.

Lemma partial_id_by_string_form_witness :
  toString (partial_id (Cases.find_for JUndefined)) =
  toString (partial_id (Cases.find_for (JStr "undefined"))) /\
  call_tool Corpus.engine (mkServer Corpus.store false)
            (mkRequest "find_note_by_partial_id" (Some (Cases.find_for JUndefined)))
            Corpus.fresh =
  call_tool Corpus.engine (mkServer Corpus.store false)
            (mkRequest "find_note_by_partial_id"
               (Some (Cases.find_for (JStr "undefined"))))
            Corpus.fresh.
Proof.
  split; [reflexivity|].
  exact (@partial_id_by_string_form _ Corpus.engine (mkServer Corpus.store false)
           (Cases.find_for JUndefined) (Cases.find_for (JStr "undefined"))
           Corpus.fresh eq_refl).
Defined.

(** X8: one note without a body fails the whole request. When the
    selected notes have valid dates and one of them has a NULL body, the
    answer is not the list of the other notes but the failure of
    [note.content.substring]. *)
Theorem null_body_fails_request
        (U : Type) (utils : Utils.module U) (s : server) (a : arguments) (u : U) :
  fault (db s) (SelectNotes (like_pattern (partial_id a))) = None ->
  forallb (fun r => convertible (ZSFNOTE.ZCREATIONDATE r))
          (select_notes (db s) (like_pattern (partial_id a))) = true ->
  existsb (fun r => negb (has_text r))
          (select_notes (db s) (like_pattern (partial_id a))) = true ->
  call_tool utils s (mkRequest "find_note_by_partial_id" (Some a)) u =
  (Ok (text_response
         ("Search failed: " ++ "Cannot read properties of null (reading 'substring')")),
   u).
Proof.
  intros Hq Hc Ht. rewrite call_find. do 3 f_equal.
  rewrite forallb_forall in Hc.
  destruct (@for_each_ok _ _ (annotate (db s)) (fun r n => annotate (db s) r = Ok n)
              (select_notes (db s) (like_pattern (partial_id a))))
    as (ns & Hns & Hrel).
  { intros r Hr. destruct (@annotate_convertible (db s) r (Hc r Hr)) as (n & Hn & _).
    eauto. }
  pose proof (@render_rows_throw _ _ _ Hrel Ht) as Hthrow.
  unfold partial_answer, find_notes, allAsync_notes. rewrite Hq, Hns.
  destruct ns as [|n ns].
  - inversion Hrel as [Hrows|]. rewrite <- Hrows in Ht. discriminate.
  - unfold partial_text. rewrite Hthrow. reflexivity.
Qed.

Lemma null_body_fails_request_witness :
  fault Cases.store_with_null_body (SelectNotes (like_pattern (JStr "D-"))) = None /\
  call_tool Corpus.engine (mkServer Cases.store_with_null_body false)
            (mkRequest "find_note_by_partial_id" (Some (Cases.find_for (JStr "D-"))))
            Corpus.fresh =
  (Ok (text_response
         ("Search failed: " ++ "Cannot read properties of null (reading 'substring')")),
   Corpus.fresh).
Proof.
  split; [reflexivity|].
  apply (@null_body_fails_request _ Corpus.engine
           (mkServer Cases.store_with_null_body false) (Cases.find_for (JStr "D-"))
           Corpus.fresh); reflexivity.
Defined.

(** X9: one note with a date out of range fails the whole request. When
    the creation time of a selected note, shifted to 1970 and scaled to
    milliseconds, is beyond the dates of JavaScript, [toISOString] throws
    and the answer is that failure. *)
Theorem invalid_date_fails_request
        (U : Type) (utils : Utils.module U) (s : server) (a : arguments) (u : U) :
  fault (db s) (SelectNotes (like_pattern (partial_id a))) = None ->
  existsb (fun r => negb (convertible (ZSFNOTE.ZCREATIONDATE r)))
          (select_notes (db s) (like_pattern (partial_id a))) = true ->
  call_tool utils s (mkRequest "find_note_by_partial_id" (Some a)) u =
  (Ok (text_response ("Search failed: " ++ "Invalid time value")), u).
Proof.
  intros Hq Hd. rewrite call_find. do 3 f_equal.
  unfold partial_answer, find_notes, allAsync_notes. rewrite Hq.
  now rewrite (@annotate_rows_throw _ _ Hd).
Qed.

Lemma invalid_date_fails_request_witness :
  fault Cases.store_with_far_date (SelectNotes (like_pattern (JStr "E-"))) = None /\
  call_tool Corpus.engine (mkServer Cases.store_with_far_date false)
            (mkRequest "find_note_by_partial_id" (Some (Cases.find_for (JStr "E-"))))
            Corpus.fresh =
  (Ok (text_response ("Search failed: " ++ "Invalid time value")), Corpus.fresh).
Proof.
  split; [reflexivity|].
  apply (@invalid_date_fails_request _ Corpus.engine
           (mkServer Cases.store_with_far_date false) (Cases.find_for (JStr "E-"))
           Corpus.fresh); reflexivity.
Defined.

(** X10: which native creation times the conversion accepts. A time is
    converted without failure exactly when it lies between -8640978307200
    and 8639021692800 seconds; outside, the conversion throws the
    [RangeError] of an invalid date. *)
Theorem creation_date_range (z : Z) :
  ((exists v, convert_creation_date (Some z) = Ok v) <->
   (-8640978307200 <= z <= 8639021692800)%Z) /\
  ((exists e, convert_creation_date (Some z) = Throw e) <->
   convert_creation_date (Some z) = Throw (RangeError "Invalid time value")).
Proof.
  assert (Hcases :
    ((-8640978307200 <= z <= 8639021692800)%Z /\
     exists v, convert_creation_date (Some z) = Ok v) \/
    (~ (-8640978307200 <= z <= 8639021692800)%Z /\
     convert_creation_date (Some z) = Throw (RangeError "Invalid time value"))).
  { unfold convert_creation_date. cbn [of_int truthy].
    destruct (z =? 0)%Z eqn:Ez; cbn [negb].
    - apply Z.eqb_eq in Ez. subst z. left. split; [lia|eauto].
    - unfold new_Date, apple_epoch, maxTime.
      destruct (Z.abs ((z + 978307200) * 1000) <=? 8640000000000000)%Z eqn:E;
        cbn [toISOString].
      + apply Z.leb_le in E. left. split; [lia|eauto].
      + apply Z.leb_gt in E. right. split; [lia|reflexivity]. }
  destruct Hcases as [(Hr & v & H)|(Hr & H)]; rewrite H; split; split;
    first [ now eauto
          | intros _; exact Hr
          | intros (? & ?); discriminate
          | discriminate
          | intros; contradiction
          | reflexivity ].
Qed.



(** X12: the tags of a note. The second statement lists a tag name once
    for every row of the join that links a tag of that name to a note
    row with the identifier, trashed or not; for a note without an
    identifier it lists nothing. *)
Theorem tags_of_a_note (d : Db) (i : option string) (t : option string) :
  (In t (select_tags d i) <->
   exists j zt zn s,
     In j (note_tags d) /\ In zt (Sqlite.tags d) /\ In zn (Sqlite.notes d) /\
     Z_5TAGS.Z_13TAGS j = Some (ZSFNOTETAG.Z_PK zt) /\
     Z_5TAGS.Z_5NOTES j = Some (ZSFNOTE.Z_PK zn) /\
     i = Some s /\ ZSFNOTE.ZUNIQUEIDENTIFIER zn = Some s /\
     t = ZSFNOTETAG.ZTITLE zt) /\
  select_tags d None = [].
Proof.
  split.
  - unfold select_tags. split.
    + intros H. apply in_flat_map in H. destruct H as (j & Hj & H).
      apply in_flat_map in H. destruct H as (zt & Hzt & H).
      destruct (holds (sql_eq_int _ (Z_5TAGS.Z_13TAGS j))) eqn:E13; [|contradiction].
      apply in_flat_map in H. destruct H as (zn & Hzn & H).
      destruct (holds (sql_eq_int _ (Z_5TAGS.Z_5NOTES j)) && _) eqn:E5; [|contradiction].
      destruct H as [<-|[]].
      apply andb_true_iff in E5. destruct E5 as [E5 Eid].
      apply holds_eq_int in E13. destruct E13 as (x & [= <-] & E13).
      apply holds_eq_int in E5. destruct E5 as (y & [= <-] & E5).
      destruct (ZSFNOTE.ZUNIQUEIDENTIFIER zn) as [b|] eqn:Eb, i as [s|];
        cbn in Eid; try discriminate.
      destruct (String.eqb b s) eqn:Ebs; [|discriminate].
      apply String.eqb_eq in Ebs. subst b.
      exists j, zt, zn, s. rewrite Eb. auto 10.
    + intros (j & zt & zn & s & Hj & Hzt & Hzn & E13 & E5 & -> & Eid & ->).
      apply in_flat_map. exists j. split; [assumption|].
      apply in_flat_map. exists zt. split; [assumption|].
      rewrite E13. cbn [sql_eq_int holds]. rewrite Z.eqb_refl.
      apply in_flat_map. exists zn. split; [assumption|].
      rewrite E5, Eid. cbn [sql_eq_int sql_eq_text holds].
      rewrite Z.eqb_refl, String.eqb_refl. now left.
  - apply select_tags_unlinked. intros. now right.
Qed.

(** ** How the process ends *)

Section Endings.

Variable U : Type.
Variable utils : Utils.module U.

(** While the store is being closed the process stays so, until the
    callback of [db.close] ends it with code 0. *)
Lemma run_closing (s : server) (events : list event) :
  forall u p u',
    main_run utils (Closing s, u) events (p, u') ->
    p = Closing s \/ (p = Exited 0 /\ exists mid, events = (mid ++ [Closed])%list).
Proof.
  induction events as [|e events IH]; intros u p u' H.
  - inversion H; subst. now left.
  - inversion H as [|? ? c1 ? ? Hstep Hrun]; subst.
    inversion Hstep; subst.
    + destruct (IH _ _ _ Hrun) as [->|(-> & mid & ->)]; [now left|right].
      split; [reflexivity|].
      match goal with |- context [?x :: mid ++ _] => exists (x :: mid) end. reflexivity.
    + destruct (IH _ _ _ Hrun) as [->|(-> & mid & ->)]; [now left|right].
      split; [reflexivity|]. exists (Signal :: mid). reflexivity.
    + destruct (run_ended Hrun eq_refl) as [-> [= -> ->]].
      right. split; [reflexivity|]. exists []. reflexivity.
Qed.

(** Once it serves, the process ends only with code 0, on a signal
    followed by the close of the store. *)
Lemma run_serving (s : server) (events : list event) :
  forall u p u',
    main_run utils (Serving s, u) events (p, u') ->
    p = Serving s \/ p = Closing s \/
    (p = Exited 0 /\ exists mid, events = (mid ++ [Closed])%list /\ In Signal mid).
Proof.
  induction events as [|e events IH]; intros u p u' H.
  - inversion H; subst. now left.
  - inversion H as [|? ? c1 ? ? Hstep Hrun]; subst.
    inversion Hstep; subst.
    + destruct (IH _ _ _ Hrun) as [->|[->|(-> & mid & -> & Hin)]]; [auto|auto|].
      right. right. split; [reflexivity|].
      match goal with |- context [?x :: mid ++ _] => exists (x :: mid) end.
      split; [reflexivity|now right].
    + destruct (run_closing Hrun) as [->|(-> & mid & ->)]; [auto|].
      right. right. split; [reflexivity|]. exists (Signal :: mid).
      split; [reflexivity|now left].
Qed.

End Endings.



(** X14: the exit code of the indexing script. [runIndexing()] ends with
    0 or 1; with 0 exactly when the store was opened and the index was
    built; and when the store cannot be opened the index is not touched:
    the engine is left as the failed attempt left it. *)
Theorem index_script_exit (U : Type) (utils : Utils.module U) (u : U) :
  (fst (runIndexing utils u) = 0%Z \/ fst (runIndexing utils u) = 1%Z) /\
  (fst (runIndexing utils u) = 0%Z <->
   exists dbPath u1 d u2 result u3,
     getDbPath utils u = (Ok dbPath, u1) /\
     createDb utils dbPath u1 = (Ok d, u2) /\
     createVectorIndex utils d u2 = (Ok result, u3) /\
     snd (runIndexing utils u) = u3) /\
  (forall e u1, getDbPath utils u = (Throw e, u1) -> runIndexing utils u = (1%Z, u1)) /\
  (forall dbPath u1 e u2,
     getDbPath utils u = (Ok dbPath, u1) ->
     createDb utils dbPath u1 = (Throw e, u2) ->
     runIndexing utils u = (1%Z, u2)).
Proof.
  unfold runIndexing, bind.
  destruct (getDbPath utils u) as [[dbPath|e] u1] eqn:E1.
  - destruct (createDb utils dbPath u1) as [[d|e] u2] eqn:E2.
    + destruct (createVectorIndex utils d u2) as [[result|e] u3] eqn:E3; cbn [fst snd].
      * split; [now left|]. split; [|split].
        -- split; [intros _|reflexivity].
           exists dbPath, u1, d, u2, result, u3. auto.
        -- discriminate.
        -- intros p v1 e v2 [= <- <-]. rewrite E2. discriminate.
      * split; [now right|]. split; [|split].
        -- split; [discriminate|].
           intros (p & v1 & d' & v2 & r & v3 & [= <- <-] & H2 & H3 & _).
           rewrite E2 in H2. injection H2 as <- <-. rewrite E3 in H3. discriminate.
        -- discriminate.
        -- intros p v1 e' v2 [= <- <-]. rewrite E2. discriminate.
    + cbn [fst snd]. split; [now right|]. split; [|split].
      * split; [discriminate|].
        intros (p & v1 & d' & v2 & r & v3 & [= <- <-] & H2 & _).
        rewrite E2 in H2. discriminate.
      * discriminate.
      * intros p v1 e' v2 [= <- <-]. rewrite E2. intros [= <- <-]. reflexivity.
  - cbn [fst snd]. split; [now right|]. split; [|split].
    + split; [discriminate|].
      intros (p & v1 & d' & v2 & r & v3 & H1 & _). discriminate.
    + intros e' v1 [= <- <-]. reflexivity.
    + discriminate.
Qed.

(** X16: the answer when nothing matches. When the store answers,
    [find_note_by_partial_id] says "No notes found" exactly when the
    first statement selects no row; the lookup of tags and the conversion
    of dates are then not reached. *)
Theorem no_match_answer
        (U : Type) (utils : Utils.module U) (s : server) (a : arguments) (u : U) :
  fault (db s) (SelectNotes (like_pattern (partial_id a))) = None ->
  (call_tool utils s (mkRequest "find_note_by_partial_id" (Some a)) u =
   (Ok (text_response ("No notes found matching partial ID or title: " ++
                       dq ++ toString (partial_id a) ++ dq)), u)
   <-> select_notes (db s) (like_pattern (partial_id a)) = []).
Proof.
  intros Hq. rewrite call_find.
  unfold partial_answer, find_notes, allAsync_notes. rewrite Hq.
  destruct (select_notes (db s) (like_pattern (partial_id a))) as [|r rows] eqn:Erows.
  - cbn [for_each]. split; reflexivity.
  - split; [|discriminate]. intros H. exfalso.
    destruct (for_each (annotate (db s)) (r :: rows)) as [ns|e] eqn:E.
    + pose proof (for_each_length _ _ E) as L.
      destruct ns as [|n ns]; [discriminate|].
      unfold partial_text in H.
      destruct (for_each render_partial (n :: ns)); cbn in H; discriminate.
    + cbn in H. discriminate.
Qed.

Lemma no_match_answer_witness :
  fault Corpus.store (SelectNotes (like_pattern (JStr "zebra"))) = None /\
  select_notes Corpus.store (like_pattern (JStr "zebra")) = [] /\
  call_tool Corpus.engine (mkServer Corpus.store false)
            (mkRequest "find_note_by_partial_id" (Some (Cases.find_for (JStr "zebra"))))
            Corpus.fresh =
  (Ok (text_response ("No notes found matching partial ID or title: " ++
                      dq ++ "zebra" ++ dq)), Corpus.fresh).
Proof.
  split; [reflexivity|]. split; [reflexivity|].
  apply (proj2 (@no_match_answer _ Corpus.engine (mkServer Corpus.store false)
                  (Cases.find_for (JStr "zebra")) Corpus.fresh eq_refl)).
  reflexivity.
Defined.
